(** * Arm inverse kinematics of three-avatar (src/avatar-ik.ts)

    A shallow embedding of [AvatarIK], [VRMapping], [createIKSettings] and
    [findOrAddTargetBone], with the properties of the arm chains, of the
    reach clamp and of the tick scheduler; and of what surrounds them:
    [createAvatarIK] with the default tables of src/defaults.ts, the
    methods of [Avatar] that read or write bones and morph targets
    ([type], [headSync], [getHeadHeight], [getSyncBonesData],
    [setSyncBonesData], [lipSync], [setFaceExpression]) and the
    [AutoWalker] extension.

    Conventions of the embedding.
    - A JavaScript [number] is a real number ([R]): the arithmetic is the
      exact one, rounding and NaN are not represented.  What holds of the
      reals by comparisons alone holds of the doubles of the program as
      well; an exact distance does not, and [Float64] replays the reach
      clamp on binary64 numbers to show it.
    - Objects of the scene graph ([THREE.Object3D], [THREE.Bone]) live in a
      store indexed by object identities; [===] on objects is equality of
      identities.  [Vector3], [Quaternion] and [Matrix4] are values: the
      source only ever [copy]s them into place, and its scratch objects
      [_tmps] only carry a value from one expression to the next.
    - State is passed explicitly: a function that writes to objects takes a
      scene and returns one; the mutable fields of a [VRMapping], of an
      [AvatarIK], of an [Avatar] or of an [AutoWalker] are returned in an
      updated record.
    - three.js is a dependency of the repository, not part of it.  Its
      small algebraic methods are written out; the scene-graph traversals
      ([getWorldPosition], [getWorldQuaternion], [updateMatrixWorld]) and
      the CCD solver are the fields of the class [Three].  The getters are
      observations of a scene; the matrices they refresh on their way are
      not tracked, [matrixWorld] is read as the scene has it.
    - A JavaScript array of numbers is a list of optional numbers, [None]
      for a hole or [undefined]; a write past its end lengthens it.
    - A function that may [throw] returns a [Completion].  A call that
      writes to the scene and may stop at a [TypeError] half-way
      ([mapVRAvatar] at a [parent!] without parent, and [tick] with it)
      returns the state it leaves, and a boolean of its own
      ([mapVRAvatar_throws], [tick_throws]) tells how it ended.  Calls handed on
      to the animation mixer or to the expression manager of a VRM, which
      are not part of the repository, are returned as the list of the
      calls made. *)

From Stdlib Require Import Reals Lra Psatz ZArith String List.
From Stdlib Require PrimFloat.
From stdpp Require Import base option list gmap strings.

Open Scope R_scope.

(** ** three.js values *)

Module Matrix4.

(** The sixteen [elements], in the column-major order of three.js:
    [elements[0] = n11], [elements[1] = n21], ..., [elements[15] = n44]. *)
Record t : Type := mk {
  n11 : R; n21 : R; n31 : R; n41 : R;
  n12 : R; n22 : R; n32 : R; n42 : R;
  n13 : R; n23 : R; n33 : R; n43 : R;
  n14 : R; n24 : R; n34 : R; n44 : R }.

(** [new THREE.Matrix4()] *)
Definition identity : t :=
  mk 1 0 0 0
     0 1 0 0
     0 0 1 0
     0 0 0 1.

Definition zero : t :=
  mk 0 0 0 0 0 0 0 0 0 0 0 0 0 0 0 0.

Definition t11 (m : t) : R :=
  n23 m * n34 m * n42 m - n24 m * n33 m * n42 m + n24 m * n32 m * n43 m
  - n22 m * n34 m * n43 m - n23 m * n32 m * n44 m + n22 m * n33 m * n44 m.
Definition t12 (m : t) : R :=
  n14 m * n33 m * n42 m - n13 m * n34 m * n42 m - n14 m * n32 m * n43 m
  + n12 m * n34 m * n43 m + n13 m * n32 m * n44 m - n12 m * n33 m * n44 m.
Definition t13 (m : t) : R :=
  n13 m * n24 m * n42 m - n14 m * n23 m * n42 m + n14 m * n22 m * n43 m
  - n12 m * n24 m * n43 m - n13 m * n22 m * n44 m + n12 m * n23 m * n44 m.
Definition t14 (m : t) : R :=
  n14 m * n23 m * n32 m - n13 m * n24 m * n32 m - n14 m * n22 m * n33 m
  + n12 m * n24 m * n33 m + n13 m * n22 m * n34 m - n12 m * n23 m * n34 m.

Definition determinant (m : t) : R :=
  n11 m * t11 m + n21 m * t12 m + n31 m * t13 m + n41 m * t14 m.

(** [this.invert()]: the adjugate over the determinant; a singular
    matrix becomes the zero matrix. *)
Definition invert (m : t) : t :=
  let det := determinant m in
  if Req_dec_T det 0 then zero
  else
    let detInv := 1 / det in
    mk (t11 m * detInv)
       ((n24 m * n33 m * n41 m - n23 m * n34 m * n41 m - n24 m * n31 m * n43 m
         + n21 m * n34 m * n43 m + n23 m * n31 m * n44 m - n21 m * n33 m * n44 m) * detInv)
       ((n22 m * n34 m * n41 m - n24 m * n32 m * n41 m + n24 m * n31 m * n42 m
         - n21 m * n34 m * n42 m - n22 m * n31 m * n44 m + n21 m * n32 m * n44 m) * detInv)
       ((n23 m * n32 m * n41 m - n22 m * n33 m * n41 m - n23 m * n31 m * n42 m
         + n21 m * n33 m * n42 m + n22 m * n31 m * n43 m - n21 m * n32 m * n43 m) * detInv)
       (t12 m * detInv)
       ((n13 m * n34 m * n41 m - n14 m * n33 m * n41 m + n14 m * n31 m * n43 m
         - n11 m * n34 m * n43 m - n13 m * n31 m * n44 m + n11 m * n33 m * n44 m) * detInv)
       ((n14 m * n32 m * n41 m - n12 m * n34 m * n41 m - n14 m * n31 m * n42 m
         + n11 m * n34 m * n42 m + n12 m * n31 m * n44 m - n11 m * n32 m * n44 m) * detInv)
       ((n12 m * n33 m * n41 m - n13 m * n32 m * n41 m + n13 m * n31 m * n42 m
         - n11 m * n33 m * n42 m - n12 m * n31 m * n43 m + n11 m * n32 m * n43 m) * detInv)
       (t13 m * detInv)
       ((n14 m * n23 m * n41 m - n13 m * n24 m * n41 m - n14 m * n21 m * n43 m
         + n11 m * n24 m * n43 m + n13 m * n21 m * n44 m - n11 m * n23 m * n44 m) * detInv)
       ((n12 m * n24 m * n41 m - n14 m * n22 m * n41 m + n14 m * n21 m * n42 m
         - n11 m * n24 m * n42 m - n12 m * n21 m * n44 m + n11 m * n22 m * n44 m) * detInv)
       ((n13 m * n22 m * n41 m - n12 m * n23 m * n41 m - n13 m * n21 m * n42 m
         + n11 m * n23 m * n42 m + n12 m * n21 m * n43 m - n11 m * n22 m * n43 m) * detInv)
       (t14 m * detInv)
       ((n13 m * n24 m * n31 m - n14 m * n23 m * n31 m + n14 m * n21 m * n33 m
         - n11 m * n24 m * n33 m - n13 m * n21 m * n34 m + n11 m * n23 m * n34 m) * detInv)
       ((n14 m * n22 m * n31 m - n12 m * n24 m * n31 m - n14 m * n21 m * n32 m
         + n11 m * n24 m * n32 m + n12 m * n21 m * n34 m - n11 m * n22 m * n34 m) * detInv)
       ((n12 m * n23 m * n31 m - n13 m * n22 m * n31 m + n13 m * n21 m * n32 m
         - n11 m * n23 m * n32 m - n12 m * n21 m * n33 m + n11 m * n22 m * n33 m) * detInv).

(** [multiplyMatrices(a, b)] *)
Definition multiply (a b : t) : t :=
  mk (n11 a * n11 b + n12 a * n21 b + n13 a * n31 b + n14 a * n41 b)
     (n21 a * n11 b + n22 a * n21 b + n23 a * n31 b + n24 a * n41 b)
     (n31 a * n11 b + n32 a * n21 b + n33 a * n31 b + n34 a * n41 b)
     (n41 a * n11 b + n42 a * n21 b + n43 a * n31 b + n44 a * n41 b)
     (n11 a * n12 b + n12 a * n22 b + n13 a * n32 b + n14 a * n42 b)
     (n21 a * n12 b + n22 a * n22 b + n23 a * n32 b + n24 a * n42 b)
     (n31 a * n12 b + n32 a * n22 b + n33 a * n32 b + n34 a * n42 b)
     (n41 a * n12 b + n42 a * n22 b + n43 a * n32 b + n44 a * n42 b)
     (n11 a * n13 b + n12 a * n23 b + n13 a * n33 b + n14 a * n43 b)
     (n21 a * n13 b + n22 a * n23 b + n23 a * n33 b + n24 a * n43 b)
     (n31 a * n13 b + n32 a * n23 b + n33 a * n33 b + n34 a * n43 b)
     (n41 a * n13 b + n42 a * n23 b + n43 a * n33 b + n44 a * n43 b)
     (n11 a * n14 b + n12 a * n24 b + n13 a * n34 b + n14 a * n44 b)
     (n21 a * n14 b + n22 a * n24 b + n23 a * n34 b + n24 a * n44 b)
     (n31 a * n14 b + n32 a * n24 b + n33 a * n34 b + n34 a * n44 b)
     (n41 a * n14 b + n42 a * n24 b + n43 a * n34 b + n44 a * n44 b).

End Matrix4.

Module Vector3.

Record t : Type := mk { x : R; y : R; z : R }.

(** [new THREE.Vector3()] *)
Definition zero : t := mk 0 0 0.

(** [fromArray([a0, a1, a2])] *)
Definition fromArray (a : R * R * R) : t :=
  let '(a0, a1, a2) := a in mk a0 a1 a2.

(** [this.distanceToSquared(v)] *)
Definition distanceToSquared (this v : t) : R :=
  let dx := x this - x v in
  let dy := y this - y v in
  let dz := z this - z v in
  dx * dx + dy * dy + dz * dz.

(** [this.distanceTo(v)] *)
Definition distanceTo (this v : t) : R := sqrt (distanceToSquared this v).

(** [this.lerp(v, alpha)] *)
Definition lerp (this v : t) (alpha : R) : t :=
  mk (x this + (x v - x this) * alpha)
     (y this + (y v - y this) * alpha)
     (z this + (z v - z this) * alpha).

(** [this.applyMatrix4(m)], with its perspective divide. *)
Definition applyMatrix4 (this : t) (m : Matrix4.t) : t :=
  let w := 1 / (Matrix4.n41 m * x this + Matrix4.n42 m * y this
                + Matrix4.n43 m * z this + Matrix4.n44 m) in
  mk ((Matrix4.n11 m * x this + Matrix4.n12 m * y this
       + Matrix4.n13 m * z this + Matrix4.n14 m) * w)
     ((Matrix4.n21 m * x this + Matrix4.n22 m * y this
       + Matrix4.n23 m * z this + Matrix4.n24 m) * w)
     ((Matrix4.n31 m * x this + Matrix4.n32 m * y this
       + Matrix4.n33 m * z this + Matrix4.n34 m) * w).

(** The test of [AvatarIK.tick]: [v.x === 0 && v.y === 0 && v.z === 0]. *)
Definition isOrigin (v : t) : bool :=
  (if Req_dec_T (x v) 0 then true else false)
  && (if Req_dec_T (y v) 0 then true else false)
  && (if Req_dec_T (z v) 0 then true else false).

End Vector3.

Module Quaternion.

Record t : Type := mk { x : R; y : R; z : R; w : R }.

(** [new THREE.Quaternion()] *)
Definition identity : t := mk 0 0 0 1.

(** [this.invert()]: the conjugate, as three.js has it. *)
Definition invert (q : t) : t := mk (- x q) (- y q) (- z q) (w q).

(** [this.multiplyQuaternions(a, b)] *)
Definition multiplyQuaternions (a b : t) : t :=
  mk (x a * w b + w a * x b + y a * z b - z a * y b)
     (y a * w b + w a * y b + z a * x b - x a * z b)
     (z a * w b + w a * z b + x a * y b - y a * x b)
     (w a * w b - x a * x b - y a * y b - z a * z b).

(** [this.premultiply(q)] is [multiplyQuaternions(q, this)]. *)
Definition premultiply (this q : t) : t := multiplyQuaternions q this.

(** [setFromEuler(new Euler(ex, ey, ez))], default order XYZ. *)
Definition setFromEuler (e : Vector3.t) : t :=
  let c1 := cos (Vector3.x e / 2) in
  let c2 := cos (Vector3.y e / 2) in
  let c3 := cos (Vector3.z e / 2) in
  let s1 := sin (Vector3.x e / 2) in
  let s2 := sin (Vector3.y e / 2) in
  let s3 := sin (Vector3.z e / 2) in
  mk (s1 * c2 * c3 + c1 * s2 * s3)
     (c1 * s2 * c3 - s1 * c2 * s3)
     (c1 * c2 * s3 + s1 * s2 * c3)
     (c1 * c2 * c3 - s1 * s2 * s3).

End Quaternion.

(** [THREE.MathUtils.degToRad] *)
Definition degToRad (degrees : R) : R := degrees * (PI / 180).

(** ** The scene graph *)

(** The identity of an object: what [===] compares. *)
Abbreviation ObjId := nat.

Module Object3D.

(** The properties of a [THREE.Object3D] that the source reads or writes.
    [matrixWorld] is the matrix three.js caches on the object. *)
Record t : Type := mk {
  name : string;
  parent : option ObjId;
  position : Vector3.t;
  quaternion : Quaternion.t;
  matrixWorld : Matrix4.t }.

(** [new THREE.Object3D()], [new THREE.Bone()] *)
Definition new : t :=
  mk EmptyString None Vector3.zero Quaternion.identity Matrix4.identity.

Definition with_name (n : string) (o : t) : t :=
  mk n (parent o) (position o) (quaternion o) (matrixWorld o).
Definition with_parent (p : option ObjId) (o : t) : t :=
  mk (name o) p (position o) (quaternion o) (matrixWorld o).
Definition with_position (v : Vector3.t) (o : t) : t :=
  mk (name o) (parent o) v (quaternion o) (matrixWorld o).
Definition with_quaternion (q : Quaternion.t) (o : t) : t :=
  mk (name o) (parent o) (position o) q (matrixWorld o).

End Object3D.

#[global] Instance Object3D_inhabited : Inhabited Object3D.t :=
  populate Object3D.new.

(** The store of objects.  A reference held by the program always denotes
    an object, hence the total lookup [st !!! o]. *)
Abbreviation Scene := (gmap nat Object3D.t).

(** [o.name = n], [o.position.copy(v)], [o.quaternion.copy(q)] *)
Definition set_name (o : ObjId) (n : string) (st : Scene) : Scene :=
  <[o := Object3D.with_name n (st !!! o)]> st.
Definition set_parent (o : ObjId) (p : option ObjId) (st : Scene) : Scene :=
  <[o := Object3D.with_parent p (st !!! o)]> st.
Definition set_position (o : ObjId) (v : Vector3.t) (st : Scene) : Scene :=
  <[o := Object3D.with_position v (st !!! o)]> st.
Definition set_quaternion (o : ObjId) (q : Quaternion.t) (st : Scene) : Scene :=
  <[o := Object3D.with_quaternion q (st !!! o)]> st.

(** [this.add(object)]: an object is never added to itself. *)
Definition Object3D_add (this object : ObjId) (st : Scene) : Scene :=
  if decide (object = this) then st else set_parent object (Some this) st.

(** [this.removeFromParent()] *)
Definition Object3D_removeFromParent (this : ObjId) (st : Scene) : Scene :=
  match Object3D.parent (st !!! this) with
  | Some _ => set_parent this None st
  | None => st
  end.

(** [let el = person; while (el.parent) { el = el.parent; }], the loop
    bounded by the number of objects of the scene. *)
Fixpoint root_of (fuel : nat) (st : Scene) (el : ObjId) : ObjId :=
  match fuel with
  | O => el
  | S fuel' =>
      match Object3D.parent (st !!! el) with
      | Some p => root_of fuel' st p
      | None => el
      end
  end.

(** ** Skeletons and chain descriptions *)

Module Skeleton.

Record t : Type := mk {
  bones : list ObjId;
  boneInverses : list Matrix4.t }.

(** [new THREE.Skeleton(bones)]: without inverses given, each is computed
    from the world matrix of its bone. *)
Definition new (st : Scene) (bs : list ObjId) : t :=
  mk bs (List.map (fun b => Matrix4.invert (Object3D.matrixWorld (st !!! b))) bs).

End Skeleton.

(** [array.findIndex(pred)]: the first index that satisfies [pred], or -1. *)
Fixpoint findIndex_from {A : Type} (pred : A -> bool) (l : list A) (i : Z) : Z :=
  match l with
  | [] => (-1)%Z
  | v :: l' => if pred v then i else findIndex_from pred l' (i + 1)%Z
  end.
Definition findIndex {A : Type} (pred : A -> bool) (l : list A) : Z :=
  findIndex_from pred l 0%Z.

(** [array[i]] for a JavaScript index: [undefined] out of range. *)
Definition js_nth {A : Type} (l : list A) (i : Z) : option A :=
  if (i <? 0)%Z then None else l !! Z.to_nat i.

(** [x, y, z] *)
Definition Vector3Tupple : Type := (R * R * R)%type.

Module RotationLimit.
Record t : Type := mk {
  rotationMin : option Vector3Tupple;
  rotationMax : option Vector3Tupple }.
End RotationLimit.

Module RotationLimitSet.
Record t : Type := mk {
  leftArm : RotationLimit.t * RotationLimit.t;
  rightArm : RotationLimit.t * RotationLimit.t }.
End RotationLimitSet.

Module WristRotationOffsetSet.
Record t : Type := mk {
  left : Vector3Tupple;
  right : Vector3Tupple }.
End WristRotationOffsetSet.

(** [ar.map(f)] on a three-element tuple *)
Definition tupple_map (f : R -> R) (ar : Vector3Tupple) : Vector3Tupple :=
  let '(a0, a1, a2) := ar in (f a0, f a1, f a2).

Definition limitToVec (ar : option Vector3Tupple) : option Vector3.t :=
  match ar with
  | Some ar => Some (Vector3.fromArray (tupple_map degToRad ar))
  | None => None
  end.

Module IKLink.
Record t : Type := mk {
  index : Z;
  rotationMin : option Vector3.t;
  rotationMax : option Vector3.t }.
End IKLink.

Module IK.
Record t : Type := mk {
  target : Z;
  effector : Z;
  iteration : Z;
  minAngle : R;
  maxAngle : R;
  links : list IKLink.t }.
End IK.

(** The bones a chain description designates in a list of bones. *)
Definition link_bones (bs : list ObjId) (ik : IK.t) : list ObjId :=
  omap (fun l => js_nth bs (IKLink.index l)) (IK.links ik).

(** [IKTargetBones]: shoulder, elbow, wrist, each possibly [undefined]. *)
Definition IKTargetBones : Type :=
  (option ObjId * option ObjId * option ObjId)%type.
Definition IKTargetBonesStrict : Type := (ObjId * ObjId * ObjId)%type.

(** [bones.includes(undefined)] *)
Definition is_undefined {A : Type} (v : option A) : bool :=
  match v with
  | None => true
  | Some _ => false
  end.
Definition includes_undefined (bones : IKTargetBones) : bool :=
  let '(b0, b1, b2) := bones in existsb is_undefined [b0; b1; b2].

Definition isNotIncludeUndefined (bones : IKTargetBones) : bool :=
  negb (includes_undefined bones).

(** [isNotIncludeUndefined(bones) ? bones : undefined] *)
Definition strict_bones (bones : IKTargetBones) : option IKTargetBonesStrict :=
  if isNotIncludeUndefined bones then
    match bones with
    | (Some b0, Some b1, Some b2) => Some (b0, b1, b2)
    | _ => None
    end
  else None.

Definition bones_list (bones : option IKTargetBonesStrict) : list ObjId :=
  match bones with
  | Some (b0, b1, b2) => [b0; b1; b2]
  | None => []
  end.

(** ** What the embedding takes from three.js *)

Class Three : Type := {
  (** [object.getWorldPosition(new Vector3())] in a scene *)
  getWorldPosition : Scene -> ObjId -> Vector3.t;
  (** [object.getWorldQuaternion(new Quaternion())] in a scene *)
  getWorldQuaternion : Scene -> ObjId -> Quaternion.t;
  (** [object.updateMatrixWorld()] *)
  updateMatrixWorld : ObjId -> Scene -> Scene;
  (** [solver.updateOne(ik)] of a [CCDIKSolver] over the bones of its mesh *)
  CCDIKSolver_updateOne : list ObjId -> IK.t -> Scene -> Scene }.

(** The CCD solver rotates link bones: it leaves every local position
    alone, and the local rotation of every bone that is not a link. *)
Definition solver_rotates_links_only (T : Three) : Prop :=
  forall (bs : list ObjId) (ik : IK.t) (st : Scene) (o : ObjId),
    Object3D.position (CCDIKSolver_updateOne bs ik st !!! o)
      = Object3D.position (st !!! o)
    /\ (o ∉ link_bones bs ik ->
        Object3D.quaternion (CCDIKSolver_updateOne bs ik st !!! o)
          = Object3D.quaternion (st !!! o)).

(** ** The reach mapper: [VRMapping] *)

Module VRMapping.

Record t : Type := mk {
  vrPerson : ObjId;
  getVrHand : Scene -> option ObjId;
  ikTarget : ObjId;
  ikTargetInitPos : Vector3.t;
  wristBone : ObjId;
  wristRotationOffset : option Quaternion.t;
  wristBoneInitQuat : Quaternion.t;
  maxDistanceSquared : R;
  maxShoulderToControllderDistanceSquared : R;
  shoulderBone : ObjId }.

Definition with_maxima (maxD maxS : R) (m : t) : t :=
  mk (vrPerson m) (getVrHand m) (ikTarget m) (ikTargetInitPos m)
     (wristBone m) (wristRotationOffset m) (wristBoneInitQuat m)
     maxD maxS (shoulderBone m).

End VRMapping.

(** [if (max < v) { max = v; }] *)
Definition raise (max v : R) : R := if Rlt_dec max v then v else max.

(** ** [AvatarIK] *)

Module VRHandGetter.
Record t : Type := mk {
  left : option (Scene -> option ObjId);
  right : option (Scene -> option ObjId) }.
End VRHandGetter.

Module Options.
Record t : Type := mk {
  isDebug : option bool;
  intervalSec : option R }.
End Options.

Module CCDIKSolver.
(** [mesh], the bones of [mesh.skeleton], and [iks]. *)
Record t : Type := mk {
  mesh : ObjId;
  bones : list ObjId;
  iks : list IK.t }.
End CCDIKSolver.

Module AvatarIK.

Record t : Type := mk {
  _solver : option CCDIKSolver.t;
  _vrMappings : list VRMapping.t;
  _helper : option ObjId;
  _intervalSec : R;
  _sec : R }.

Definition with_sec (sec : R) (a : t) : t :=
  mk (_solver a) (_vrMappings a) (_helper a) (_intervalSec a) sec.
Definition with_vrMappings (ms : list VRMapping.t) (a : t) : t :=
  mk (_solver a) ms (_helper a) (_intervalSec a) (_sec a).
Definition delete_solver (a : t) : t :=
  mk None (_vrMappings a) (_helper a) (_intervalSec a) (_sec a).
Definition delete_helper (a : t) : t :=
  mk (_solver a) (_vrMappings a) None (_intervalSec a) (_sec a).

End AvatarIK.

Definition DEFAULT_INTERVAL_SEC : R := 1 / 60.

(** [v ? .. : ..] and [v === 0] on a number *)
Definition truthy (v : R) : bool := if Req_dec_T v 0 then false else true.
Definition is_zero (v : R) : bool := if Req_dec_T v 0 then true else false.

(** [options?.intervalSec || options?.intervalSec === 0
       ? options.intervalSec : DEFAULT_INTERVAL_SEC] *)
Definition intervalSec_of (options : option Options.t) : R :=
  match options with
  | Some o =>
      match Options.intervalSec o with
      | Some v => if truthy v || is_zero v then v else DEFAULT_INTERVAL_SEC
      | None => DEFAULT_INTERVAL_SEC
      end
  | None => DEFAULT_INTERVAL_SEC
  end.

(** [options?.isDebug] as a condition *)
Definition isDebug_of (options : option Options.t) : bool :=
  match options with
  | Some o => default false (Options.isDebug o)
  | None => false
  end.

Section Model.

Context {three : Three}.

(** The constructor of [VRMapping]. *)
Definition VRMapping_new (vrPerson : ObjId) (getVrHand : Scene -> option ObjId)
    (ikTarget wristBone shoulderBone : ObjId)
    (wristRotationOffset : option Quaternion.t) (st : Scene) : VRMapping.t :=
  VRMapping.mk vrPerson getVrHand ikTarget
    (Object3D.position (st !!! ikTarget))
    wristBone wristRotationOffset
    (Object3D.quaternion (st !!! wristBone))
    (Vector3.distanceToSquared (getWorldPosition st shoulderBone)
                               (getWorldPosition st wristBone))
    0
    shoulderBone.

(** [mapVRAvatar], first block: the two running maxima are raised. *)
Definition raiseMaxima (m : VRMapping.t) (vrHand : ObjId) (st : Scene)
    : VRMapping.t :=
  let v := Vector3.distanceToSquared
             (getWorldPosition st (VRMapping.shoulderBone m))
             (getWorldPosition st (VRMapping.wristBone m)) in
  let maxDistanceSquared := raise (VRMapping.maxDistanceSquared m) v in
  let controllerPos := getWorldPosition st vrHand in
  let shoulderPos := getWorldPosition st (VRMapping.shoulderBone m) in
  let shoulderToControllderDistanceSquared :=
    Vector3.distanceToSquared shoulderPos controllerPos in
  let maxShoulderToControllderDistanceSquared :=
    raise (VRMapping.maxShoulderToControllderDistanceSquared m)
          shoulderToControllderDistanceSquared in
  VRMapping.with_maxima maxDistanceSquared
    maxShoulderToControllderDistanceSquared m.

(** The ratio under the square root of [alpha]. *)
Definition reachRatio (m : VRMapping.t) : R :=
  VRMapping.maxDistanceSquared m
  / VRMapping.maxShoulderToControllderDistanceSquared m.

(** [mapVRAvatar], second block: the world position the target is sent
    to, before it is brought into the space of the target's parent.  [m]
    is the mapping with its maxima already raised. *)
Definition ikTargetWorld (m : VRMapping.t) (shoulderPos controllerPos : Vector3.t)
    : Vector3.t :=
  let shoulderToControllderDistanceSquared :=
    Vector3.distanceToSquared shoulderPos controllerPos in
  if Rgt_dec shoulderToControllderDistanceSquared (VRMapping.maxDistanceSquared m)
  then
    let alpha := sqrt (reachRatio m) in
    Vector3.lerp shoulderPos controllerPos alpha
  else controllerPos.

(** [mapVRAvatar], last block: the rotation given to the wrist. *)
Definition wristQuaternion (m : VRMapping.t) (vrHand wristParent : ObjId)
    (st : Scene) : Quaternion.t :=
  let parentWorldQuat := getWorldQuaternion st wristParent in
  let vrHandQuat :=
    Quaternion.premultiply (getWorldQuaternion st vrHand)
                           (Quaternion.invert parentWorldQuat) in
  match VRMapping.wristRotationOffset m with
  | Some offset => Quaternion.multiplyQuaternions vrHandQuat offset
  | None => vrHandQuat
  end.

(** [mapVRAvatar()].  The two [parent!] of the source assert that the
    target and the wrist have a parent; where one has none the JavaScript
    stops at that expression with a [TypeError], and so do the writes
    here: the result is the state the call leaves, [mapVRAvatar_throws]
    tells how it ended. *)
Definition mapVRAvatar (m : VRMapping.t) (st : Scene) : VRMapping.t * Scene :=
  match VRMapping.getVrHand m st with
  | None => (m, st)
  | Some vrHand =>
      let m' := raiseMaxima m vrHand st in
      let controllerPos := getWorldPosition st vrHand in
      let shoulderPos := getWorldPosition st (VRMapping.shoulderBone m) in
      let world := ikTargetWorld m' shoulderPos controllerPos in
      match Object3D.parent (st !!! VRMapping.ikTarget m) with
      | None => (m', st)
      | Some targetParent =>
          let mat := Matrix4.invert (Object3D.matrixWorld (st !!! targetParent)) in
          let st1 := set_position (VRMapping.ikTarget m)
                       (Vector3.applyMatrix4 world mat) st in
          match Object3D.parent (st1 !!! VRMapping.wristBone m) with
          | None => (m', st1)
          | Some wristParent =>
              (m', set_quaternion (VRMapping.wristBone m)
                     (wristQuaternion m vrHand wristParent st1) st1)
          end
      end
  end.

(** Whether [mapVRAvatar()] ends in a [TypeError]: [this.ikTarget.parent!]
    and [this.wristBone.parent!] are dereferenced without a test, so a
    target or a wrist without parent stops the call at that expression.
    [mapVRAvatar] gives the mapping and the scene as the call leaves them
    in either case. *)
Definition mapVRAvatar_throws (m : VRMapping.t) (st : Scene) : bool :=
  match VRMapping.getVrHand m st with
  | None => false
  | Some vrHand =>
      let m' := raiseMaxima m vrHand st in
      let controllerPos := getWorldPosition st vrHand in
      let shoulderPos := getWorldPosition st (VRMapping.shoulderBone m) in
      let world := ikTargetWorld m' shoulderPos controllerPos in
      match Object3D.parent (st !!! VRMapping.ikTarget m) with
      | None => true
      | Some targetParent =>
          let mat := Matrix4.invert (Object3D.matrixWorld (st !!! targetParent)) in
          let st1 := set_position (VRMapping.ikTarget m)
                       (Vector3.applyMatrix4 world mat) st in
          match Object3D.parent (st1 !!! VRMapping.wristBone m) with
          | None => true
          | Some _ => false
          end
      end
  end.

(** [reset()] *)
Definition reset (m : VRMapping.t) (st : Scene) : Scene :=
  let st1 := set_position (VRMapping.ikTarget m) (VRMapping.ikTargetInitPos m) st in
  set_quaternion (VRMapping.wristBone m) (VRMapping.wristBoneInitQuat m) st1.

(** A mapping driven through a sequence of [mapVRAvatar] calls; whatever
    moves bones and controllers between two calls hands each call its own
    scene. *)
Fixpoint mapVRAvatar_seq (m : VRMapping.t) (frames : list Scene) : VRMapping.t :=
  match frames with
  | [] => m
  | st :: frames' => mapVRAvatar_seq (fst (mapVRAvatar m st)) frames'
  end.

(** ** The chain builder *)

Definition findOrAddTargetBone (skeleton : Skeleton.t) (person : ObjId)
    (name : string) (effectorBone : ObjId) (st : Scene)
    : ObjId * Skeleton.t * Scene :=
  match List.find (fun v => String.eqb (Object3D.name (st !!! v)) name)
                  (Skeleton.bones skeleton) with
  | Some b => (b, skeleton, st)
  | None =>
      let targetBone := fresh (dom st) in
      let st1 := <[targetBone := Object3D.new]> st in
      let st2 := set_name targetBone name st1 in
      let bones := Skeleton.bones skeleton ++ [targetBone] in
      let boneInverses := Skeleton.boneInverses skeleton ++ [Matrix4.identity] in
      let boneInverses :=
        match bones !! (length bones - 1)%nat with
        | Some last =>
            <[(length boneInverses - 1)%nat :=
                Matrix4.invert (Object3D.matrixWorld (st2 !!! last))]> boneInverses
        | None => boneInverses
        end in
      let st3 := Object3D_add person targetBone st2 in
      let st4 := updateMatrixWorld person st3 in
      let initPos := getWorldPosition st4 effectorBone in
      let st5 :=
        set_position targetBone
          (Vector3.applyMatrix4 initPos
             (Matrix4.invert (Object3D.matrixWorld (st4 !!! person)))) st4 in
      (targetBone, Skeleton.mk bones boneInverses, st5)
  end.

(** The scene in which [findOrAddTargetBone] reads the wrist and the root
    when it places a new target: the bone is allocated, named and
    attached, the world matrices of the root are refreshed. *)
Definition scene_with_target (person : ObjId) (name : string) (st : Scene) : Scene :=
  let targetBone := fresh (dom st) in
  updateMatrixWorld person
    (Object3D_add person targetBone
       (set_name targetBone name (<[targetBone := Object3D.new]> st))).

(** [person.worldToLocal(v)] on up-to-date matrices. *)
Definition worldToLocal (st : Scene) (o : ObjId) (v : Vector3.t) : Vector3.t :=
  Vector3.applyMatrix4 v (Matrix4.invert (Object3D.matrixWorld (st !!! o))).

Definition createIKSettings (skeleton : Skeleton.t) (person : ObjId)
    (name : string) (bones : IKTargetBonesStrict)
    (rotationLimits : RotationLimit.t * RotationLimit.t)
    (vrHandGetter : option (Scene -> option ObjId))
    (rotationOffset : Vector3Tupple) (st : Scene)
    : IK.t * VRMapping.t * Skeleton.t * Scene :=
  let '(bones0, bones1, bones2) := bones in
  let '(targetBone, skeleton, st) :=
    findOrAddTargetBone skeleton person name bones2 st in
  let ik :=
    IK.mk (findIndex (fun v => bool_decide (v = targetBone)) (Skeleton.bones skeleton))
          (findIndex (fun v => bool_decide (v = bones2)) (Skeleton.bones skeleton))
          2 (-0.2) 0.2
          [ IKLink.mk
              (findIndex (fun v => bool_decide (v = bones1)) (Skeleton.bones skeleton))
              (limitToVec (RotationLimit.rotationMin (snd rotationLimits)))
              (limitToVec (RotationLimit.rotationMax (snd rotationLimits)));
            IKLink.mk
              (findIndex (fun v => bool_decide (v = bones0)) (Skeleton.bones skeleton))
              (limitToVec (RotationLimit.rotationMin (fst rotationLimits)))
              (limitToVec (RotationLimit.rotationMax (fst rotationLimits))) ] in
  let vrMapping :=
    VRMapping_new person
      (fun scene => match vrHandGetter with
                    | Some getter => getter scene
                    | None => None
                    end)
      targetBone bones2 bones0
      (Some (Quaternion.setFromEuler
               (Vector3.fromArray (tupple_map degToRad rotationOffset))))
      st in
  (ik, vrMapping, skeleton, st).

(** ** Construction, ticks, disposal *)

(** One arm of the constructor: [if (bones) { .. iks.push(ik);
    vrMappings.push(vrMapping); }]. *)
Definition add_arm (person : ObjId) (name : string)
    (bones : option IKTargetBonesStrict)
    (rotationLimits : RotationLimit.t * RotationLimit.t)
    (vrHandGetter : option (Scene -> option ObjId))
    (rotationOffset : Vector3Tupple)
    (acc : list IK.t * list VRMapping.t * Skeleton.t * Scene)
    : list IK.t * list VRMapping.t * Skeleton.t * Scene :=
  let '(iks, vrMappings, skeleton, st) := acc in
  match bones with
  | Some bones =>
      let '(ik, vrMapping, skeleton, st) :=
        createIKSettings skeleton person name bones rotationLimits
                         vrHandGetter rotationOffset st in
      (iks ++ [ik], vrMappings ++ [vrMapping], skeleton, st)
  | None => acc
  end.

(** The debug branch: a [CCDIKHelper] is allocated and added to the root
    above [person]. *)
Definition add_helper (person : ObjId) (st : Scene) : ObjId * Scene :=
  let helper := fresh (dom st) in
  let st1 := <[helper := Object3D.new]> st in
  let el := root_of (size st1) st1 person in
  (helper, Object3D_add el helper st1).

(** The constructor.  [person_skeleton] is [person.skeleton] on entry; the
    skeleton in the result is [person.skeleton] on exit. *)
Definition AvatarIK_new (target : ObjId) (person_skeleton : option Skeleton.t)
    (maybeRightArmBones maybeLeftArmBones : IKTargetBones)
    (rotationLimitSet : RotationLimitSet.t)
    (vrHandGetter : VRHandGetter.t)
    (wristRotationOffsetSet : WristRotationOffsetSet.t)
    (options : option Options.t) (st : Scene)
    : AvatarIK.t * Skeleton.t * Scene :=
  let intervalSec := intervalSec_of options in
  let person := target in
  let leftArmBones := strict_bones maybeLeftArmBones in
  let rightArmBones := strict_bones maybeRightArmBones in
  let skeleton :=
    match person_skeleton with
    | Some skeleton => skeleton
    | None =>
        Skeleton.new st (bones_list leftArmBones ++ bones_list rightArmBones)
    end in
  let acc := ([], [], skeleton, st) in
  let acc :=
    add_arm person "leftArmIK" leftArmBones
      (RotationLimitSet.leftArm rotationLimitSet)
      (VRHandGetter.left vrHandGetter)
      (WristRotationOffsetSet.left wristRotationOffsetSet) acc in
  let '(iks, vrMappings, skeleton, st) :=
    add_arm person "rightArmIK" rightArmBones
      (RotationLimitSet.rightArm rotationLimitSet)
      (VRHandGetter.right vrHandGetter)
      (WristRotationOffsetSet.right wristRotationOffsetSet) acc in
  let solver := CCDIKSolver.mk person (Skeleton.bones skeleton) iks in
  let '(helper, st) :=
    if isDebug_of options then
      let '(helper, st) := add_helper person st in (Some helper, st)
    else (None, st) in
  (AvatarIK.mk (Some solver) vrMappings helper intervalSec 0, skeleton, st).

(** [vrHandPos && !(vrHandPos.x === 0 && vrHandPos.y === 0 &&
    vrHandPos.z === 0)] for [vrHandPos = m.getVrHand()?.position]. *)
Definition controller_active (m : VRMapping.t) (st : Scene) : bool :=
  match VRMapping.getVrHand m st with
  | Some vrHand => negb (Vector3.isOrigin (Object3D.position (st !!! vrHand)))
  | None => false
  end.

(** [this._solver.updateOne(this._solver.iks[i])].  The constructor pushes
    a description with every mapping, so [iks[i]] is defined for every
    [i] the loop reaches. *)
Definition solver_update (solver : CCDIKSolver.t) (i : nat) (st : Scene) : Scene :=
  match CCDIKSolver.iks solver !! i with
  | Some ik => CCDIKSolver_updateOne (CCDIKSolver.bones solver) ik st
  | None => st
  end.

(** The loop of [tick] from index [i] on, over the mappings from [i] on.
    A [TypeError] in [mapVRAvatar] leaves the loop, and [tick], at once:
    the solver is not run on that arm and the arms after it have no
    turn. *)
Fixpoint tick_loop (solver : CCDIKSolver.t) (i : nat) (ms : list VRMapping.t)
    (st : Scene) : list VRMapping.t * Scene :=
  match ms with
  | [] => ([], st)
  | m :: ms' =>
      let '(m', st1) :=
        if controller_active m st then mapVRAvatar m st
        else (m, reset m st) in
      if controller_active m st && mapVRAvatar_throws m st then (m' :: ms', st1)
      else
        let st2 := solver_update solver i st1 in
        let '(ms'', st3) := tick_loop solver (S i) ms' st2 in
        (m' :: ms'', st3)
  end.


Definition tick (a : AvatarIK.t) (deltaTime : R) (st : Scene)
    : AvatarIK.t * Scene :=
  let sec := AvatarIK._sec a + deltaTime in
  if Rlt_dec sec (AvatarIK._intervalSec a) then (AvatarIK.with_sec sec a, st)
  else
    let a := AvatarIK.with_sec 0 a in
    match AvatarIK._solver a with
    | Some solver =>
        let '(ms, st) := tick_loop solver 0 (AvatarIK._vrMappings a) st in
        (AvatarIK.with_vrMappings ms a, st)
    | None => (a, st)
    end.


Definition dispose (a : AvatarIK.t) (st : Scene) : AvatarIK.t * Scene :=
  let a := AvatarIK.delete_solver a in
  match AvatarIK._helper a with
  | Some helper =>
      (AvatarIK.delete_helper a, Object3D_removeFromParent helper st)
  | None => (a, st)
  end.

(** An instance driven through a sequence of [tick] calls, each with its
    own time step and the scene as the rest of the program left it. *)
Fixpoint tick_seq (a : AvatarIK.t) (frames : list (R * Scene)) : AvatarIK.t :=
  match frames with
  | [] => a
  | (deltaTime, st) :: frames' => tick_seq (fst (tick a deltaTime st)) frames'
  end.

End Model.

(** ** A scene graph without nesting

    An instance of [Three] in which every object sits at the root with an
    identity world transform above it: world coordinates are the local ones
    and no matrix needs refreshing.  Its solver turns every link bone back
    to the identity rotation. *)

Definition flat_three : Three := {|
  getWorldPosition := fun st o => Object3D.position (st !!! o);
  getWorldQuaternion := fun st o => Object3D.quaternion (st !!! o);
  updateMatrixWorld := fun _ st => st;
  CCDIKSolver_updateOne := fun bs ik st =>
    foldr (fun b st => set_quaternion b Quaternion.identity st) st (link_bones bs ik) |}.

Definition at_position (n : string) (p : option ObjId) (x y z : R) : Object3D.t :=
  Object3D.mk n p (Vector3.mk x y z) Quaternion.identity Matrix4.identity.

(** A left arm stretched along the x axis under the object 10, the target
    bone of the arm (object 4) at the wrist, and a controller (object 3)
    ten arm lengths away from the shoulder. *)
Definition demo_scene : Scene :=
  <[0%nat := at_position "LeftArm" (Some 10%nat) 0 0 0]>
  (<[1%nat := at_position "LeftForeArm" (Some 0%nat) (1/2) 0 0]>
  (<[2%nat := at_position "LeftHand" (Some 1%nat) 1 0 0]>
  (<[3%nat := at_position "controller" None 10 0 0]>
  (<[4%nat := at_position "target" (Some 10%nat) 1 0 0]>
  (<[10%nat := at_position "avatar" None 0 0 0]> ∅))))).

Definition demo_getter : Scene -> option ObjId := fun _ => Some 3%nat.

(** Later on: the target has been moved and the controller is parked at the
    origin. *)
Definition idle_scene : Scene :=
  <[3%nat := at_position "controller" None 0 0 0]>
  (<[4%nat := at_position "target" (Some 10%nat) 3 3 3]> demo_scene).

(** The scene with the bones of the right arm as well. *)
Definition two_arm_scene : Scene :=
  <[5%nat := at_position "RightArm" (Some 10%nat) 0 0 0]>
  (<[6%nat := at_position "RightForeArm" (Some 5%nat) (-1/2) 0 0]>
  (<[7%nat := at_position "RightHand" (Some 6%nat) (-1) 0 0]> demo_scene)).

Definition no_getter : VRHandGetter.t := VRHandGetter.mk None None.
Definition no_offset : WristRotationOffsetSet.t :=
  WristRotationOffsetSet.mk (0, 0, 0) (0, 0, 0).



(** ** Reading a chain description *)

(** The bone that link [j] of a description designates among [bs], and the
    bone its [effector] designates. *)
Definition link_bone (bs : list ObjId) (ik : IK.t) (j : nat) : option ObjId :=
  match IK.links ik !! j with
  | Some l => js_nth bs (IKLink.index l)
  | None => None
  end.
Definition effector_bone (bs : list ObjId) (ik : IK.t) : option ObjId :=
  js_nth bs (IK.effector ik).
Definition target_bone (bs : list ObjId) (ik : IK.t) : option ObjId :=
  js_nth bs (IK.target ik).

(** The limits a link carries are those of [limit], in radians. *)
Definition carries_limit (l : IKLink.t) (limit : RotationLimit.t) : Prop :=
  IKLink.rotationMin l = limitToVec (RotationLimit.rotationMin limit)
  /\ IKLink.rotationMax l = limitToVec (RotationLimit.rotationMax limit).

(** A description has two links, the first of which carries [forFirst] and
    the second [forSecond]. *)
Definition limits_applied (ik : IK.t) (forFirst forSecond : RotationLimit.t) : Prop :=
  exists first second : IKLink.t,
    IK.links ik = [first; second]
    /\ carries_limit first forFirst
    /\ carries_limit second forSecond.

(** [RotationLimitSetVrmV1] of src/defaults.ts *)
Definition RotationLimitSetVrmV1 : RotationLimitSet.t :=
  RotationLimitSet.mk
    (RotationLimit.mk (Some (0, -120, -80)) (Some (0, 5, 80)),
     RotationLimit.mk (Some (0, -150, 0)) (Some (0, 0, 0)))
    (RotationLimit.mk (Some (0, -5, -80)) (Some (0, 120, 80)),
     RotationLimit.mk (Some (0, 0, 0)) (Some (0, 150, 0))).

(** The skeleton the constructor makes for the left arm of [demo_scene]. *)
Definition demo_skeleton : Skeleton.t :=
  Skeleton.new demo_scene [0%nat; 1%nat; 2%nat].

(** ** What a tick may touch *)

(** The local position and rotation of [o] are the same in two scenes. *)
Definition same_pose (st st' : Scene) (o : ObjId) : Prop :=
  Object3D.position (st' !!! o) = Object3D.position (st !!! o)
  /\ Object3D.quaternion (st' !!! o) = Object3D.quaternion (st !!! o).

(** The objects an instance writes to: the target and the wrist of each
    mapping, and the link bones of each chain of its solver. *)
Definition mapping_objects (m : VRMapping.t) : list ObjId :=
  [VRMapping.ikTarget m; VRMapping.wristBone m].
Definition solver_objects (solver : option CCDIKSolver.t) : list ObjId :=
  match solver with
  | Some solver =>
      flat_map (link_bones (CCDIKSolver.bones solver)) (CCDIKSolver.iks solver)
  | None => []
  end.
Definition driven_objects (a : AvatarIK.t) : list ObjId :=
  flat_map mapping_objects (AvatarIK._vrMappings a)
  ++ solver_objects (AvatarIK._solver a).

(** No tick of any run of the instance changes the pose of [o]. *)
Definition untouched_by_ticks {three : Three} (a : AvatarIK.t) (o : ObjId) : Prop :=
  forall (frames : list (R * Scene)) (deltaTime : R) (st : Scene),
    same_pose st (snd (tick (tick_seq a frames) deltaTime st)) o.

(** The chain the constructor builds for one arm when the other arm is
    left out: none for an arm with an undefined bone, and otherwise the
    result of [createIKSettings] on the skeleton of [person], made of the
    bones of this arm if [person] has none. *)
Definition arm_chain {three : Three} (person : ObjId)
    (person_skeleton : option Skeleton.t) (name : string)
    (bones : option IKTargetBonesStrict)
    (rotationLimits : RotationLimit.t * RotationLimit.t)
    (vrHandGetter : option (Scene -> option ObjId))
    (rotationOffset : Vector3Tupple) (st : Scene)
    : option (IK.t * VRMapping.t) :=
  match bones with
  | Some bones =>
      let skeleton :=
        match person_skeleton with
        | Some skeleton => skeleton
        | None => Skeleton.new st (bones_list (Some bones))
        end in
      Some (createIKSettings skeleton person name bones rotationLimits
                             vrHandGetter rotationOffset st).1.1
  | None => None
  end.

(** The descriptions and mappings of an instance are those of [chain]. *)
Definition only_chain (a : AvatarIK.t) (chain : option (IK.t * VRMapping.t)) : Prop :=
  match chain with
  | Some (ik, m) =>
      (CCDIKSolver.iks <$> AvatarIK._solver a) = Some [ik]
      /\ AvatarIK._vrMappings a = [m]
  | None =>
      (CCDIKSolver.iks <$> AvatarIK._solver a) = Some []
      /\ AvatarIK._vrMappings a = []
  end.

(** The bones of an arm and the target of its chain. *)
Definition chain_objects (bones : option IKTargetBonesStrict)
    (chain : option (IK.t * VRMapping.t)) : list ObjId :=
  bones_list bones
  ++ match chain with
     | Some (_, m) => [VRMapping.ikTarget m]
     | None => []
     end.

(** ** Invariants of a mapping *)

(** The references of a mapping never change; only the two maxima do. *)
Definition same_bindings (m m' : VRMapping.t) : Prop :=
  VRMapping.vrPerson m' = VRMapping.vrPerson m
  /\ VRMapping.getVrHand m' = VRMapping.getVrHand m
  /\ VRMapping.ikTarget m' = VRMapping.ikTarget m
  /\ VRMapping.ikTargetInitPos m' = VRMapping.ikTargetInitPos m
  /\ VRMapping.wristBone m' = VRMapping.wristBone m
  /\ VRMapping.wristRotationOffset m' = VRMapping.wristRotationOffset m
  /\ VRMapping.wristBoneInitQuat m' = VRMapping.wristBoneInitQuat m
  /\ VRMapping.shoulderBone m' = VRMapping.shoulderBone m.

(** ** Aligned skeletons *)

(** [boneInverses[i]] exists exactly when [bones[i]] does. *)
Definition aligned (skeleton : Skeleton.t) : Prop :=
  length (Skeleton.bones skeleton) = length (Skeleton.boneInverses skeleton).

(** A description designates the bones of an arm among [bs]. *)
Definition designates (bs : list ObjId) (ik : IK.t) (bones : IKTargetBonesStrict)
    : Prop :=
  let '(b0, b1, b2) := bones in
  link_bone bs ik 0 = Some b1
  /\ link_bone bs ik 1 = Some b0
  /\ effector_bone bs ik = Some b2.

(** ** The default tables of src/defaults.ts *)

(** The outcome of a call that may [throw new Error(message)]. *)
Inductive Completion (A : Type) : Type :=
| Normal (value : A)
| Throw (message : string).
Arguments Normal {A} value.
Arguments Throw {A} message.

Definition Completion_bind {A B : Type} (c : Completion A)
    (k : A -> Completion B) : Completion B :=
  match c with
  | Normal value => k value
  | Throw message => Throw message
  end.

(** [AvatarType] is a string at run time; the type checker admits three. *)
Definition AvatarType : Type := string.
Definition AvatarTypeVrmV0 : AvatarType := "VrmV0".
Definition AvatarTypeVrmV1 : AvatarType := "VrmV1".
Definition AvatarTypeReadyPlayerMe : AvatarType := "ReadyPlayerMe".

Definition RotationLimitSetVrmV0 : RotationLimitSet.t :=
  RotationLimitSet.mk
    (RotationLimit.mk (Some (0, -120, -80)) (Some (0, 5, 80)),
     RotationLimit.mk (Some (0, -150, 0)) (Some (0, 0, 0)))
    (RotationLimit.mk (Some (0, -5, -80)) (Some (0, 120, 80)),
     RotationLimit.mk (Some (0, 0, 0)) (Some (0, 150, 0))).

Definition RotationLimitSetRpm : RotationLimitSet.t :=
  RotationLimitSet.mk
    (RotationLimit.mk (Some (-80, 0, -5)) (Some (80, 0, 120)),
     RotationLimit.mk (Some (0, 0, 0)) (Some (0, 0, 150)))
    (RotationLimit.mk (Some (-80, 0, -120)) (Some (80, 0, 5)),
     RotationLimit.mk (Some (0, 0, -150)) (Some (0, 0, 0))).

(** [switch (t) { case ..: return ..; } throw new Error(..)] *)
Definition getDefaultRotationLimitSet (t : AvatarType)
    : Completion RotationLimitSet.t :=
  if String.eqb t AvatarTypeVrmV0 then Normal RotationLimitSetVrmV0
  else if String.eqb t AvatarTypeVrmV1 then Normal RotationLimitSetVrmV1
  else if String.eqb t AvatarTypeReadyPlayerMe then Normal RotationLimitSetRpm
  else Throw ("unknown avatar type: " ++ t).

Definition WristRotationOffsetSetVrmV0 : WristRotationOffsetSet.t :=
  WristRotationOffsetSet.mk (110, 0, 70) (110, 0, -70).
Definition WristRotationOffsetSetVrmV1 : WristRotationOffsetSet.t :=
  WristRotationOffsetSet.mk (-85, 28, 57) (-85, -28, -57).
Definition WristRotationOffsetSetRpm : WristRotationOffsetSet.t :=
  WristRotationOffsetSet.mk (-90, 90, 20) (-90, -90, 20).

Definition getDefaultWristRotationOffsetSet (t : AvatarType)
    : Completion WristRotationOffsetSet.t :=
  if String.eqb t AvatarTypeVrmV0 then Normal WristRotationOffsetSetVrmV0
  else if String.eqb t AvatarTypeVrmV1 then Normal WristRotationOffsetSetVrmV1
  else if String.eqb t AvatarTypeReadyPlayerMe then Normal WristRotationOffsetSetRpm
  else Throw ("unknown avatar type: " ++ t).

(** [RotationLimitHeadSync] *)
Module RotationLimitHeadSync.
Definition x_min : R := -0.6.
Definition x_max : R := 0.6.
Definition y_min : R := -0.6.
Definition y_max : R := 0.6.
Definition z_min : R := 0.
Definition z_max : R := 0.
End RotationLimitHeadSync.

(** ** JavaScript arrays of numbers *)

(** An element is [None] where the array has a hole or [undefined]. *)
Abbreviation JsArray := (list (option R)).

(** [new Array(n)] *)
Definition JsArray_new (n : nat) : JsArray := replicate n None.

(** [array[i] = v]: writing past the end lengthens the array. *)
Definition JsArray_set (array : JsArray) (i : nat) (v : R) : JsArray :=
  if decide (i < length array)%nat then <[i := Some v]> array
  else array ++ replicate (i - length array) None ++ [Some v].

(** [array[i]] *)
Definition JsArray_get (array : JsArray) (i : nat) : option R :=
  match array !! i with
  | Some v => v
  | None => None
  end.

(** [q.toArray(array, offset)] *)
Definition Quaternion_toArray (q : Quaternion.t) (array : JsArray)
    (offset : nat) : JsArray :=
  let array := JsArray_set array offset (Quaternion.x q) in
  let array := JsArray_set array (offset + 1) (Quaternion.y q) in
  let array := JsArray_set array (offset + 2) (Quaternion.z q) in
  JsArray_set array (offset + 3) (Quaternion.w q).

(** [q.fromArray(array, offset)].  A component read as [undefined] is no
    number: the result is [None] then. *)
Definition Quaternion_fromArray (array : JsArray) (offset : nat)
    : option Quaternion.t :=
  match JsArray_get array offset, JsArray_get array (offset + 1),
        JsArray_get array (offset + 2), JsArray_get array (offset + 3) with
  | Some x, Some y, Some z, Some w => Some (Quaternion.mk x y z w)
  | _, _, _, _ => None
  end.

(** ** [Avatar] *)

(** Of a VRM, [meta?.metaVersion] and whether it has an
    [expressionManager]. *)
Module VRM.
Record t : Type := mk {
  meta_metaVersion : option string;
  expressionManager : bool }.
End VRM.

(** Of the face mesh of a Ready Player Me avatar, the two morph target
    properties; either may be [undefined]. *)
Module FaceMesh.
Record t : Type := mk {
  morphTargetDictionary : option (gmap string nat);
  morphTargetInfluences : option JsArray }.
Definition with_morphTargetInfluences (influences : JsArray) (mesh : t) : t :=
  mk (morphTargetDictionary mesh) (Some influences).
End FaceMesh.

Module Avatar.

(** The fields of an [Avatar] that the methods below read or write. *)
Record t : Type := mk {
  _object3D : ObjId;
  _headBone : ObjId;
  _leftArmBones : IKTargetBones;
  _rightArmBones : IKTargetBones;
  _vrm : option VRM.t;
  _faceMesh : option FaceMesh.t;
  _syncBonesBuffer : option JsArray;
  _syncTargetBones : list ObjId }.

Definition with_syncBonesBuffer (buffer : option JsArray) (a : t) : t :=
  mk (_object3D a) (_headBone a) (_leftArmBones a) (_rightArmBones a)
     (_vrm a) (_faceMesh a) buffer (_syncTargetBones a).
Definition with_faceMesh (mesh : FaceMesh.t) (a : t) : t :=
  mk (_object3D a) (_headBone a) (_leftArmBones a) (_rightArmBones a)
     (_vrm a) (Some mesh) (_syncBonesBuffer a) (_syncTargetBones a).

End Avatar.

(** [this._vrm?.meta?.metaVersion !== "0"] *)
Definition metaVersion_is_not_0 (vrm : VRM.t) : bool :=
  negb (bool_decide (VRM.meta_metaVersion vrm = Some "0"%string)).

(** [get type()] *)
Definition Avatar_type (a : Avatar.t) : AvatarType :=
  match Avatar._vrm a with
  | Some vrm =>
      if metaVersion_is_not_0 vrm then AvatarTypeVrmV1 else AvatarTypeVrmV0
  | None => AvatarTypeReadyPlayerMe
  end.

(** [_eulerForAvatar(e)], an Euler triple as a vector *)
Definition _eulerForAvatar (a : Avatar.t) (e : Vector3.t) : Vector3.t :=
  match Avatar._vrm a with
  | None => e
  | Some vrm =>
      if metaVersion_is_not_0 vrm then e
      else Vector3.mk (Vector3.x e * -1) (Vector3.y e) (Vector3.z e * -1)
  end.

(** [headSync(rotation)]: the angles the head bone is given. *)
Definition headEuler (a : Avatar.t) (rotation : Vector3.t) : Vector3.t :=
  let x := Vector3.x rotation * -1 in
  let y := Vector3.y rotation in
  let z := Vector3.z rotation * -1 in
  let x := Rmin RotationLimitHeadSync.x_max (Rmax RotationLimitHeadSync.x_min x) in
  let y := Rmin RotationLimitHeadSync.y_max (Rmax RotationLimitHeadSync.y_min y) in
  let z := Rmin RotationLimitHeadSync.z_max (Rmax RotationLimitHeadSync.z_min z) in
  _eulerForAvatar a (Vector3.mk x y z).

(** [headSync(rotation)].  Assigning [bone.rotation] sets [bone.quaternion]
    from the angles, in the order XYZ of a fresh Euler. *)
Definition headSync (a : Avatar.t) (rotation : Vector3.t) (st : Scene) : Scene :=
  set_quaternion (Avatar._headBone a)
    (Quaternion.setFromEuler (headEuler a rotation)) st.

(** The loop of [getHeadHeight()]: [while (v && v !== root) { y +=
    v.position.y; v = v.parent; }], at most [fuel] tests of the condition.
    The result is [None] when the tests run out. *)
Fixpoint getHeadHeight_loop (fuel : nat) (st : Scene) (root : ObjId)
    (v : option ObjId) (y : R) : option R :=
  match fuel with
  | O => None
  | S fuel' =>
      match v with
      | Some v =>
          if decide (v = root) then Some y
          else getHeadHeight_loop fuel' st root (Object3D.parent (st !!! v))
                 (y + Vector3.y (Object3D.position (st !!! v)))
      | None => Some y
      end
  end.

(** [getHeadHeight()] *)
Definition getHeadHeight (fuel : nat) (a : Avatar.t) (st : Scene) : option R :=
  getHeadHeight_loop fuel st (Avatar._object3D a) (Some (Avatar._headBone a)) 0.

(** The loop of [getSyncBonesData()] *)
Fixpoint getSyncBonesData_loop (bones : list ObjId) (i : nat)
    (buffer : JsArray) (st : Scene) : JsArray :=
  match bones with
  | [] => buffer
  | bone :: bones' =>
      getSyncBonesData_loop bones' (i + 4)
        (Quaternion_toArray (Object3D.quaternion (st !!! bone)) buffer i) st
  end.

(** [getSyncBonesData()]: the array returned is the buffer of the avatar
    itself, made on the first call and written again by every later one. *)
Definition getSyncBonesData (a : Avatar.t) (st : Scene) : Avatar.t * JsArray :=
  let bones := Avatar._syncTargetBones a in
  let buffer :=
    match Avatar._syncBonesBuffer a with
    | Some buffer => buffer
    | None => JsArray_new (length bones * 4)
    end in
  let buffer := getSyncBonesData_loop bones 0 buffer st in
  (Avatar.with_syncBonesBuffer (Some buffer) a, buffer).

(** The loop of [setSyncBonesData()]; [None] as soon as a quaternion would
    take an [undefined] component. *)
Fixpoint setSyncBonesData_loop (bones : list ObjId) (i : nat)
    (syncBonesData : JsArray) (st : Scene) : option Scene :=
  match bones with
  | [] => Some st
  | bone :: bones' =>
      match Quaternion_fromArray syncBonesData i with
      | Some q =>
          setSyncBonesData_loop bones' (i + 4) syncBonesData
            (set_quaternion bone q st)
      | None => None
      end
  end.

(** [setSyncBonesData(syncBonesData)] *)
Definition setSyncBonesData (a : Avatar.t) (syncBonesData : JsArray)
    (st : Scene) : option Scene :=
  setSyncBonesData_loop (Avatar._syncTargetBones a) 0 syncBonesData st.

(** ** Facial expressions *)

(** A call [expressionManager.setValue(name, weight)] made on the VRM. *)
Definition SetValue : Type := (string * R)%type.

(** [if (idx)] on an index read from a dictionary: neither [undefined]
    nor 0. *)
Definition truthy_index (idx : option nat) : option nat :=
  match idx with
  | Some O => None
  | Some (S n) => Some (S n)
  | None => None
  end.

(** [if (idx) { influences[idx] = v; }] *)
Definition set_if_truthy (idx : option nat) (v : R) (influences : JsArray)
    : JsArray :=
  match truthy_index idx with
  | Some i => JsArray_set influences i v
  | None => influences
  end.

(** [dictionary?.key] *)
Definition dictionary_get (dictionary : option (gmap string nat))
    (key : string) : option nat :=
  match dictionary with
  | Some d => d !! key
  | None => None
  end.

(** [lipSync(kiss, lipsClosed, jaw)]: the avatar after the call and the
    calls made on the expression manager of the VRM. *)
Definition lipSync (a : Avatar.t) (kiss lipsClosed jaw : R)
    : Avatar.t * list SetValue :=
  match Avatar._vrm a with
  | Some vrm =>
      if VRM.expressionManager vrm then
        (a, [("ou"%string, kiss); ("ih"%string, lipsClosed); ("aa"%string, jaw)])
      else (a, [])
  | None =>
      match Avatar._faceMesh a with
      | Some head =>
          let idxKiss :=
            dictionary_get (FaceMesh.morphTargetDictionary head) "viseme_U" in
          let idxLipsClosed :=
            dictionary_get (FaceMesh.morphTargetDictionary head) "mouthClose" in
          let idxJawOpen :=
            dictionary_get (FaceMesh.morphTargetDictionary head) "jawOpen" in
          match FaceMesh.morphTargetInfluences head with
          | Some influences =>
              let influences := set_if_truthy idxKiss kiss influences in
              let influences := set_if_truthy idxLipsClosed lipsClosed influences in
              let influences := set_if_truthy idxJawOpen jaw influences in
              (Avatar.with_faceMesh
                 (FaceMesh.with_morphTargetInfluences influences head) a, [])
          | None => (a, [])
          end
      | None => (a, [])
      end
  end.

(** [setFaceExpression(name, value = 1.0)] *)
Definition setFaceExpression (a : Avatar.t) (name : string) (value : option R)
    : Avatar.t * list SetValue :=
  let value := default 1 value in
  let value :=
    if Rlt_dec value 0 then 0 else if Rlt_dec 1 value then 1 else value in
  match Avatar._vrm a with
  | Some vrm =>
      if VRM.expressionManager vrm then (a, [(name, value)]) else (a, [])
  | None =>
      match Avatar._faceMesh a with
      | Some mesh =>
          match FaceMesh.morphTargetDictionary mesh,
                FaceMesh.morphTargetInfluences mesh with
          | Some mtd, Some mti =>
              match mtd !! name with
              | Some idx =>
                  (Avatar.with_faceMesh
                     (FaceMesh.with_morphTargetInfluences
                        (JsArray_set mti idx value) mesh) a, [])
              | None => (a, [])
              end
          | _, _ => (a, [])
          end
      | None => (a, [])
      end
  end.

(** ** [AutoWalker] *)

Module AutoWalker.

Record t : Type := mk {
  _isWalking : bool;
  _walkCheckTimer : R;
  _object3D : option ObjId;
  _lastPosition : option Vector3.t }.

(** [new AutoWalker()] *)
Definition new : t := mk false 0 None None.

Definition with_isWalking (v : bool) (w : t) : t :=
  mk v (_walkCheckTimer w) (_object3D w) (_lastPosition w).
Definition with_walkCheckTimer (v : R) (w : t) : t :=
  mk (_isWalking w) v (_object3D w) (_lastPosition w).
Definition with_lastPosition (v : Vector3.t) (w : t) : t :=
  mk (_isWalking w) (_walkCheckTimer w) (_object3D w) (Some v).

(** [setup(avatar)] *)
Definition setup (avatar : Avatar.t) (w : t) : t :=
  mk (_isWalking w) (_walkCheckTimer w) (Some (Avatar._object3D avatar))
     (_lastPosition w).

End AutoWalker.

(** [Math.abs(last.x - pos.x) > 0.05 || Math.abs(last.z - pos.z) > 0.05] *)
Definition has_moved (last pos : Vector3.t) : bool :=
  (if Rgt_dec (Rabs (Vector3.x last - Vector3.x pos)) 0.05 then true else false)
  || (if Rgt_dec (Rabs (Vector3.z last - Vector3.z pos)) 0.05 then true else false).

(** [tick(dt)] of an [AutoWalker]: the walker after the call and the clip
    it asks the avatar to play, if any.  [visible] is [object3D.visible]
    at the call. *)
Definition AutoWalker_tick {three : Three} (w : AutoWalker.t) (dt : R)
    (visible : bool) (st : Scene) : AutoWalker.t * option string :=
  match AutoWalker._object3D w with
  | None => (w, None)
  | Some object3D =>
      if negb visible then (w, None)
      else
        let newPos := getWorldPosition st object3D in
        match AutoWalker._lastPosition w with
        | None => (AutoWalker.with_lastPosition newPos w, None)
        | Some last =>
            if has_moved last newPos then
              let w := AutoWalker.with_lastPosition newPos w in
              if negb (AutoWalker._isWalking w) then
                (AutoWalker.with_walkCheckTimer 0
                   (AutoWalker.with_isWalking true w), Some "walk"%string)
              else (AutoWalker.with_walkCheckTimer 0 w, None)
            else if AutoWalker._isWalking w then
              let w :=
                AutoWalker.with_walkCheckTimer
                  (AutoWalker._walkCheckTimer w + dt) w in
              if Rgt_dec (AutoWalker._walkCheckTimer w) 0.3 then
                (AutoWalker.with_isWalking false w, Some "idle"%string)
              else (w, None)
            else (w, None)
        end
  end.

(** A walker driven through a sequence of ticks, each with its time step,
    the visibility of the object and the scene; the clips asked for, in
    order. *)
Fixpoint AutoWalker_run {three : Three} (w : AutoWalker.t)
    (frames : list (R * bool * Scene)) : AutoWalker.t * list string :=
  match frames with
  | [] => (w, [])
  | (dt, visible, st) :: frames' =>
      let '(w1, clip) := AutoWalker_tick w dt visible st in
      let '(w2, clips) := AutoWalker_run w1 frames' in
      (w2, match clip with Some c => c :: clips | None => clips end)
  end.

(** Clips that alternate between "walk" and "idle"; [walking] tells which
    was asked for last. *)
Fixpoint alternates (walking : bool) (clips : list string) : Prop :=
  match clips with
  | [] => True
  | c :: clips' =>
      c = (if walking then "idle" else "walk")%string
      /\ alternates (negb walking) clips'
  end.

(** ** [createAvatarIK] *)

Module CreateAvatarIKOptions.
Record t : Type := mk {
  rotationLimitSet : RotationLimitSet.t;
  wristRotationOffsetSet : WristRotationOffsetSet.t;
  intervalSec : option R;
  isDebug : option bool }.
End CreateAvatarIKOptions.

(** [createAvatarIK(avatar, handGetter, option)]; [person_skeleton] is the
    [skeleton] of [avatar.object3D] on entry.  The arguments of [new
    AvatarIK] are evaluated from left to right, the defaults only where
    [option] gives none. *)
Definition createAvatarIK {three : Three} (avatar : Avatar.t)
    (person_skeleton : option Skeleton.t) (handGetter : VRHandGetter.t)
    (option : option CreateAvatarIKOptions.t) (st : Scene)
    : Completion (AvatarIK.t * Skeleton.t * Scene) :=
  Completion_bind
    (match option with
     | Some o => Normal (CreateAvatarIKOptions.rotationLimitSet o)
     | None => getDefaultRotationLimitSet (Avatar_type avatar)
     end)
    (fun rotationLimitSet =>
  Completion_bind
    (match option with
     | Some o => Normal (CreateAvatarIKOptions.wristRotationOffsetSet o)
     | None => getDefaultWristRotationOffsetSet (Avatar_type avatar)
     end)
    (fun wristRotationOffsetSet =>
  Normal
    (AvatarIK_new (Avatar._object3D avatar) person_skeleton
       (Avatar._rightArmBones avatar) (Avatar._leftArmBones avatar)
       rotationLimitSet handGetter wristRotationOffsetSet
       (Some (Options.mk
                (Some (match option with
                       | Some o => default false (CreateAvatarIKOptions.isDebug o)
                       | None => false
                       end))
                (match option with
                 | Some o => CreateAvatarIKOptions.intervalSec o
                 | None => None
                 end)))
       st))).

(** ** Chains and mappings *)

(** The chain and the mapping of one arm go together: the target the
    solver pulls the chain towards is the object the mapping places. *)
Definition paired (bs : list ObjId) (ik : IK.t) (m : VRMapping.t) : Prop :=
  target_bone bs ik = Some (VRMapping.ikTarget m).

(** ** Further notions about three.js *)


(** Refreshing world matrices renames no object. *)
Definition updateMatrixWorld_keeps_names (T : Three) : Prop :=
  forall (o b : ObjId) (st : Scene),
    Object3D.name (updateMatrixWorld o st !!! b) = Object3D.name (st !!! b).

(** ** Well-formed limits *)

(** A link has both limits, the lower one below the upper one on every
    axis. *)
Definition limit_ordered (l : IKLink.t) : Prop :=
  match IKLink.rotationMin l, IKLink.rotationMax l with
  | Some lo, Some hi =>
      Vector3.x lo <= Vector3.x hi
      /\ Vector3.y lo <= Vector3.y hi
      /\ Vector3.z lo <= Vector3.z hi
  | _, _ => False
  end.

(** The same of a limit in degrees. *)
Definition degrees_ordered (limit : RotationLimit.t) : Prop :=
  match RotationLimit.rotationMin limit, RotationLimit.rotationMax limit with
  | Some (lo0, lo1, lo2), Some (hi0, hi1, hi2) =>
      lo0 <= hi0 /\ lo1 <= hi1 /\ lo2 <= hi2
  | _, _ => False
  end.

Definition set_ordered (set : RotationLimitSet.t) : Prop :=
  degrees_ordered (fst (RotationLimitSet.leftArm set))
  /\ degrees_ordered (snd (RotationLimitSet.leftArm set))
  /\ degrees_ordered (fst (RotationLimitSet.rightArm set))
  /\ degrees_ordered (snd (RotationLimitSet.rightArm set)).

(** ** Reading bone data *)

(** [x, y, z, w] *)
Definition components (q : Quaternion.t) : list R :=
  [Quaternion.x q; Quaternion.y q; Quaternion.z q; Quaternion.w q].

(** The rotations of [bones] in a scene, four numbers each. *)
Definition bones_data (bones : list ObjId) (st : Scene) : JsArray :=
  Some <$> flat_map (fun bone => components (Object3D.quaternion (st !!! bone)))
                    bones.

(** The objects whose [position.y] the loop of [getHeadHeight] adds, from
    [v] on: each is not [root], and the loop ends above the last one, at
    [root] or where there is no parent. *)
Fixpoint climbs (st : Scene) (root : ObjId) (v : option ObjId)
    (path : list ObjId) : Prop :=
  match path with
  | [] => v = None \/ v = Some root
  | b :: path' =>
      v = Some b /\ b <> root
      /\ climbs st root (Object3D.parent (st !!! b)) path'
  end.

Definition sum_y (st : Scene) (path : list ObjId) : R :=
  foldr (fun b acc => Vector3.y (Object3D.position (st !!! b)) + acc) 0 path.

(** ** An avatar on the demonstration scene *)

(** The scene with a spine: hips under the root, the head above them. *)
Definition body_scene : Scene :=
  <[20%nat := at_position "Hips" (Some 10%nat) 0 1 0]>
  (<[21%nat := at_position "Head" (Some 20%nat) 0 (1/2) 0]> demo_scene).

(** A Ready Player Me avatar with the left arm only, as its constructor
    leaves it: no buffer yet, the head and the bones of the arm to
    synchronise. *)
Definition demo_avatar : Avatar.t :=
  Avatar.mk 10%nat 21%nat (Some 0%nat, Some 1%nat, Some 2%nat)
            (None, None, None) None None None
            [21%nat; 0%nat; 1%nat; 2%nat].

(** The same avatar with a face mesh whose first morph target is
    [viseme_U]. *)
Definition face_avatar : Avatar.t :=
  Avatar.with_faceMesh
    (FaceMesh.mk (Some (<["viseme_U"%string := 0%nat]> ∅))
                 (Some [Some (1/4); Some 0]))
    demo_avatar.

(** ** A firing tick, arm by arm *)








(** ** The reach clamp on doubles *)

(** Lines 336-338 and 349-372 of src/avatar-ik.ts once more, on the
    binary64 numbers a JavaScript engine computes with: the seed of the
    constructor, the two maxima and the world position an update
    chooses. *)
Module Float64.

Import PrimFloat.
#[local] Open Scope float_scope.

Record Vector3 : Type := mk { x : float; y : float; z : float }.

(** [this.distanceToSquared(v)], [this.distanceTo(v)], [this.lerp(v, alpha)] *)
Definition distanceToSquared (this v : Vector3) : float :=
  let dx := x this - x v in
  let dy := y this - y v in
  let dz := z this - z v in
  dx * dx + dy * dy + dz * dz.

Definition distanceTo (this v : Vector3) : float :=
  sqrt (distanceToSquared this v).

Definition lerp (this v : Vector3) (alpha : float) : Vector3 :=
  mk (x this + (x v - x this) * alpha)
     (y this + (y v - y this) * alpha)
     (z this + (z v - z this) * alpha).

(** [if (max < v) { max = v; }] *)
Definition raise (max v : float) : float := if max <? v then v else max.

(** The maxima a fresh mapping has: the squared rest distance, and 0. *)
Definition seed (shoulderPos wristPos : Vector3) : float * float :=
  (distanceToSquared shoulderPos wristPos, 0).

(** The maxima after an update and the world position it chooses. *)
Definition update (maxima : float * float)
    (shoulderPos wristPos controllerPos : Vector3) : float * float * Vector3 :=
  let v := distanceToSquared shoulderPos wristPos in
  let maxDistanceSquared := raise (fst maxima) v in
  let shoulderToControllderDistanceSquared :=
    distanceToSquared shoulderPos controllerPos in
  let maxShoulderToControllderDistanceSquared :=
    raise (snd maxima) shoulderToControllderDistanceSquared in
  if maxDistanceSquared <? shoulderToControllderDistanceSquared then
    let alpha :=
      sqrt (maxDistanceSquared / maxShoulderToControllderDistanceSquared) in
    (maxDistanceSquared, maxShoulderToControllderDistanceSquared,
     lerp shoulderPos controllerPos alpha)
  else
    (maxDistanceSquared, maxShoulderToControllderDistanceSquared, controllerPos).

(** A shoulder at the origin, the wrist 0.3 and the controller 3 along x. *)
Definition shoulder : Vector3 := mk 0 0 0.
Definition wrist : Vector3 := mk (3 / 10) 0 0.
Definition controller : Vector3 := mk 3 0 0.

(** The first update of a mapping made in that pose, the pose unchanged. *)
Definition first_update : float * float * Vector3 :=
  update (seed shoulder wrist) shoulder wrist controller.

(** The distance of the controller and ten rest distances; the reach
    after the update and the distance of the position it chooses. *)
Definition controller_distance : float := distanceTo shoulder controller.
Definition ten_rest_distances : float := 10 * distanceTo shoulder wrist.
Definition reach : float := sqrt (fst (fst first_update)).
Definition target_distance : float := distanceTo shoulder (snd first_update).

End Float64.

(** ** Further scenes *)

(** An arm at rest folded, the hand next to the shoulder; and the same arm
    stretched towards a controller that is ten rest distances away. *)
Definition folded_scene : Scene :=
  <[0%nat := at_position "LeftArm" (Some 10%nat) 0 0 0]>
  (<[1%nat := at_position "LeftForeArm" (Some 0%nat) (3/10) 0 0]>
  (<[2%nat := at_position "LeftHand" (Some 1%nat) (1/20) 0 0]>
  (<[3%nat := at_position "controller" None (1/2) 0 0]>
  (<[4%nat := at_position "target" (Some 10%nat) (1/20) 0 0]>
  (<[10%nat := at_position "avatar" None 0 0 0]> ∅))))).

Definition stretched_scene : Scene :=
  <[2%nat := at_position "LeftHand" (Some 1%nat) (3/5) 0 0]> folded_scene.





(** ** Properties *)

Section Properties.

Context {three : Three}.

Lemma raise_ge (max v : R) : max <= raise max v.
Proof. unfold raise. destruct (Rlt_dec max v); lra. Qed.

Lemma raise_ge_r (max v : R) : v <= raise max v.
Proof. unfold raise. destruct (Rlt_dec max v); lra. Qed.

Lemma distanceToSquared_nonneg (a b : Vector3.t) :
  0 <= Vector3.distanceToSquared a b.
Proof.
  unfold Vector3.distanceToSquared. cbv zeta.
  pose proof (Rle_0_sqr (Vector3.x a - Vector3.x b)).
  pose proof (Rle_0_sqr (Vector3.y a - Vector3.y b)).
  pose proof (Rle_0_sqr (Vector3.z a - Vector3.z b)).
  unfold Rsqr in *. lra.
Qed.

Lemma mapVRAvatar_fst (m : VRMapping.t) (st : Scene) :
  fst (mapVRAvatar m st) =
    match VRMapping.getVrHand m st with
    | Some vrHand => raiseMaxima m vrHand st
    | None => m
    end.
Proof.
  unfold mapVRAvatar. destruct (VRMapping.getVrHand m st) as [h|]; [|reflexivity].
  destruct (Object3D.parent (st !!! VRMapping.ikTarget m)); [|reflexivity].
  destruct (Object3D.parent _); reflexivity.
Qed.

Lemma mapVRAvatar_maxima (m : VRMapping.t) (st : Scene) :
  VRMapping.maxDistanceSquared m
    <= VRMapping.maxDistanceSquared (fst (mapVRAvatar m st))
  /\ VRMapping.maxShoulderToControllderDistanceSquared m
    <= VRMapping.maxShoulderToControllderDistanceSquared (fst (mapVRAvatar m st)).
Proof.
  rewrite mapVRAvatar_fst.
  destruct (VRMapping.getVrHand m st) as [h|]; simpl.
  - split; apply raise_ge.
  - split; lra.
Qed.

Lemma same_bindings_refl (m : VRMapping.t) : same_bindings m m.
Proof. repeat split. Qed.

Lemma same_bindings_trans (m1 m2 m3 : VRMapping.t) :
  same_bindings m1 m2 -> same_bindings m2 m3 -> same_bindings m1 m3.
Proof.
  unfold same_bindings. intros (?&?&?&?&?&?&?&?) (?&?&?&?&?&?&?&?).
  repeat split; congruence.
Qed.

Lemma mapVRAvatar_bindings (m : VRMapping.t) (st : Scene) :
  same_bindings m (fst (mapVRAvatar m st)).
Proof.
  rewrite mapVRAvatar_fst.
  destruct (VRMapping.getVrHand m st); repeat split.
Qed.

Lemma mapVRAvatar_seq_bindings (frames : list Scene) (m : VRMapping.t) :
  same_bindings m (mapVRAvatar_seq m frames).
Proof.
  revert m. induction frames as [|st frames IH]; intros m; simpl.
  - apply same_bindings_refl.
  - eapply same_bindings_trans; [apply mapVRAvatar_bindings | apply IH].
Qed.

Lemma mapVRAvatar_seq_app (frames1 frames2 : list Scene) (m : VRMapping.t) :
  mapVRAvatar_seq m (frames1 ++ frames2)
  = mapVRAvatar_seq (mapVRAvatar_seq m frames1) frames2.
Proof.
  revert m. induction frames1 as [|st frames1 IH]; intros m; simpl; [reflexivity|].
  apply IH.
Qed.

Lemma mapVRAvatar_seq_maxima (frames : list Scene) (m : VRMapping.t) :
  VRMapping.maxDistanceSquared m
    <= VRMapping.maxDistanceSquared (mapVRAvatar_seq m frames)
  /\ VRMapping.maxShoulderToControllderDistanceSquared m
    <= VRMapping.maxShoulderToControllderDistanceSquared (mapVRAvatar_seq m frames).
Proof.
  revert m. induction frames as [|st frames IH]; intros m; simpl.
  - split; lra.
  - destruct (mapVRAvatar_maxima m st) as [H1 H2].
    destruct (IH (fst (mapVRAvatar m st))) as [H3 H4].
    split; lra.
Qed.

(** C2. Along any sequence of [mapVRAvatar] calls, whatever the scenes the
    calls see, [maxDistanceSquared] and
    [maxShoulderToControllderDistanceSquared] never decrease: their
    values after a longer run are at least those after any prefix of it,
    in particular after one more call. *)
Theorem maxima_never_decrease (m : VRMapping.t) (frames later : list Scene) :
  VRMapping.maxDistanceSquared (mapVRAvatar_seq m frames)
    <= VRMapping.maxDistanceSquared (mapVRAvatar_seq m (frames ++ later))
  /\ VRMapping.maxShoulderToControllderDistanceSquared (mapVRAvatar_seq m frames)
    <= VRMapping.maxShoulderToControllderDistanceSquared
         (mapVRAvatar_seq m (frames ++ later)).
Proof.
  rewrite mapVRAvatar_seq_app. apply mapVRAvatar_seq_maxima.
Qed.

(** *** Reads after writes in the store *)

Lemma set_position_eq (o : ObjId) (v : Vector3.t) (st : Scene) :
  Object3D.position (set_position o v st !!! o) = v.
Proof. unfold set_position. rewrite lookup_total_insert_eq. reflexivity. Qed.

Lemma set_position_ne (o o' : ObjId) (v : Vector3.t) (st : Scene) :
  o' <> o -> set_position o v st !!! o' = st !!! o'.
Proof. intros Hne. unfold set_position. by rewrite lookup_total_insert_ne. Qed.


Lemma set_quaternion_eq (o : ObjId) (q : Quaternion.t) (st : Scene) :
  Object3D.quaternion (set_quaternion o q st !!! o) = q.
Proof. unfold set_quaternion. rewrite lookup_total_insert_eq. reflexivity. Qed.

Lemma set_quaternion_ne (o o' : ObjId) (q : Quaternion.t) (st : Scene) :
  o' <> o -> set_quaternion o q st !!! o' = st !!! o'.
Proof. intros Hne. unfold set_quaternion. by rewrite lookup_total_insert_ne. Qed.

Lemma set_quaternion_position (o o' : ObjId) (q : Quaternion.t) (st : Scene) :
  Object3D.position (set_quaternion o q st !!! o')
  = Object3D.position (st !!! o').
Proof.
  unfold set_quaternion. destruct (decide (o' = o)) as [->|Hne].
  - rewrite lookup_total_insert_eq. reflexivity.
  - by rewrite lookup_total_insert_ne.
Qed.

(** *** The reach clamp *)

Lemma lerp_distanceToSquared (a b : Vector3.t) (t : R) :
  Vector3.distanceToSquared a (Vector3.lerp a b t)
  = t * t * Vector3.distanceToSquared a b.
Proof. unfold Vector3.distanceToSquared, Vector3.lerp. simpl. ring. Qed.

Lemma lerp_one (a b : Vector3.t) : Vector3.lerp a b 1 = b.
Proof.
  destruct a, b. unfold Vector3.lerp. simpl. f_equal; ring.
Qed.

Lemma raise_zero (s : R) : 0 <= s -> raise 0 s = s.
Proof. intros Hs. unfold raise. destruct (Rlt_dec 0 s); lra. Qed.

Lemma raise_same (v : R) : raise v v = v.
Proof. unfold raise. destruct (Rlt_dec v v); lra. Qed.

(** The position [mapVRAvatar] writes into a target that has a parent. *)
Lemma mapVRAvatar_target_position (m : VRMapping.t) (st : Scene)
    (vrHand targetParent : ObjId) :
  VRMapping.getVrHand m st = Some vrHand ->
  Object3D.parent (st !!! VRMapping.ikTarget m) = Some targetParent ->
  Object3D.position (snd (mapVRAvatar m st) !!! VRMapping.ikTarget m)
  = Vector3.applyMatrix4
      (ikTargetWorld (raiseMaxima m vrHand st)
         (getWorldPosition st (VRMapping.shoulderBone m))
         (getWorldPosition st vrHand))
      (Matrix4.invert (Object3D.matrixWorld (st !!! targetParent))).
Proof.
  intros Hh Hp. unfold mapVRAvatar. rewrite Hh, Hp.
  destruct (Object3D.parent (set_position _ _ _ !!! _)) as [wp|]; simpl.
  - rewrite set_quaternion_position. apply set_position_eq.
  - apply set_position_eq.
Qed.

Lemma VRMapping_new_seq_reach_nonneg
    (vrPerson : ObjId) (getVrHand : Scene -> option ObjId)
    (ikTarget wristBone shoulderBone : ObjId)
    (wristRotationOffset : option Quaternion.t)
    (st0 : Scene) (frames : list Scene) :
  0 <= VRMapping.maxDistanceSquared
         (mapVRAvatar_seq
            (VRMapping_new vrPerson getVrHand ikTarget wristBone shoulderBone
                           wristRotationOffset st0) frames).
Proof.
  eapply Rle_trans; [|apply mapVRAvatar_seq_maxima].
  simpl. apply distanceToSquared_nonneg.
Qed.

(** C5. For a mapping in any state it can reach from its construction,
    whenever an update takes the clamp branch (the squared distance from
    shoulder to controller exceeds [maxDistanceSquared]), the divisor
    [maxShoulderToControllderDistanceSquared] is positive there and the
    ratio under the square root lies in [0, 1): [alpha] is a number of
    [0, 1) and the target is the interpolation it defines. *)
Theorem clamp_divisor_positive
    (vrPerson : ObjId) (getVrHand : Scene -> option ObjId)
    (ikTarget wristBone shoulderBone : ObjId)
    (wristRotationOffset : option Quaternion.t)
    (st0 : Scene) (frames : list Scene) (st : Scene) (vrHand : ObjId) :
  let m := mapVRAvatar_seq
             (VRMapping_new vrPerson getVrHand ikTarget wristBone shoulderBone
                            wristRotationOffset st0) frames in
  let shoulderPos := getWorldPosition st shoulderBone in
  let controllerPos := getWorldPosition st vrHand in
  let m' := fst (mapVRAvatar m st) in
  getVrHand st = Some vrHand ->
  Vector3.distanceToSquared shoulderPos controllerPos
    > VRMapping.maxDistanceSquared m' ->
  0 < VRMapping.maxShoulderToControllderDistanceSquared m'
  /\ 0 <= reachRatio m' < 1
  /\ 0 <= sqrt (reachRatio m') < 1
  /\ ikTargetWorld m' shoulderPos controllerPos
     = Vector3.lerp shoulderPos controllerPos (sqrt (reachRatio m')).
Proof.
  intros m shoulderPos controllerPos m' Hhand Hclamp.
  destruct (mapVRAvatar_seq_bindings frames
              (VRMapping_new vrPerson getVrHand ikTarget wristBone shoulderBone
                             wristRotationOffset st0))
    as (_ & Hget & _ & _ & _ & _ & _ & Hsh).
  fold m in Hget, Hsh. simpl in Hget, Hsh.
  assert (Hm' : m' = raiseMaxima m vrHand st).
  { unfold m'. rewrite mapVRAvatar_fst, Hget, Hhand. reflexivity. }
  set (s := Vector3.distanceToSquared shoulderPos controllerPos) in *.
  assert (HM0 : 0 <= VRMapping.maxDistanceSquared m)
    by apply VRMapping_new_seq_reach_nonneg.
  assert (HM : 0 <= VRMapping.maxDistanceSquared m').
  { rewrite Hm'. simpl. eapply Rle_trans; [exact HM0 | apply raise_ge]. }
  assert (HD : s <= VRMapping.maxShoulderToControllderDistanceSquared m').
  { rewrite Hm'. unfold raiseMaxima. simpl. rewrite Hsh.
    fold shoulderPos controllerPos s. apply raise_ge_r. }
  set (M := VRMapping.maxDistanceSquared m') in *.
  set (D := VRMapping.maxShoulderToControllderDistanceSquared m') in *.
  assert (HDpos : 0 < D) by lra.
  assert (Hratio : 0 <= reachRatio m' < 1).
  { unfold reachRatio. fold M D. split.
    - apply Rmult_le_pos; [lra|]. apply Rlt_le, Rinv_0_lt_compat, HDpos.
    - apply Rmult_lt_reg_r with D; [exact HDpos|].
      unfold Rdiv. rewrite Rmult_assoc, Rinv_l by lra. lra. }
  split; [exact HDpos|]. split; [exact Hratio|]. split.
  - split; [apply sqrt_pos|].
    rewrite <- sqrt_1. apply sqrt_lt_1_alt. lra.
  - unfold ikTargetWorld. fold s M.
    destruct (Rgt_dec s M) as [_|Hn]; [reflexivity | contradiction].
Qed.

(** *** Reset *)


Lemma isOrigin_zero : Vector3.isOrigin (Vector3.mk 0 0 0) = true.
Proof.
  unfold Vector3.isOrigin. simpl.
  destruct (Req_dec_T 0 0) as [_|Hn]; [reflexivity | contradiction Hn; reflexivity].
Qed.

(** *** The tick scheduler *)

(** An instance has its solver from the constructor on, through every
    tick: only [dispose] deletes it. *)
Lemma AvatarIK_new_has_solver (target : ObjId)
    (person_skeleton : option Skeleton.t)
    (maybeRightArmBones maybeLeftArmBones : IKTargetBones)
    (rotationLimitSet : RotationLimitSet.t) (vrHandGetter : VRHandGetter.t)
    (wristRotationOffsetSet : WristRotationOffsetSet.t)
    (options : option Options.t) (st : Scene) :
  is_Some (AvatarIK._solver
             (AvatarIK_new target person_skeleton maybeRightArmBones
                maybeLeftArmBones rotationLimitSet vrHandGetter
                wristRotationOffsetSet options st).1.1).
Proof.
  unfold AvatarIK_new.
  destruct (add_arm target "rightArmIK" _ _ _ _ _) as [[[iks ms] sk] st'].
  destruct (isDebug_of options); [destruct (add_helper target st')|];
    simpl; eexists; reflexivity.
Qed.

Lemma tick_keeps_solver (a : AvatarIK.t) (deltaTime : R) (st : Scene) :
  AvatarIK._solver (fst (tick a deltaTime st)) = AvatarIK._solver a.
Proof.
  unfold tick. destruct (Rlt_dec _ _); [reflexivity|]. simpl.
  destruct (AvatarIK._solver a) as [solver|] eqn:Hs; [|simpl; exact Hs].
  destruct (tick_loop solver 0 (AvatarIK._vrMappings a) st). simpl. exact Hs.
Qed.

Lemma tick_seq_keeps_solver (frames : list (R * Scene)) (a : AvatarIK.t) :
  AvatarIK._solver (tick_seq a frames) = AvatarIK._solver a.
Proof.
  revert a. induction frames as [|[dt st] frames IH]; intros a; simpl;
    [reflexivity|].
  by rewrite IH, tick_keeps_solver.
Qed.

(** The two branches of [tick], for an instance in any state. *)
Lemma tick_idle_or_fire (a : AvatarIK.t) (deltaTime : R) (st : Scene) :
  let sec := AvatarIK._sec a + deltaTime in
  (sec < AvatarIK._intervalSec a ->
     tick a deltaTime st = (AvatarIK.with_sec sec a, st))
  /\ (~ sec < AvatarIK._intervalSec a ->
       AvatarIK._sec (fst (tick a deltaTime st)) = 0
       /\ forall solver : CCDIKSolver.t,
            AvatarIK._solver a = Some solver ->
            tick a deltaTime st
            = (AvatarIK.with_vrMappings
                 (fst (tick_loop solver 0 (AvatarIK._vrMappings a) st))
                 (AvatarIK.with_sec 0 a),
               snd (tick_loop solver 0 (AvatarIK._vrMappings a) st))).
Proof.
  intros sec. unfold tick. fold sec. split.
  - intros Hlt.
    destruct (Rlt_dec sec (AvatarIK._intervalSec a)); [reflexivity | contradiction].
  - intros Hge.
    destruct (Rlt_dec sec (AvatarIK._intervalSec a)); [contradiction|].
    simpl. split.
    + destruct (AvatarIK._solver a) as [solver|]; [|reflexivity].
      destruct (tick_loop solver 0 (AvatarIK._vrMappings a) st). reflexivity.
    + intros solver ->.
      destruct (tick_loop solver 0 (AvatarIK._vrMappings a) st). reflexivity.
Qed.

(** The interval is the one of the options when they give one, 0 included,
    and 1/60 s otherwise. *)
Lemma intervalSec_of_options (options : option Options.t) :
  intervalSec_of options
  = match options with
    | Some o => default DEFAULT_INTERVAL_SEC (Options.intervalSec o)
    | None => DEFAULT_INTERVAL_SEC
    end.
Proof.
  unfold intervalSec_of. destruct options as [o|]; [|reflexivity].
  destruct (Options.intervalSec o) as [v|]; [|reflexivity]. simpl.
  unfold truthy, is_zero. destruct (Req_dec_T v 0); reflexivity.
Qed.

Lemma AvatarIK_new_timer (target : ObjId)
    (person_skeleton : option Skeleton.t)
    (maybeRightArmBones maybeLeftArmBones : IKTargetBones)
    (rotationLimitSet : RotationLimitSet.t) (vrHandGetter : VRHandGetter.t)
    (wristRotationOffsetSet : WristRotationOffsetSet.t)
    (options : option Options.t) (st : Scene) :
  let a := (AvatarIK_new target person_skeleton maybeRightArmBones
              maybeLeftArmBones rotationLimitSet vrHandGetter
              wristRotationOffsetSet options st).1.1 in
  AvatarIK._sec a = 0 /\ AvatarIK._intervalSec a = intervalSec_of options.
Proof.
  unfold AvatarIK_new.
  destruct (add_arm target "rightArmIK" _ _ _ _ _) as [[[iks ms] sk] st'].
  destruct (isDebug_of options); [destruct (add_helper target st')|];
    simpl; split; reflexivity.
Qed.

Lemma tick_keeps_interval (a : AvatarIK.t) (deltaTime : R) (st : Scene) :
  AvatarIK._intervalSec (fst (tick a deltaTime st)) = AvatarIK._intervalSec a.
Proof.
  unfold tick. destruct (Rlt_dec _ _); [reflexivity|]. simpl.
  destruct (AvatarIK._solver a) as [solver|]; [|reflexivity].
  destruct (tick_loop solver 0 (AvatarIK._vrMappings a) st). reflexivity.
Qed.

Lemma tick_seq_keeps_interval (frames : list (R * Scene)) (a : AvatarIK.t) :
  AvatarIK._intervalSec (tick_seq a frames) = AvatarIK._intervalSec a.
Proof.
  revert a. induction frames as [|[dt st] frames IH]; intros a; simpl;
    [reflexivity|].
  by rewrite IH, tick_keeps_interval.
Qed.

Lemma tick_loop_length (solver : CCDIKSolver.t) (ms : list VRMapping.t) :
  forall (i : nat) (st : Scene),
    length (fst (tick_loop solver i ms st)) = length ms.
Proof.
  induction ms as [|m ms IH]; intros i st; simpl; [reflexivity|].
  destruct (if controller_active m st then mapVRAvatar m st else (m, reset m st))
    as [m' st1].
  destruct (controller_active m st && mapVRAvatar_throws m st); [reflexivity|].
  specialize (IH (S i) (solver_update solver i st1)).
  destruct (tick_loop solver (S i) ms (solver_update solver i st1)).
  simpl in *. by rewrite IH.
Qed.

(** *** Disposal *)

Lemma tick_without_solver (a : AvatarIK.t) (deltaTime : R) (st : Scene) :
  AvatarIK._solver a = None ->
  tick a deltaTime st
  = (AvatarIK.with_sec
       (if Rlt_dec (AvatarIK._sec a + deltaTime) (AvatarIK._intervalSec a)
        then AvatarIK._sec a + deltaTime else 0) a, st).
Proof.
  intros Hs. unfold tick.
  destruct (Rlt_dec _ _); [reflexivity|]. simpl. rewrite Hs. reflexivity.
Qed.

Lemma tick_seq_without_solver (frames : list (R * Scene)) (a : AvatarIK.t) :
  AvatarIK._solver a = None ->
  AvatarIK._solver (tick_seq a frames) = None
  /\ AvatarIK._vrMappings (tick_seq a frames) = AvatarIK._vrMappings a
  /\ AvatarIK._helper (tick_seq a frames) = AvatarIK._helper a
  /\ AvatarIK._intervalSec (tick_seq a frames) = AvatarIK._intervalSec a.
Proof.
  revert a. induction frames as [|[dt st] frames IH]; intros a Hs; simpl.
  - repeat split. exact Hs.
  - rewrite (tick_without_solver a dt st Hs). simpl.
    destruct (IH (AvatarIK.with_sec
                    (if Rlt_dec (AvatarIK._sec a + dt) (AvatarIK._intervalSec a)
                     then AvatarIK._sec a + dt else 0) a) Hs)
      as (H1 & H2 & H3 & H4).
    repeat split; assumption.
Qed.

Lemma dispose_solver (a : AvatarIK.t) (st : Scene) :
  AvatarIK._solver (fst (dispose a st)) = None
  /\ AvatarIK._helper (fst (dispose a st)) = None.
Proof.
  unfold dispose. simpl. destruct (AvatarIK._helper a) eqn:E; simpl; split;
    first [reflexivity | exact E].
Qed.

(** C10. Once [dispose] has run, every later [tick], after any number of
    ticks in between, returns the scene it was given: no bone, target or
    wrist is written to, and of the instance only [_sec] changes.  A
    second [dispose] changes nothing more. *)
Theorem tick_after_dispose (a : AvatarIK.t) (st : Scene)
    (frames : list (R * Scene)) (deltaTime : R) (st' : Scene) :
  let disposed := tick_seq (fst (dispose a st)) frames in
  snd (tick disposed deltaTime st') = st'
  /\ (exists sec : R,
        fst (tick disposed deltaTime st') = AvatarIK.with_sec sec disposed)
  /\ dispose (fst (dispose a st)) (snd (dispose a st)) = dispose a st.
Proof.
  intros disposed.
  destruct (dispose_solver a st) as [Hsolver Hhelper].
  destruct (tick_seq_without_solver frames _ Hsolver) as (Hs & _).
  fold disposed in Hs.
  rewrite (tick_without_solver disposed deltaTime st' Hs). simpl.
  split; [reflexivity|]. split; [eexists; reflexivity|].
  unfold dispose at 1. simpl.
  rewrite Hhelper.
  unfold dispose. simpl. destruct (AvatarIK._helper a); reflexivity.
Qed.

(** *** The chain builder *)

Lemma findIndex_from_found {A : Type} `{EqDecision A} (b : A) (l : list A) :
  forall i : Z,
    b ∈ l ->
    (i <= findIndex_from (fun v => bool_decide (v = b)) l i)%Z
    /\ l !! Z.to_nat (findIndex_from (fun v => bool_decide (v = b)) l i - i)
       = Some b.
Proof.
  induction l as [|v l IH]; intros i Hin.
  - inversion Hin.
  - simpl. case_bool_decide as Hv.
    + subst v. split; [lia|]. by rewrite Z.sub_diag.
    + assert (Hin' : b ∈ l).
      { apply elem_of_cons in Hin as [Heq|Hin]; [congruence | exact Hin]. }
      destruct (IH (i + 1)%Z Hin') as [Hle Hlook]. split; [lia|].
      replace (Z.to_nat (findIndex_from (fun v0 => bool_decide (v0 = b)) l (i + 1) - i))
        with (S (Z.to_nat (findIndex_from (fun v0 => bool_decide (v0 = b)) l (i + 1) - (i + 1))))
        by lia.
      exact Hlook.
Qed.

Lemma js_nth_findIndex (b : ObjId) (l : list ObjId) :
  b ∈ l -> js_nth l (findIndex (fun v => bool_decide (v = b)) l) = Some b.
Proof.
  intros Hin. unfold js_nth, findIndex.
  destruct (findIndex_from_found b l 0%Z Hin) as [Hle Hlook].
  rewrite Z.sub_0_r in Hlook.
  destruct (Z.ltb_spec (findIndex_from (fun v => bool_decide (v = b)) l 0) 0);
    [lia | exact Hlook].
Qed.

Lemma invert_identity : Matrix4.invert Matrix4.identity = Matrix4.identity.
Proof.
  unfold Matrix4.invert.
  assert (Hd : Matrix4.determinant Matrix4.identity = 1).
  { unfold Matrix4.determinant, Matrix4.t11, Matrix4.t12, Matrix4.t13,
      Matrix4.t14. simpl. lra. }
  rewrite Hd. destruct (Req_dec_T 1 0) as [E|_]; [lra|].
  unfold Matrix4.t11, Matrix4.t12, Matrix4.t13, Matrix4.t14, Matrix4.identity.
  simpl. f_equal; field.
Qed.

(** The inverse three.js computes is the inverse. *)
Lemma invert_multiply (m : Matrix4.t) :
  Matrix4.determinant m <> 0 ->
  Matrix4.multiply (Matrix4.invert m) m = Matrix4.identity.
Proof.
  intros Hd. unfold Matrix4.invert.
  destruct (Req_dec_T (Matrix4.determinant m) 0) as [E|_]; [contradiction|].
  destruct m.
  unfold Matrix4.multiply, Matrix4.identity, Matrix4.determinant,
    Matrix4.t11, Matrix4.t12, Matrix4.t13, Matrix4.t14 in *.
  simpl in *. f_equal; field; exact Hd.
Qed.

Lemma find_name_Some (st : Scene) (name : string) (bs : list ObjId) (b : ObjId) :
  List.find (fun v => String.eqb (Object3D.name (st !!! v)) name) bs = Some b ->
  b ∈ bs /\ Object3D.name (st !!! b) = name.
Proof.
  intros Hf. apply List.find_some in Hf as [Hin Heq].
  split; [by apply list_elem_of_In | by apply String.eqb_eq].
Qed.

Lemma find_name_None (st : Scene) (name : string) (bs : list ObjId) :
  List.find (fun v => String.eqb (Object3D.name (st !!! v)) name) bs = None ->
  forall b : ObjId, b ∈ bs -> Object3D.name (st !!! b) <> name.
Proof.
  intros Hf b Hin Heq.
  pose proof (List.find_none _ _ Hf b (proj1 (list_elem_of_In _ _) Hin)) as Hb.
  simpl in Hb. apply String.eqb_neq in Hb. contradiction.
Qed.

Lemma findOrAddTargetBone_found (skeleton : Skeleton.t) (person : ObjId)
    (name : string) (effectorBone : ObjId) (st : Scene) (b : ObjId) :
  List.find (fun v => String.eqb (Object3D.name (st !!! v)) name)
            (Skeleton.bones skeleton) = Some b ->
  findOrAddTargetBone skeleton person name effectorBone st = (b, skeleton, st).
Proof. intros Hf. unfold findOrAddTargetBone. rewrite Hf. reflexivity. Qed.

Lemma findOrAddTargetBone_added (skeleton : Skeleton.t) (person : ObjId)
    (name : string) (effectorBone : ObjId) (st : Scene) :
  List.find (fun v => String.eqb (Object3D.name (st !!! v)) name)
            (Skeleton.bones skeleton) = None ->
  findOrAddTargetBone skeleton person name effectorBone st
  = (fresh (dom st),
     Skeleton.mk (Skeleton.bones skeleton ++ [fresh (dom st)])
                 (Skeleton.boneInverses skeleton ++ [Matrix4.identity]),
     set_position (fresh (dom st))
       (worldToLocal (scene_with_target person name st) person
          (getWorldPosition (scene_with_target person name st) effectorBone))
       (scene_with_target person name st)).
Proof.
  intros Hf. unfold findOrAddTargetBone. rewrite Hf.
  set (t := fresh (dom st)).
  replace (length (Skeleton.bones skeleton ++ [t]) - 1)%nat
    with (length (Skeleton.bones skeleton)) by (rewrite length_app; simpl; lia).
  rewrite list_lookup_middle by reflexivity.
  replace (length (Skeleton.boneInverses skeleton ++ [Matrix4.identity]) - 1)%nat
    with (length (Skeleton.boneInverses skeleton) + 0)%nat
    by (rewrite length_app; simpl; lia).
  rewrite insert_app_r. simpl.
  unfold set_name at 1. rewrite lookup_total_insert_eq. simpl.
  rewrite lookup_total_insert_eq.
  change (Object3D.matrixWorld Object3D.new) with Matrix4.identity.
  rewrite invert_identity. reflexivity.
Qed.

(** C8. [findOrAddTargetBone] keeps [bones] and [boneInverses] aligned.
    A bone of the skeleton that bears the name is returned, and then
    neither the skeleton nor the scene changes.  When no bone bears it,
    the returned bone is a new object; it is appended to [bones], and one
    matrix to [boneInverses], at the same index when the lengths agreed:
    the inverse of the world matrix of a new bone, which is the identity.
    The position given to the new bone is the world position of the
    effector brought into the space of [person], both read once the bone
    is attached and the matrices of [person] are refreshed. *)
Theorem findOrAddTargetBone_keeps_alignment (skeleton : Skeleton.t)
    (person : ObjId) (name : string) (effectorBone : ObjId) (st : Scene) :
  let out := findOrAddTargetBone skeleton person name effectorBone st in
  let targetBone := out.1.1 in
  let skeleton' := out.1.2 in
  let st' := out.2 in
  (aligned skeleton -> aligned skeleton')
  /\ ((exists b : ObjId,
         b ∈ Skeleton.bones skeleton /\ Object3D.name (st !!! b) = name) ->
      targetBone ∈ Skeleton.bones skeleton
      /\ Object3D.name (st !!! targetBone) = name
      /\ skeleton' = skeleton /\ st' = st)
  /\ ((forall b : ObjId,
         b ∈ Skeleton.bones skeleton -> Object3D.name (st !!! b) <> name) ->
      (targetBone ∉ dom st)
      /\ Skeleton.bones skeleton' = Skeleton.bones skeleton ++ [targetBone]
      /\ Skeleton.boneInverses skeleton'
         = Skeleton.boneInverses skeleton
           ++ [Matrix4.invert (Object3D.matrixWorld Object3D.new)]
      /\ Matrix4.invert (Object3D.matrixWorld Object3D.new) = Matrix4.identity
      /\ Object3D.position (st' !!! targetBone)
         = worldToLocal (scene_with_target person name st) person
             (getWorldPosition (scene_with_target person name st) effectorBone)).
Proof.
  intros out targetBone skeleton' st'.
  destruct (List.find (fun v => String.eqb (Object3D.name (st !!! v)) name)
                      (Skeleton.bones skeleton)) as [b|] eqn:Hf.
  - pose proof (findOrAddTargetBone_found skeleton person name effectorBone st b Hf)
      as Hout.
    destruct (find_name_Some _ _ _ _ Hf) as [Hin Hname].
    subst targetBone skeleton' st'. unfold out. rewrite Hout. simpl.
    split; [tauto|]. split; [tauto|].
    intros Hnone. exfalso. exact (Hnone b Hin Hname).
  - pose proof (findOrAddTargetBone_added skeleton person name effectorBone st Hf)
      as Hout.
    subst targetBone skeleton' st'. unfold out. rewrite Hout. simpl.
    split; [|split].
    + unfold aligned. simpl. intros Hlen. rewrite !length_app, Hlen. reflexivity.
    + intros (b & Hin & Hname). exfalso.
      exact (find_name_None _ _ _ Hf b Hin Hname).
    + intros _. rewrite invert_identity.
      split; [apply is_fresh|]. repeat split. apply set_position_eq.
Qed.

Lemma createIKSettings_unfold (skeleton : Skeleton.t) (person : ObjId)
    (name : string) (b0 b1 b2 : ObjId)
    (rotationLimits : RotationLimit.t * RotationLimit.t)
    (vrHandGetter : option (Scene -> option ObjId))
    (rotationOffset : Vector3Tupple) (st : Scene) :
  let found := findOrAddTargetBone skeleton person name b2 st in
  let bs := Skeleton.bones found.1.2 in
  createIKSettings skeleton person name (b0, b1, b2) rotationLimits
                   vrHandGetter rotationOffset st
  = (IK.mk (findIndex (fun v => bool_decide (v = found.1.1)) bs)
           (findIndex (fun v => bool_decide (v = b2)) bs)
           2 (-0.2) 0.2
           [ IKLink.mk (findIndex (fun v => bool_decide (v = b1)) bs)
               (limitToVec (RotationLimit.rotationMin (snd rotationLimits)))
               (limitToVec (RotationLimit.rotationMax (snd rotationLimits)));
             IKLink.mk (findIndex (fun v => bool_decide (v = b0)) bs)
               (limitToVec (RotationLimit.rotationMin (fst rotationLimits)))
               (limitToVec (RotationLimit.rotationMax (fst rotationLimits))) ],
     VRMapping_new person
       (fun scene => match vrHandGetter with
                     | Some getter => getter scene
                     | None => None
                     end)
       found.1.1 b2 b0
       (Some (Quaternion.setFromEuler
                (Vector3.fromArray (tupple_map degToRad rotationOffset))))
       found.2,
     found.1.2, found.2).
Proof.
  intros found bs. unfold createIKSettings. subst bs found.
  destruct (findOrAddTargetBone skeleton person name b2 st) as [[t sk'] st'].
  reflexivity.
Qed.

Lemma findOrAddTargetBone_bones (skeleton : Skeleton.t) (person : ObjId)
    (name : string) (effectorBone : ObjId) (st : Scene) (b : ObjId) :
  b ∈ Skeleton.bones skeleton ->
  b ∈ Skeleton.bones (findOrAddTargetBone skeleton person name effectorBone st).1.2.
Proof.
  intros Hin.
  destruct (List.find (fun v => String.eqb (Object3D.name (st !!! v)) name)
                      (Skeleton.bones skeleton)) as [b'|] eqn:Hf.
  - by rewrite (findOrAddTargetBone_found _ _ _ _ _ _ Hf).
  - rewrite (findOrAddTargetBone_added _ _ _ _ _ Hf). simpl.
    apply elem_of_app. by left.
Qed.

(** The bones the description of an arm designates, when the skeleton has
    the bones of the arm. *)
Lemma createIKSettings_bones (skeleton : Skeleton.t) (person : ObjId)
    (name : string) (b0 b1 b2 : ObjId)
    (rotationLimits : RotationLimit.t * RotationLimit.t)
    (vrHandGetter : option (Scene -> option ObjId))
    (rotationOffset : Vector3Tupple) (st : Scene) :
  let out := createIKSettings skeleton person name (b0, b1, b2) rotationLimits
                              vrHandGetter rotationOffset st in
  let ik := out.1.1.1 in
  let bs := Skeleton.bones out.1.2 in
  (b1 ∈ Skeleton.bones skeleton -> link_bone bs ik 0 = Some b1)
  /\ (b0 ∈ Skeleton.bones skeleton -> link_bone bs ik 1 = Some b0)
  /\ (b2 ∈ Skeleton.bones skeleton -> effector_bone bs ik = Some b2).
Proof.
  intros out ik bs. subst ik bs out.
  rewrite createIKSettings_unfold. simpl.
  unfold link_bone, effector_bone. simpl.
  repeat split; intros Hin; apply js_nth_findIndex;
    apply findOrAddTargetBone_bones, Hin.
Qed.

(** C7. The description [createIKSettings] builds for the bones
    [bones0, bones1, bones2] has exactly two links: link 0 has the index
    of [bones1] (the lower arm), link 1 the index of [bones0] (the upper
    arm), and the effector is the index of [bones2] (the hand); in a
    skeleton that has these bones, the indices designate them. *)
Theorem chain_links_effector_first (skeleton : Skeleton.t) (person : ObjId)
    (name : string) (bones0 bones1 bones2 : ObjId)
    (rotationLimits : RotationLimit.t * RotationLimit.t)
    (vrHandGetter : option (Scene -> option ObjId))
    (rotationOffset : Vector3Tupple) (st : Scene) :
  let out := createIKSettings skeleton person name (bones0, bones1, bones2)
                              rotationLimits vrHandGetter rotationOffset st in
  let ik := out.1.1.1 in
  let bs := Skeleton.bones out.1.2 in
  length (IK.links ik) = 2%nat
  /\ IKLink.index <$> IK.links ik
     = [findIndex (fun v => bool_decide (v = bones1)) bs;
        findIndex (fun v => bool_decide (v = bones0)) bs]
  /\ IK.effector ik = findIndex (fun v => bool_decide (v = bones2)) bs
  /\ (bones1 ∈ Skeleton.bones skeleton -> link_bone bs ik 0 = Some bones1)
  /\ (bones0 ∈ Skeleton.bones skeleton -> link_bone bs ik 1 = Some bones0)
  /\ (bones2 ∈ Skeleton.bones skeleton -> effector_bone bs ik = Some bones2).
Proof.
  intros out ik bs.
  pose proof (createIKSettings_bones skeleton person name bones0 bones1 bones2
                rotationLimits vrHandGetter rotationOffset st) as Hbones.
  fold out ik bs in Hbones.
  subst ik bs out. rewrite createIKSettings_unfold in *. simpl in *.
  repeat split; apply Hbones.
Qed.

Lemma limitToVec_radians (d0 d1 d2 : R) :
  limitToVec (Some (d0, d1, d2))
  = Some (Vector3.mk (degToRad d0) (degToRad d1) (degToRad d2)).
Proof. reflexivity. Qed.

(** C1, as the code has it.  The limits are bound to the bones index by
    index: link 0, the lower arm ([bones1]), carries [rotationLimits[1]]
    and link 1, the upper arm ([bones0]), carries [rotationLimits[0]].
    Each limit is given to [limitToVec] once, which turns each of its
    three values from degrees to radians. *)
Theorem rotation_limits_follow_bones (skeleton : Skeleton.t) (person : ObjId)
    (name : string) (bones0 bones1 bones2 : ObjId)
    (rotationLimits : RotationLimit.t * RotationLimit.t)
    (vrHandGetter : option (Scene -> option ObjId))
    (rotationOffset : Vector3Tupple) (st : Scene) :
  let out := createIKSettings skeleton person name (bones0, bones1, bones2)
                              rotationLimits vrHandGetter rotationOffset st in
  let ik := out.1.1.1 in
  let bs := Skeleton.bones out.1.2 in
  limits_applied ik (snd rotationLimits) (fst rotationLimits)
  /\ (bones1 ∈ Skeleton.bones skeleton -> link_bone bs ik 0 = Some bones1)
  /\ (bones0 ∈ Skeleton.bones skeleton -> link_bone bs ik 1 = Some bones0)
  /\ (forall d0 d1 d2 : R,
        limitToVec (Some (d0, d1, d2))
        = Some (Vector3.mk (degToRad d0) (degToRad d1) (degToRad d2)))
  /\ limitToVec None = None.
Proof.
  intros out ik bs.
  pose proof (createIKSettings_bones skeleton person name bones0 bones1 bones2
                rotationLimits vrHandGetter rotationOffset st) as Hbones.
  fold out ik bs in Hbones.
  split; [|split; [apply Hbones | split; [apply Hbones|]]].
  - subst ik out. rewrite createIKSettings_unfold. simpl.
    eexists _, _. split; [reflexivity|]. split; split; reflexivity.
  - split; [apply limitToVec_radians | reflexivity].
Qed.

(** *** The skeleton the constructor leaves *)

Lemma Skeleton_new_aligned (st : Scene) (bs : list ObjId) :
  aligned (Skeleton.new st bs).
Proof. unfold aligned. simpl. by rewrite length_map. Qed.

Lemma findOrAddTargetBone_aligned (skeleton : Skeleton.t) (person : ObjId)
    (name : string) (effectorBone : ObjId) (st : Scene) :
  aligned skeleton ->
  aligned (findOrAddTargetBone skeleton person name effectorBone st).1.2.
Proof.
  unfold aligned. intros Hlen.
  destruct (List.find (fun v => String.eqb (Object3D.name (st !!! v)) name)
                      (Skeleton.bones skeleton)) as [b|] eqn:Hf.
  - by rewrite (findOrAddTargetBone_found _ _ _ _ _ _ Hf).
  - rewrite (findOrAddTargetBone_added _ _ _ _ _ Hf). simpl.
    by rewrite !length_app, Hlen.
Qed.

Lemma add_arm_aligned (person : ObjId) (name : string)
    (bones : option IKTargetBonesStrict)
    (rotationLimits : RotationLimit.t * RotationLimit.t)
    (vrHandGetter : option (Scene -> option ObjId))
    (rotationOffset : Vector3Tupple)
    (acc : list IK.t * list VRMapping.t * Skeleton.t * Scene) :
  aligned acc.1.2 ->
  aligned (add_arm person name bones rotationLimits vrHandGetter
                   rotationOffset acc).1.2.
Proof.
  destruct acc as [[[iks ms] skeleton] st]. simpl. intros Hal.
  destruct bones as [[[b0 b1] b2]|]; [|exact Hal].
  rewrite createIKSettings_unfold. simpl.
  by apply findOrAddTargetBone_aligned.
Qed.

(** X20. Whether [person] comes with an aligned skeleton or with none,
    the skeleton the constructor leaves on it is aligned: it has as many
    inverses as bones, whichever arms are set up and whether or not target
    bones had to be added. *)
Lemma AvatarIK_new_aligned (target : ObjId)
    (person_skeleton : option Skeleton.t)
    (maybeRightArmBones maybeLeftArmBones : IKTargetBones)
    (rotationLimitSet : RotationLimitSet.t) (vrHandGetter : VRHandGetter.t)
    (wristRotationOffsetSet : WristRotationOffsetSet.t)
    (options : option Options.t) (st : Scene) :
  (forall skeleton : Skeleton.t,
     person_skeleton = Some skeleton -> aligned skeleton) ->
  aligned (AvatarIK_new target person_skeleton maybeRightArmBones
             maybeLeftArmBones rotationLimitSet vrHandGetter
             wristRotationOffsetSet options st).1.2.
Proof.
  intros Hal. unfold AvatarIK_new.
  set (skeleton := match person_skeleton with
                   | Some skeleton => skeleton
                   | None => Skeleton.new st _
                   end).
  assert (H0 : aligned skeleton).
  { subst skeleton. destruct person_skeleton; [by apply Hal|].
    apply Skeleton_new_aligned. }
  pose proof (add_arm_aligned target "rightArmIK"
                (strict_bones maybeRightArmBones)
                (RotationLimitSet.rightArm rotationLimitSet)
                (VRHandGetter.right vrHandGetter)
                (WristRotationOffsetSet.right wristRotationOffsetSet) _
                (add_arm_aligned target "leftArmIK"
                   (strict_bones maybeLeftArmBones)
                   (RotationLimitSet.leftArm rotationLimitSet)
                   (VRHandGetter.left vrHandGetter)
                   (WristRotationOffsetSet.left wristRotationOffsetSet)
                   ([], [], skeleton, st) H0)) as H2.
  destruct (add_arm target "rightArmIK" _ _ _ _ _) as [[[iks ms] sk] st'].
  simpl in H2.
  destruct (isDebug_of options); [destruct (add_helper target st')|]; exact H2.
Qed.

(** *** The chains of the constructor *)

Lemma js_nth_app_l {A : Type} (l l' : list A) (i : Z) (x : A) :
  js_nth l i = Some x -> js_nth (l ++ l') i = Some x.
Proof.
  unfold js_nth. destruct (i <? 0)%Z; [discriminate|].
  intros H. by apply lookup_app_l_Some.
Qed.

Lemma findOrAddTargetBone_prefix (skeleton : Skeleton.t) (person : ObjId)
    (name : string) (effectorBone : ObjId) (st : Scene) :
  exists extra : list ObjId,
    Skeleton.bones (findOrAddTargetBone skeleton person name effectorBone st).1.2
    = Skeleton.bones skeleton ++ extra.
Proof.
  destruct (List.find (fun v => String.eqb (Object3D.name (st !!! v)) name)
                      (Skeleton.bones skeleton)) as [b|] eqn:Hf.
  - exists []. rewrite (findOrAddTargetBone_found _ _ _ _ _ _ Hf). simpl.
    by rewrite app_nil_r.
  - eexists. rewrite (findOrAddTargetBone_added _ _ _ _ _ Hf). reflexivity.
Qed.

Lemma createIKSettings_prefix (skeleton : Skeleton.t) (person : ObjId)
    (name : string) (b0 b1 b2 : ObjId)
    (rotationLimits : RotationLimit.t * RotationLimit.t)
    (vrHandGetter : option (Scene -> option ObjId))
    (rotationOffset : Vector3Tupple) (st : Scene) :
  exists extra : list ObjId,
    Skeleton.bones (createIKSettings skeleton person name (b0, b1, b2)
                      rotationLimits vrHandGetter rotationOffset st).1.2
    = Skeleton.bones skeleton ++ extra.
Proof.
  rewrite createIKSettings_unfold. simpl. apply findOrAddTargetBone_prefix.
Qed.

Lemma designates_app (bs extra : list ObjId) (ik : IK.t)
    (bones : IKTargetBonesStrict) :
  designates bs ik bones -> designates (bs ++ extra) ik bones.
Proof.
  destruct bones as [[b0 b1] b2]. unfold designates, link_bone, effector_bone.
  intros (H1 & H0 & H2).
  destruct (IK.links ik !! 0%nat); [|discriminate].
  destruct (IK.links ik !! 1%nat); [|discriminate].
  repeat split; by apply js_nth_app_l.
Qed.

(** One arm of the constructor: the descriptions already there keep
    designating their bones among the bones the call leaves, and the new
    description designates the bones of the arm when the skeleton has
    them. *)
Lemma add_arm_designates (person : ObjId) (name : string)
    (bones : option IKTargetBonesStrict)
    (rotationLimits : RotationLimit.t * RotationLimit.t)
    (vrHandGetter : option (Scene -> option ObjId))
    (rotationOffset : Vector3Tupple)
    (acc : list IK.t * list VRMapping.t * Skeleton.t * Scene)
    (arms : list IKTargetBonesStrict) :
  Forall2 (designates (Skeleton.bones acc.1.2)) acc.1.1.1 arms ->
  (forall b : ObjId, b ∈ bones_list bones -> b ∈ Skeleton.bones acc.1.2) ->
  let out := add_arm person name bones rotationLimits vrHandGetter
                     rotationOffset acc in
  Forall2 (designates (Skeleton.bones out.1.2)) out.1.1.1
          (arms ++ match bones with Some bones => [bones] | None => [] end)
  /\ exists extra : list ObjId,
       Skeleton.bones out.1.2 = Skeleton.bones acc.1.2 ++ extra.
Proof.
  destruct acc as [[[iks ms] skeleton] st]. cbn [fst snd]. intros Hacc Hin.
  destruct bones as [[[b0 b1] b2]|]; cbn [add_arm].
  - pose proof (createIKSettings_bones skeleton person name b0 b1 b2
                  rotationLimits vrHandGetter rotationOffset st) as Hnew.
    destruct (createIKSettings_prefix skeleton person name b0 b1 b2
                rotationLimits vrHandGetter rotationOffset st)
      as [extra Hextra].
    cbv zeta in Hnew.
    destruct (createIKSettings skeleton person name (b0, b1, b2) rotationLimits
                vrHandGetter rotationOffset st) as [[[ik m] sk'] st'].
    cbn [fst snd] in *.
    split; [|by exists extra].
    apply Forall2_app.
    + rewrite Hextra. eapply Forall2_impl; [exact Hacc|].
      intros ik' arm. apply designates_app.
    + constructor; [|constructor].
      destruct Hnew as (H1 & H0 & H2). unfold designates.
      split; [|split]; [apply H1 | apply H0 | apply H2]; apply Hin;
        cbn [bones_list]; rewrite !elem_of_cons; tauto.
  - rewrite app_nil_r. split; [exact Hacc|]. exists []. by rewrite app_nil_r.
Qed.

(** X21. When [person] has no skeleton of its own, every description of
    the solver designates, among the bones of the solver, the bones of its
    arm: link 0 the lower arm, link 1 the upper arm, the effector the
    hand. *)
Lemma AvatarIK_new_designates (target : ObjId)
    (maybeRightArmBones maybeLeftArmBones : IKTargetBones)
    (rotationLimitSet : RotationLimitSet.t) (vrHandGetter : VRHandGetter.t)
    (wristRotationOffsetSet : WristRotationOffsetSet.t)
    (options : option Options.t) (st : Scene) :
  let a := (AvatarIK_new target None maybeRightArmBones maybeLeftArmBones
              rotationLimitSet vrHandGetter wristRotationOffsetSet
              options st).1.1 in
  exists solver : CCDIKSolver.t,
    AvatarIK._solver a = Some solver
    /\ Forall2 (designates (CCDIKSolver.bones solver)) (CCDIKSolver.iks solver)
         (match strict_bones maybeLeftArmBones with
          | Some bones => [bones]
          | None => []
          end
          ++ match strict_bones maybeRightArmBones with
             | Some bones => [bones]
             | None => []
             end).
Proof.
  unfold AvatarIK_new.
  set (left := strict_bones maybeLeftArmBones).
  set (right := strict_bones maybeRightArmBones).
  set (skeleton := Skeleton.new st (bones_list left ++ bones_list right)).
  destruct (add_arm_designates target "leftArmIK" left
              (RotationLimitSet.leftArm rotationLimitSet)
              (VRHandGetter.left vrHandGetter)
              (WristRotationOffsetSet.left wristRotationOffsetSet)
              ([], [], skeleton, st) [])
    as [Hleft [extra Hextra]].
  { constructor. }
  { intros b Hb. simpl. apply elem_of_app. by left. }
  destruct (add_arm_designates target "rightArmIK" right
              (RotationLimitSet.rightArm rotationLimitSet)
              (VRHandGetter.right vrHandGetter)
              (WristRotationOffsetSet.right wristRotationOffsetSet)
              (add_arm target "leftArmIK" left
                 (RotationLimitSet.leftArm rotationLimitSet)
                 (VRHandGetter.left vrHandGetter)
                 (WristRotationOffsetSet.left wristRotationOffsetSet)
                 ([], [], skeleton, st))
              ([] ++ match left with Some bones => [bones] | None => [] end))
    as [Hright _].
  { exact Hleft. }
  { intros b Hb. rewrite Hextra. simpl.
    apply elem_of_app. left. apply elem_of_app. by right. }
  destruct (add_arm target "rightArmIK" right _ _ _ _) as [[[iks ms] sk] st'].
  simpl in Hright.
  destruct (isDebug_of options); [destruct (add_helper target st')|];
    simpl; eexists; (split; [reflexivity|]); exact Hright.
Qed.

(** *** What a tick touches *)

Lemma same_pose_refl (st : Scene) (o : ObjId) : same_pose st st o.
Proof. split; reflexivity. Qed.

Lemma same_pose_trans (st1 st2 st3 : Scene) (o : ObjId) :
  same_pose st1 st2 o -> same_pose st2 st3 o -> same_pose st1 st3 o.
Proof. unfold same_pose. intros [? ?] [? ?]. split; congruence. Qed.

Lemma mapVRAvatar_frame (m : VRMapping.t) (st : Scene) (o : ObjId) :
  o ∉ mapping_objects m -> same_pose st (snd (mapVRAvatar m st)) o.
Proof.
  intros Hout.
  assert (Ht : o <> VRMapping.ikTarget m) by (intros ->; apply Hout; set_solver).
  assert (Hw : o <> VRMapping.wristBone m) by (intros ->; apply Hout; set_solver).
  unfold mapVRAvatar.
  destruct (VRMapping.getVrHand m st) as [h|]; [|apply same_pose_refl].
  destruct (Object3D.parent (st !!! VRMapping.ikTarget m)) as [tp|];
    [|apply same_pose_refl].
  destruct (Object3D.parent (set_position _ _ _ !!! _)) as [wp|]; simpl;
    unfold same_pose;
    rewrite ?(set_quaternion_ne _ _ _ _ Hw), ?(set_position_ne _ _ _ _ Ht);
    split; reflexivity.
Qed.

Lemma reset_frame (m : VRMapping.t) (st : Scene) (o : ObjId) :
  o ∉ mapping_objects m -> same_pose st (reset m st) o.
Proof.
  intros Hout.
  assert (Ht : o <> VRMapping.ikTarget m) by (intros ->; apply Hout; set_solver).
  assert (Hw : o <> VRMapping.wristBone m) by (intros ->; apply Hout; set_solver).
  unfold reset, same_pose.
  rewrite (set_quaternion_ne _ _ _ _ Hw), (set_position_ne _ _ _ _ Ht).
  split; reflexivity.
Qed.

Lemma solver_update_frame (solver : CCDIKSolver.t) (i : nat) (st : Scene)
    (o : ObjId) :
  solver_rotates_links_only three ->
  o ∉ solver_objects (Some solver) ->
  same_pose st (solver_update solver i st) o.
Proof.
  intros Hsolver Hout. unfold solver_update.
  destruct (CCDIKSolver.iks solver !! i) as [ik|] eqn:Hik; [|apply same_pose_refl].
  destruct (Hsolver (CCDIKSolver.bones solver) ik st o) as [Hpos Hquat].
  split; [exact Hpos|]. apply Hquat.
  intros Hin. apply Hout. simpl.
  apply list_elem_of_In, in_flat_map. exists ik. split.
  - apply list_elem_of_In. eapply list_elem_of_lookup_2, Hik.
  - by apply list_elem_of_In.
Qed.

Lemma tick_loop_frame (solver : CCDIKSolver.t) (ms : list VRMapping.t)
    (o : ObjId) :
  solver_rotates_links_only three ->
  o ∉ flat_map mapping_objects ms ->
  o ∉ solver_objects (Some solver) ->
  forall (i : nat) (st : Scene),
    same_pose st (snd (tick_loop solver i ms st)) o.
Proof.
  intros Hsolver Hms Hout.
  induction ms as [|m ms IH]; intros i st; simpl; [apply same_pose_refl|].
  change (flat_map mapping_objects (m :: ms))
    with (mapping_objects m ++ flat_map mapping_objects ms) in Hms.
  apply not_elem_of_app in Hms as [Hm Hms'].
  assert (Hstep : same_pose st
            (if controller_active m st then mapVRAvatar m st else (m, reset m st)).2 o).
  { destruct (controller_active m st);
      [by apply mapVRAvatar_frame | by apply reset_frame]. }
  destruct (if controller_active m st then mapVRAvatar m st else (m, reset m st))
    as [m' st1].
  simpl in Hstep.
  destruct (controller_active m st && mapVRAvatar_throws m st); [exact Hstep|].
  pose proof (solver_update_frame solver i st1 o Hsolver Hout) as Hupd.
  specialize (IH Hms' (S i) (solver_update solver i st1)).
  destruct (tick_loop solver (S i) ms (solver_update solver i st1)) as [ms'' st3].
  simpl in *.
  eapply same_pose_trans; [exact Hstep|].
  eapply same_pose_trans; [exact Hupd | exact IH].
Qed.

Lemma tick_frame (a : AvatarIK.t) (deltaTime : R) (st : Scene) (o : ObjId) :
  solver_rotates_links_only three ->
  o ∉ driven_objects a ->
  same_pose st (snd (tick a deltaTime st)) o.
Proof.
  intros Hsolver Hout. unfold tick.
  destruct (Rlt_dec _ _); [apply same_pose_refl|]. simpl.
  destruct (AvatarIK._solver a) as [solver|] eqn:Hs; [|apply same_pose_refl].
  pose proof (tick_loop_frame solver (AvatarIK._vrMappings a) o Hsolver) as Hloop.
  destruct (tick_loop solver 0 (AvatarIK._vrMappings a) st) as [ms st'] eqn:Hl.
  simpl. specialize (Hloop ltac:(intros Hin; apply Hout; unfold driven_objects;
                                  apply elem_of_app; by left)
                           ltac:(intros Hin; apply Hout; unfold driven_objects;
                                  apply elem_of_app; right; by rewrite Hs)
                           0%nat st).
  rewrite Hl in Hloop. exact Hloop.
Qed.

Lemma tick_loop_objects (solver : CCDIKSolver.t) (ms : list VRMapping.t) :
  forall (i : nat) (st : Scene),
    flat_map mapping_objects (fst (tick_loop solver i ms st))
    = flat_map mapping_objects ms.
Proof.
  induction ms as [|m ms IH]; intros i st; simpl; [reflexivity|].
  assert (Hm : mapping_objects
                 (if controller_active m st then mapVRAvatar m st
                  else (m, reset m st)).1 = mapping_objects m).
  { destruct (controller_active m st); [|reflexivity].
    destruct (mapVRAvatar_bindings m st) as (_ & _ & Ht & _ & Hw & _).
    unfold mapping_objects. by rewrite Ht, Hw. }
  destruct (if controller_active m st then mapVRAvatar m st else (m, reset m st))
    as [m' st1].
  simpl in Hm. unfold mapping_objects in Hm. injection Hm as Ht Hw.
  destruct (controller_active m st && mapVRAvatar_throws m st);
    [simpl; by rewrite Ht, Hw|].
  specialize (IH (S i) (solver_update solver i st1)).
  destruct (tick_loop solver (S i) ms (solver_update solver i st1)) as [ms'' st3].
  simpl in *. by rewrite Ht, Hw, IH.
Qed.

Lemma tick_objects (a : AvatarIK.t) (deltaTime : R) (st : Scene) :
  driven_objects (fst (tick a deltaTime st)) = driven_objects a.
Proof.
  unfold tick. destruct (Rlt_dec _ _); [reflexivity|]. simpl.
  destruct (AvatarIK._solver a) as [solver|] eqn:Hs.
  - pose proof (tick_loop_objects solver (AvatarIK._vrMappings a) 0 st) as Hl.
    destruct (tick_loop solver 0 (AvatarIK._vrMappings a) st) as [ms st'].
    unfold driven_objects. simpl in *. by rewrite Hl, Hs.
  - unfold driven_objects. simpl. by rewrite Hs.
Qed.

Lemma tick_seq_objects (frames : list (R * Scene)) (a : AvatarIK.t) :
  driven_objects (tick_seq a frames) = driven_objects a.
Proof.
  revert a. induction frames as [|[dt st] frames IH]; intros a; simpl;
    [reflexivity|].
  by rewrite IH, tick_objects.
Qed.

(** Ticks write only to the objects an instance drives. *)
Lemma untouched_outside_driven (a : AvatarIK.t) (o : ObjId) :
  solver_rotates_links_only three ->
  o ∉ driven_objects a -> untouched_by_ticks a o.
Proof.
  intros Hsolver Hout frames dt st.
  apply tick_frame; [exact Hsolver|]. by rewrite tick_seq_objects.
Qed.

(** *** Arms with an undefined bone *)

Lemma includes_undefined_strict (bones : IKTargetBones) :
  includes_undefined bones = true -> strict_bones bones = None.
Proof.
  intros H. unfold strict_bones, isNotIncludeUndefined. rewrite H. reflexivity.
Qed.

Lemma findIndex_from_cases {A : Type} (pred : A -> bool) (l : list A) :
  forall i : Z,
    findIndex_from pred l i = (-1)%Z
    \/ ((i <= findIndex_from pred l i)%Z
        /\ exists v : A,
             l !! Z.to_nat (findIndex_from pred l i - i) = Some v
             /\ pred v = true).
Proof.
  induction l as [|v l IH]; intros i; simpl; [by left|].
  destruct (pred v) eqn:Hv.
  - right. split; [lia|]. exists v. by rewrite Z.sub_diag.
  - destruct (IH (i + 1)%Z) as [Hnone | (Hle & w & Hlook & Hw)]; [by left|].
    right. split; [lia|]. exists w. split; [|exact Hw].
    replace (Z.to_nat (findIndex_from pred l (i + 1) - i))
      with (S (Z.to_nat (findIndex_from pred l (i + 1) - (i + 1)))) by lia.
    exact Hlook.
Qed.

Lemma js_nth_findIndex_inv (b x : ObjId) (l : list ObjId) :
  js_nth l (findIndex (fun v => bool_decide (v = b)) l) = Some x -> x = b.
Proof.
  unfold js_nth, findIndex.
  destruct (findIndex_from_cases (fun v => bool_decide (v = b)) l 0%Z)
    as [-> | (Hle & v & Hlook & Hv)].
  - simpl. discriminate.
  - rewrite Z.sub_0_r in Hlook.
    destruct (Z.ltb_spec (findIndex_from (fun v => bool_decide (v = b)) l 0) 0);
      [lia|].
    rewrite Hlook. intros [= <-]. by apply bool_decide_eq_true in Hv.
Qed.

(** What the chain of an arm drives: its bones and its target. *)
Lemma createIKSettings_driven (skeleton : Skeleton.t) (person : ObjId)
    (name : string) (b0 b1 b2 : ObjId)
    (rotationLimits : RotationLimit.t * RotationLimit.t)
    (vrHandGetter : option (Scene -> option ObjId))
    (rotationOffset : Vector3Tupple) (st : Scene) (o : ObjId) :
  let out := createIKSettings skeleton person name (b0, b1, b2) rotationLimits
                              vrHandGetter rotationOffset st in
  o ∈ mapping_objects out.1.1.2
      ++ link_bones (Skeleton.bones out.1.2) out.1.1.1 ->
  o ∈ [b0; b1; b2; VRMapping.ikTarget out.1.1.2].
Proof.
  intros out. subst out. rewrite createIKSettings_unfold. simpl.
  unfold mapping_objects, link_bones. simpl.
  set (bs := Skeleton.bones _).
  destruct (js_nth bs (findIndex (fun v => bool_decide (v = b1)) bs))
    as [x1|] eqn:H1;
  destruct (js_nth bs (findIndex (fun v => bool_decide (v = b0)) bs))
    as [x0|] eqn:H0;
  try apply js_nth_findIndex_inv in H1; try apply js_nth_findIndex_inv in H0;
  subst; rewrite !elem_of_cons, !elem_of_nil; tauto.
Qed.

Lemma single_chain_untouched (a : AvatarIK.t) (skeleton : Skeleton.t)
    (person : ObjId) (name : string) (b0 b1 b2 : ObjId)
    (rotationLimits : RotationLimit.t * RotationLimit.t)
    (vrHandGetter : option (Scene -> option ObjId))
    (rotationOffset : Vector3Tupple) (st : Scene) (o : ObjId) :
  let out := createIKSettings skeleton person name (b0, b1, b2) rotationLimits
                              vrHandGetter rotationOffset st in
  solver_rotates_links_only three ->
  AvatarIK._vrMappings a = [out.1.1.2] ->
  AvatarIK._solver a
    = Some (CCDIKSolver.mk person (Skeleton.bones out.1.2) [out.1.1.1]) ->
  o ∉ [b0; b1; b2; VRMapping.ikTarget out.1.1.2] ->
  untouched_by_ticks a o.
Proof.
  intros out Hsolver Hms Hs Hout.
  apply untouched_outside_driven; [exact Hsolver|].
  intros Hin. apply Hout.
  apply (createIKSettings_driven skeleton person name b0 b1 b2 rotationLimits
           vrHandGetter rotationOffset st o).
  fold out. unfold driven_objects in Hin. rewrite Hms, Hs in Hin.
  simpl in Hin. rewrite !app_nil_r in Hin. exact Hin.
Qed.

Lemma no_chain_untouched (a : AvatarIK.t) (person : ObjId) (bs : list ObjId)
    (o : ObjId) :
  solver_rotates_links_only three ->
  AvatarIK._vrMappings a = [] ->
  AvatarIK._solver a = Some (CCDIKSolver.mk person bs []) ->
  untouched_by_ticks a o.
Proof.
  intros Hsolver Hms Hs.
  apply untouched_outside_driven; [exact Hsolver|].
  unfold driven_objects. rewrite Hms, Hs. simpl. apply not_elem_of_nil.
Qed.

(** The constructor when the left arm has an undefined bone. *)
Lemma AvatarIK_new_left_disabled (target : ObjId)
    (person_skeleton : option Skeleton.t)
    (maybeRightArmBones maybeLeftArmBones : IKTargetBones)
    (rotationLimitSet : RotationLimitSet.t) (vrHandGetter : VRHandGetter.t)
    (wristRotationOffsetSet : WristRotationOffsetSet.t)
    (options : option Options.t) (st : Scene) :
  includes_undefined maybeLeftArmBones = true ->
  let a := (AvatarIK_new target person_skeleton maybeRightArmBones
              maybeLeftArmBones rotationLimitSet vrHandGetter
              wristRotationOffsetSet options st).1.1 in
  match strict_bones maybeRightArmBones with
  | Some bones =>
      let skeleton :=
        match person_skeleton with
        | Some skeleton => skeleton
        | None => Skeleton.new st (bones_list (Some bones))
        end in
      let out := createIKSettings skeleton target "rightArmIK" bones
                   (RotationLimitSet.rightArm rotationLimitSet)
                   (VRHandGetter.right vrHandGetter)
                   (WristRotationOffsetSet.right wristRotationOffsetSet) st in
      AvatarIK._vrMappings a = [out.1.1.2]
      /\ AvatarIK._solver a
         = Some (CCDIKSolver.mk target (Skeleton.bones out.1.2) [out.1.1.1])
  | None =>
      AvatarIK._vrMappings a = []
      /\ exists bs : list ObjId,
           AvatarIK._solver a = Some (CCDIKSolver.mk target bs [])
  end.
Proof.
  intros Hleft a. subst a. unfold AvatarIK_new.
  rewrite (includes_undefined_strict _ Hleft).
  destruct (strict_bones maybeRightArmBones) as [bones|]; simpl.
  - destruct (createIKSettings _ target "rightArmIK" bones _ _ _ st)
      as [[[ik m] sk'] st'].
    destruct (isDebug_of options); simpl; [|split; reflexivity].
    destruct (add_helper target st'). simpl. split; reflexivity.
  - destruct (isDebug_of options); simpl; [|split; [reflexivity | eexists; reflexivity]].
    destruct (add_helper target st). simpl. split; [reflexivity | eexists; reflexivity].
Qed.

(** The constructor when the right arm has an undefined bone. *)
Lemma AvatarIK_new_right_disabled (target : ObjId)
    (person_skeleton : option Skeleton.t)
    (maybeRightArmBones maybeLeftArmBones : IKTargetBones)
    (rotationLimitSet : RotationLimitSet.t) (vrHandGetter : VRHandGetter.t)
    (wristRotationOffsetSet : WristRotationOffsetSet.t)
    (options : option Options.t) (st : Scene) :
  includes_undefined maybeRightArmBones = true ->
  let a := (AvatarIK_new target person_skeleton maybeRightArmBones
              maybeLeftArmBones rotationLimitSet vrHandGetter
              wristRotationOffsetSet options st).1.1 in
  match strict_bones maybeLeftArmBones with
  | Some bones =>
      let skeleton :=
        match person_skeleton with
        | Some skeleton => skeleton
        | None => Skeleton.new st (bones_list (Some bones))
        end in
      let out := createIKSettings skeleton target "leftArmIK" bones
                   (RotationLimitSet.leftArm rotationLimitSet)
                   (VRHandGetter.left vrHandGetter)
                   (WristRotationOffsetSet.left wristRotationOffsetSet) st in
      AvatarIK._vrMappings a = [out.1.1.2]
      /\ AvatarIK._solver a
         = Some (CCDIKSolver.mk target (Skeleton.bones out.1.2) [out.1.1.1])
  | None =>
      AvatarIK._vrMappings a = []
      /\ exists bs : list ObjId,
           AvatarIK._solver a = Some (CCDIKSolver.mk target bs [])
  end.
Proof.
  intros Hright a. subst a. unfold AvatarIK_new.
  rewrite (includes_undefined_strict _ Hright).
  destruct (strict_bones maybeLeftArmBones) as [bones|]; simpl.
  - rewrite app_nil_r.
    destruct (createIKSettings _ target "leftArmIK" bones _ _ _ st)
      as [[[ik m] sk'] st'].
    destruct (isDebug_of options); simpl; [|split; reflexivity].
    destruct (add_helper target st'). simpl. split; reflexivity.
  - destruct (isDebug_of options); simpl; [|split; [reflexivity | eexists; reflexivity]].
    destruct (add_helper target st). simpl. split; [reflexivity | eexists; reflexivity].
Qed.

Lemma one_arm_inert (a : AvatarIK.t) (target : ObjId)
    (person_skeleton : option Skeleton.t) (name : string)
    (bones : option IKTargetBonesStrict)
    (rotationLimits : RotationLimit.t * RotationLimit.t)
    (vrHandGetter : option (Scene -> option ObjId))
    (rotationOffset : Vector3Tupple) (st : Scene) :
  match bones with
  | Some bones =>
      let skeleton :=
        match person_skeleton with
        | Some skeleton => skeleton
        | None => Skeleton.new st (bones_list (Some bones))
        end in
      let out := createIKSettings skeleton target name bones rotationLimits
                                  vrHandGetter rotationOffset st in
      AvatarIK._vrMappings a = [out.1.1.2]
      /\ AvatarIK._solver a
         = Some (CCDIKSolver.mk target (Skeleton.bones out.1.2) [out.1.1.1])
  | None =>
      AvatarIK._vrMappings a = []
      /\ exists bs : list ObjId,
           AvatarIK._solver a = Some (CCDIKSolver.mk target bs [])
  end ->
  let chain := arm_chain target person_skeleton name bones rotationLimits
                         vrHandGetter rotationOffset st in
  only_chain a chain
  /\ forall o : ObjId,
       solver_rotates_links_only three ->
       o ∉ chain_objects bones chain -> untouched_by_ticks a o.
Proof.
  destruct bones as [[[b0 b1] b2]|]; unfold arm_chain; cbv zeta.
  - match goal with
    | |- context [createIKSettings ?sk _ _ _ _ _ _ _] => set (skeleton := sk)
    end.
    intros [Hms Hs].
    pose proof (fun o => single_chain_untouched a skeleton target name b0 b1 b2
                  rotationLimits vrHandGetter rotationOffset st o) as Hun.
    cbv zeta in Hun.
    destruct (createIKSettings skeleton target name (b0, b1, b2) rotationLimits
                vrHandGetter rotationOffset st) as [[[ik m] sk'] st'].
    cbn [fst snd] in *. unfold only_chain, chain_objects, bones_list.
    split; [split; [by rewrite Hs | exact Hms]|].
    intros o Hsolver Ho. by apply Hun.
  - intros [Hms [bs Hs]]. unfold only_chain.
    split; [split; [by rewrite Hs | exact Hms]|].
    intros o Hsolver _. by eapply no_chain_untouched.
Qed.

(** C9. An arm whose triple of bones includes [undefined] gets no chain
    and no mapping: the descriptions and mappings of the instance are
    those [createIKSettings] builds for the other arm alone, or none if
    that arm is left out too.  Then no tick, after any run of ticks and
    in any scene, changes the position or rotation of an object other
    than the bones of the other arm and its target; with a solver that
    rotates link bones only. *)
Theorem disabled_arm_is_inert (target : ObjId)
    (person_skeleton : option Skeleton.t)
    (maybeRightArmBones maybeLeftArmBones : IKTargetBones)
    (rotationLimitSet : RotationLimitSet.t) (vrHandGetter : VRHandGetter.t)
    (wristRotationOffsetSet : WristRotationOffsetSet.t)
    (options : option Options.t) (st : Scene) :
  let a := (AvatarIK_new target person_skeleton maybeRightArmBones
              maybeLeftArmBones rotationLimitSet vrHandGetter
              wristRotationOffsetSet options st).1.1 in
  (includes_undefined maybeLeftArmBones = true ->
     let bones := strict_bones maybeRightArmBones in
     let chain := arm_chain target person_skeleton "rightArmIK" bones
                    (RotationLimitSet.rightArm rotationLimitSet)
                    (VRHandGetter.right vrHandGetter)
                    (WristRotationOffsetSet.right wristRotationOffsetSet) st in
     only_chain a chain
     /\ forall o : ObjId,
          solver_rotates_links_only three ->
          o ∉ chain_objects bones chain -> untouched_by_ticks a o)
  /\ (includes_undefined maybeRightArmBones = true ->
      let bones := strict_bones maybeLeftArmBones in
      let chain := arm_chain target person_skeleton "leftArmIK" bones
                     (RotationLimitSet.leftArm rotationLimitSet)
                     (VRHandGetter.left vrHandGetter)
                     (WristRotationOffsetSet.left wristRotationOffsetSet) st in
      only_chain a chain
      /\ forall o : ObjId,
           solver_rotates_links_only three ->
           o ∉ chain_objects bones chain -> untouched_by_ticks a o).
Proof.
  intros a. split; intros Hdisabled.
  - apply one_arm_inert.
    apply (AvatarIK_new_left_disabled target person_skeleton maybeRightArmBones
             maybeLeftArmBones rotationLimitSet vrHandGetter
             wristRotationOffsetSet options st Hdisabled).
  - apply one_arm_inert.
    apply (AvatarIK_new_right_disabled target person_skeleton maybeRightArmBones
             maybeLeftArmBones rotationLimitSet vrHandGetter
             wristRotationOffsetSet options st Hdisabled).
Qed.

(** *** Further properties of the reach mapper *)

(** What an update of a mapping in a reachable state leaves in the two
    maxima: a reach that is not negative and at least the reach at
    construction, and a largest controller distance at least the current
    one. *)
Lemma raised_maxima_bounds
    (vrPerson : ObjId) (getVrHand : Scene -> option ObjId)
    (ikTarget wristBone shoulderBone : ObjId)
    (wristRotationOffset : option Quaternion.t)
    (st0 : Scene) (frames : list Scene) (st : Scene) (vrHand : ObjId) :
  let m0 := VRMapping_new vrPerson getVrHand ikTarget wristBone shoulderBone
                          wristRotationOffset st0 in
  let m := mapVRAvatar_seq m0 frames in
  let m' := fst (mapVRAvatar m st) in
  getVrHand st = Some vrHand ->
  m' = raiseMaxima m vrHand st
  /\ 0 <= VRMapping.maxDistanceSquared m0
  /\ VRMapping.maxDistanceSquared m0 <= VRMapping.maxDistanceSquared m'
  /\ Vector3.distanceToSquared (getWorldPosition st shoulderBone)
                               (getWorldPosition st vrHand)
     <= VRMapping.maxShoulderToControllderDistanceSquared m'
  /\ VRMapping.maxShoulderToControllderDistanceSquared m'
     = raise (VRMapping.maxShoulderToControllderDistanceSquared m)
             (Vector3.distanceToSquared (getWorldPosition st shoulderBone)
                                        (getWorldPosition st vrHand)).
Proof.
  intros m0 m m' Hhand.
  destruct (mapVRAvatar_seq_bindings frames m0) as (_ & Hget & _ & _ & _ & _ & _ & Hsh).
  fold m in Hget, Hsh. simpl in Hget, Hsh.
  assert (Hm' : m' = raiseMaxima m vrHand st).
  { unfold m'. rewrite mapVRAvatar_fst, Hget, Hhand. reflexivity. }
  split; [exact Hm'|]. split; [apply distanceToSquared_nonneg|]. split.
  - eapply Rle_trans; [apply (mapVRAvatar_seq_maxima frames m0)|].
    fold m. apply mapVRAvatar_maxima.
  - rewrite Hm'. unfold raiseMaxima. simpl. rewrite Hsh.
    split; [apply raise_ge_r | reflexivity].
Qed.

(** X3. A controller no farther from the shoulder than the arm was long
    when the mapping was constructed is followed exactly: the target is the
    controller position, whatever the mapping has seen in between. *)
Theorem controller_within_rest_length_is_followed
    (vrPerson : ObjId) (getVrHand : Scene -> option ObjId)
    (ikTarget wristBone shoulderBone : ObjId)
    (wristRotationOffset : option Quaternion.t)
    (st0 : Scene) (frames : list Scene) (st : Scene) (vrHand : ObjId) :
  let m := mapVRAvatar_seq
             (VRMapping_new vrPerson getVrHand ikTarget wristBone shoulderBone
                            wristRotationOffset st0) frames in
  let shoulderPos := getWorldPosition st shoulderBone in
  let controllerPos := getWorldPosition st vrHand in
  let m' := fst (mapVRAvatar m st) in
  getVrHand st = Some vrHand ->
  Vector3.distanceToSquared shoulderPos controllerPos
    <= Vector3.distanceToSquared (getWorldPosition st0 shoulderBone)
                                 (getWorldPosition st0 wristBone) ->
  ikTargetWorld m' shoulderPos controllerPos = controllerPos
  /\ forall targetParent : ObjId,
       Object3D.parent (st !!! ikTarget) = Some targetParent ->
       Object3D.position (snd (mapVRAvatar m st) !!! ikTarget)
       = Vector3.applyMatrix4 controllerPos
           (Matrix4.invert (Object3D.matrixWorld (st !!! targetParent))).
Proof.
  intros m shoulderPos controllerPos m' Hhand Hnear.
  destruct (raised_maxima_bounds vrPerson getVrHand ikTarget wristBone
              shoulderBone wristRotationOffset st0 frames st vrHand Hhand)
    as (Hm' & _ & HM & _).
  fold m m' in Hm', HM. simpl in HM.
  assert (Hworld : ikTargetWorld m' shoulderPos controllerPos = controllerPos).
  { unfold ikTargetWorld.
    destruct (Rgt_dec _ _) as [Hgt|_]; [lra | reflexivity]. }
  split; [exact Hworld|].
  intros targetParent Hp.
  destruct (mapVRAvatar_seq_bindings frames
              (VRMapping_new vrPerson getVrHand ikTarget wristBone shoulderBone
                             wristRotationOffset st0))
    as (_ & Hget & Ht & _ & _ & _ & _ & Hsh).
  fold m in Hget, Ht, Hsh. simpl in Hget, Ht, Hsh.
  pose proof (mapVRAvatar_target_position m st vrHand targetParent) as Hpos.
  rewrite Hget, Ht, Hsh, <- Hm' in Hpos. fold shoulderPos controllerPos in Hpos.
  rewrite (Hpos Hhand Hp), Hworld. reflexivity.
Qed.

(** *** Updates and resets *)

Lemma set_position_twice (o : ObjId) (v p : Vector3.t) (st : Scene) :
  set_position o p (set_position o v st) = set_position o p st.
Proof.
  unfold set_position. rewrite lookup_total_insert_eq, insert_insert_eq.
  reflexivity.
Qed.

Lemma set_quaternion_twice (o : ObjId) (q q' : Quaternion.t) (st : Scene) :
  set_quaternion o q' (set_quaternion o q st) = set_quaternion o q' st.
Proof.
  unfold set_quaternion. rewrite lookup_total_insert_eq, insert_insert_eq.
  reflexivity.
Qed.

Lemma set_position_quaternion_comm (o w : ObjId) (p : Vector3.t)
    (q : Quaternion.t) (st : Scene) :
  set_position o p (set_quaternion w q st)
  = set_quaternion w q (set_position o p st).
Proof.
  unfold set_position, set_quaternion.
  destruct (decide (o = w)) as [->|Hne].
  - rewrite !lookup_total_insert_eq, !insert_insert_eq. reflexivity.
  - rewrite (lookup_total_insert_ne _ w o) by congruence.
    rewrite (lookup_total_insert_ne _ o w) by congruence.
    apply insert_insert_ne. congruence.
Qed.

(** X4. [reset] undoes an update: running [reset] after [mapVRAvatar]
    leaves the very scene [reset] alone would have left, so nothing an
    update wrote survives the return of the controller to rest. *)
Theorem reset_after_update (m : VRMapping.t) (st : Scene) :
  reset (fst (mapVRAvatar m st)) (snd (mapVRAvatar m st)) = reset m st.
Proof.
  destruct (mapVRAvatar_bindings m st) as (_ & _ & Ht & Hp & Hw & _ & Hq & _).
  unfold reset. rewrite Ht, Hp, Hw, Hq.
  unfold mapVRAvatar.
  destruct (VRMapping.getVrHand m st) as [h|]; [|reflexivity].
  destruct (Object3D.parent (st !!! VRMapping.ikTarget m)) as [tp|]; [|reflexivity].
  destruct (Object3D.parent (set_position _ _ _ !!! _)) as [wp|]; simpl.
  - rewrite set_position_quaternion_comm, set_quaternion_twice,
      set_position_twice. reflexivity.
  - rewrite set_position_twice. reflexivity.
Qed.

(** *** The timer *)

Lemma tick_sec (a : AvatarIK.t) (deltaTime : R) (st : Scene) :
  AvatarIK._sec (fst (tick a deltaTime st))
  = if Rlt_dec (AvatarIK._sec a + deltaTime) (AvatarIK._intervalSec a)
    then AvatarIK._sec a + deltaTime else 0.
Proof.
  unfold tick. destruct (Rlt_dec _ _); [reflexivity|]. simpl.
  destruct (AvatarIK._solver a) as [solver|]; [|reflexivity].
  destruct (tick_loop solver 0 (AvatarIK._vrMappings a) st). reflexivity.
Qed.

Lemma tick_seq_sec_range (frames : list (R * Scene)) (a : AvatarIK.t) :
  0 < AvatarIK._intervalSec a ->
  0 <= AvatarIK._sec a < AvatarIK._intervalSec a ->
  Forall (fun frame => 0 <= fst frame) frames ->
  0 <= AvatarIK._sec (tick_seq a frames) < AvatarIK._intervalSec a.
Proof.
  revert a. induction frames as [|[dt st] frames IH]; intros a Hint Hsec Hdt; simpl.
  - exact Hsec.
  - apply Forall_cons in Hdt as [Hdt0 Hdt]. simpl in Hdt0.
    rewrite <- (tick_keeps_interval a dt st).
    apply IH; [by rewrite tick_keeps_interval | | exact Hdt].
    rewrite tick_keeps_interval, tick_sec.
    destruct (Rlt_dec _ _); lra.
Qed.

(** X5. With a positive interval and time steps that are not negative,
    the accumulator of an instance stays in [0, interval) after every
    tick: a tick fires as soon as the time added up since the last firing
    reaches the interval, and what exceeds the interval then is dropped. *)
Theorem accumulator_stays_below_interval (target : ObjId)
    (person_skeleton : option Skeleton.t)
    (maybeRightArmBones maybeLeftArmBones : IKTargetBones)
    (rotationLimitSet : RotationLimitSet.t) (vrHandGetter : VRHandGetter.t)
    (wristRotationOffsetSet : WristRotationOffsetSet.t)
    (options : option Options.t) (st0 : Scene) (frames : list (R * Scene)) :
  let a := tick_seq (AvatarIK_new target person_skeleton maybeRightArmBones
                       maybeLeftArmBones rotationLimitSet vrHandGetter
                       wristRotationOffsetSet options st0).1.1 frames in
  0 < intervalSec_of options ->
  Forall (fun frame => 0 <= fst frame) frames ->
  0 <= AvatarIK._sec a < intervalSec_of options.
Proof.
  intros a Hint Hdt.
  destruct (AvatarIK_new_timer target person_skeleton maybeRightArmBones
              maybeLeftArmBones rotationLimitSet vrHandGetter
              wristRotationOffsetSet options st0) as [Hsec Hi].
  pose proof (tick_seq_sec_range frames _ ltac:(rewrite Hi; exact Hint)
                ltac:(rewrite Hsec, Hi; lra) Hdt) as Hrange.
  rewrite Hi in Hrange. exact Hrange.
Qed.

Lemma tick_seq_sec_zero (frames : list (R * Scene)) (a : AvatarIK.t) :
  AvatarIK._intervalSec a <= 0 ->
  AvatarIK._sec a = 0 ->
  Forall (fun frame => 0 <= fst frame) frames ->
  AvatarIK._sec (tick_seq a frames) = 0.
Proof.
  revert a. induction frames as [|[dt st] frames IH]; intros a Hint Hsec Hdt; simpl.
  - exact Hsec.
  - apply Forall_cons in Hdt as [Hdt0 Hdt]. simpl in Hdt0.
    apply IH; [by rewrite tick_keeps_interval | | exact Hdt].
    rewrite tick_sec. destruct (Rlt_dec _ _); lra.
Qed.

(** X6. An interval of 0 in the options is taken as given, not replaced by
    the default: with it, every tick whose time step is not negative runs
    the loop over the mappings. *)
Theorem zero_interval_fires_every_tick (target : ObjId)
    (person_skeleton : option Skeleton.t)
    (maybeRightArmBones maybeLeftArmBones : IKTargetBones)
    (rotationLimitSet : RotationLimitSet.t) (vrHandGetter : VRHandGetter.t)
    (wristRotationOffsetSet : WristRotationOffsetSet.t)
    (isDebug : option bool) (st0 : Scene)
    (frames : list (R * Scene)) (deltaTime : R) (st : Scene) :
  let a := tick_seq (AvatarIK_new target person_skeleton maybeRightArmBones
                       maybeLeftArmBones rotationLimitSet vrHandGetter
                       wristRotationOffsetSet
                       (Some (Options.mk isDebug (Some 0))) st0).1.1 frames in
  Forall (fun frame => 0 <= fst frame) frames ->
  0 <= deltaTime ->
  exists solver : CCDIKSolver.t,
    AvatarIK._solver a = Some solver
    /\ tick a deltaTime st
       = (AvatarIK.with_vrMappings
            (fst (tick_loop solver 0 (AvatarIK._vrMappings a) st))
            (AvatarIK.with_sec 0 a),
          snd (tick_loop solver 0 (AvatarIK._vrMappings a) st)).
Proof.
  intros a Hdts Hdt.
  set (a0 := (AvatarIK_new target person_skeleton maybeRightArmBones
                maybeLeftArmBones rotationLimitSet vrHandGetter
                wristRotationOffsetSet
                (Some (Options.mk isDebug (Some 0))) st0).1.1) in *.
  destruct (AvatarIK_new_timer target person_skeleton maybeRightArmBones
              maybeLeftArmBones rotationLimitSet vrHandGetter
              wristRotationOffsetSet
              (Some (Options.mk isDebug (Some 0))) st0) as [Hsec Hi].
  fold a0 in Hsec, Hi.
  assert (Hi0 : AvatarIK._intervalSec a0 = 0).
  { rewrite Hi, intervalSec_of_options. reflexivity. }
  assert (Hia : AvatarIK._intervalSec a = 0)
    by (unfold a; rewrite tick_seq_keeps_interval; exact Hi0).
  assert (Hsa : AvatarIK._sec a = 0)
    by (apply tick_seq_sec_zero; [lra | exact Hsec | exact Hdts]).
  destruct (AvatarIK_new_has_solver target person_skeleton maybeRightArmBones
              maybeLeftArmBones rotationLimitSet vrHandGetter
              wristRotationOffsetSet
              (Some (Options.mk isDebug (Some 0))) st0) as [solver Hs].
  fold a0 in Hs.
  assert (Hsolver : AvatarIK._solver a = Some solver)
    by (unfold a; rewrite tick_seq_keeps_solver; exact Hs).
  exists solver. split; [exact Hsolver|].
  destruct (tick_idle_or_fire a deltaTime st) as [_ Hfire].
  apply Hfire; [rewrite Hsa, Hia; lra | exact Hsolver].
Qed.

(** *** Chains and mappings go in pairs *)

Lemma findOrAddTargetBone_target_in (skeleton : Skeleton.t) (person : ObjId)
    (name : string) (effectorBone : ObjId) (st : Scene) :
  let found := findOrAddTargetBone skeleton person name effectorBone st in
  found.1.1 ∈ Skeleton.bones found.1.2.
Proof.
  cbv zeta.
  destruct (List.find (fun v => String.eqb (Object3D.name (st !!! v)) name)
              (Skeleton.bones skeleton)) as [b|] eqn:Hfind.
  - rewrite (findOrAddTargetBone_found _ _ _ _ _ _ Hfind). simpl.
    by apply find_name_Some in Hfind as [Hin _].
  - rewrite (findOrAddTargetBone_added _ _ _ _ _ Hfind). simpl.
    apply elem_of_app. right. apply list_elem_of_here.
Qed.

Lemma createIKSettings_paired (skeleton : Skeleton.t) (person : ObjId)
    (name : string) (b0 b1 b2 : ObjId)
    (rotationLimits : RotationLimit.t * RotationLimit.t)
    (vrHandGetter : option (Scene -> option ObjId))
    (rotationOffset : Vector3Tupple) (st : Scene) :
  let out := createIKSettings skeleton person name (b0, b1, b2) rotationLimits
                              vrHandGetter rotationOffset st in
  paired (Skeleton.bones out.1.2) out.1.1.1 out.1.1.2.
Proof.
  cbv zeta. rewrite createIKSettings_unfold. cbv zeta. cbn [fst snd].
  unfold paired, target_bone, VRMapping_new. cbn [IK.target VRMapping.ikTarget].
  apply js_nth_findIndex, findOrAddTargetBone_target_in.
Qed.

Lemma paired_app (bs extra : list ObjId) (ik : IK.t) (m : VRMapping.t) :
  paired bs ik m -> paired (bs ++ extra) ik m.
Proof. unfold paired, target_bone. apply js_nth_app_l. Qed.

Lemma add_arm_paired (person : ObjId) (name : string)
    (bones : option IKTargetBonesStrict)
    (rotationLimits : RotationLimit.t * RotationLimit.t)
    (vrHandGetter : option (Scene -> option ObjId))
    (rotationOffset : Vector3Tupple)
    (acc : list IK.t * list VRMapping.t * Skeleton.t * Scene) :
  Forall2 (paired (Skeleton.bones acc.1.2)) acc.1.1.1 acc.1.1.2 ->
  let out := add_arm person name bones rotationLimits vrHandGetter
                     rotationOffset acc in
  Forall2 (paired (Skeleton.bones out.1.2)) out.1.1.1 out.1.1.2.
Proof.
  destruct acc as [[[iks ms] skeleton] st]. cbn [fst snd]. intros Hacc.
  destruct bones as [[[b0 b1] b2]|]; cbn [add_arm]; [|exact Hacc].
  pose proof (createIKSettings_paired skeleton person name b0 b1 b2
                rotationLimits vrHandGetter rotationOffset st) as Hnew.
  destruct (createIKSettings_prefix skeleton person name b0 b1 b2
              rotationLimits vrHandGetter rotationOffset st) as [extra Hextra].
  cbv zeta in Hnew.
  destruct (createIKSettings skeleton person name (b0, b1, b2) rotationLimits
              vrHandGetter rotationOffset st) as [[[ik m] sk'] st'].
  cbn [fst snd] in *.
  apply Forall2_app.
  - rewrite Hextra. eapply Forall2_impl; [exact Hacc|].
    intros ik' m'. apply paired_app.
  - constructor; [exact Hnew | constructor].
Qed.

Lemma AvatarIK_new_paired (target : ObjId)
    (person_skeleton : option Skeleton.t)
    (maybeRightArmBones maybeLeftArmBones : IKTargetBones)
    (rotationLimitSet : RotationLimitSet.t) (vrHandGetter : VRHandGetter.t)
    (wristRotationOffsetSet : WristRotationOffsetSet.t)
    (options : option Options.t) (st : Scene) :
  let a := (AvatarIK_new target person_skeleton maybeRightArmBones
              maybeLeftArmBones rotationLimitSet vrHandGetter
              wristRotationOffsetSet options st).1.1 in
  exists solver : CCDIKSolver.t,
    AvatarIK._solver a = Some solver
    /\ Forall2 (paired (CCDIKSolver.bones solver)) (CCDIKSolver.iks solver)
               (AvatarIK._vrMappings a).
Proof.
  unfold AvatarIK_new.
  set (skeleton := match person_skeleton with
                   | Some skeleton => skeleton
                   | None => Skeleton.new st _
                   end).
  pose proof (add_arm_paired target "rightArmIK"
                (strict_bones maybeRightArmBones)
                (RotationLimitSet.rightArm rotationLimitSet)
                (VRHandGetter.right vrHandGetter)
                (WristRotationOffsetSet.right wristRotationOffsetSet) _
                (add_arm_paired target "leftArmIK"
                   (strict_bones maybeLeftArmBones)
                   (RotationLimitSet.leftArm rotationLimitSet)
                   (VRHandGetter.left vrHandGetter)
                   (WristRotationOffsetSet.left wristRotationOffsetSet)
                   ([], [], skeleton, st) ltac:(constructor))) as Hout.
  cbv zeta in Hout.
  destruct (add_arm target "rightArmIK" _ _ _ _ _) as [[[iks ms] sk] st'].
  cbn [fst snd] in Hout.
  destruct (isDebug_of options); [destruct (add_helper target st')|];
    simpl; eexists; (split; [reflexivity|]); exact Hout.
Qed.

Lemma tick_loop_bindings (solver : CCDIKSolver.t) (ms : list VRMapping.t) :
  forall (i : nat) (st : Scene),
    Forall2 same_bindings ms (fst (tick_loop solver i ms st)).
Proof.
  induction ms as [|m ms IH]; intros i st; simpl; [constructor|].
  assert (Hm : same_bindings m
                 (if controller_active m st then mapVRAvatar m st
                  else (m, reset m st)).1).
  { destruct (controller_active m st);
      [apply mapVRAvatar_bindings | apply same_bindings_refl]. }
  destruct (if controller_active m st then mapVRAvatar m st else (m, reset m st))
    as [m' st1].
  assert (Hrefl : Forall2 same_bindings ms ms).
  { clear. induction ms; constructor; [apply same_bindings_refl | assumption]. }
  destruct (controller_active m st && mapVRAvatar_throws m st);
    [simpl in *; constructor; assumption|].
  specialize (IH (S i) (solver_update solver i st1)).
  destruct (tick_loop solver (S i) ms (solver_update solver i st1)) as [ms'' st3].
  simpl in *. constructor; assumption.
Qed.

Lemma tick_bindings (a : AvatarIK.t) (deltaTime : R) (st : Scene) :
  Forall2 same_bindings (AvatarIK._vrMappings a)
          (AvatarIK._vrMappings (fst (tick a deltaTime st))).
Proof.
  assert (Hrefl : forall ms, Forall2 same_bindings ms ms).
  { intros ms. induction ms; constructor; [apply same_bindings_refl | assumption]. }
  unfold tick. destruct (Rlt_dec _ _); [apply Hrefl|]. simpl.
  destruct (AvatarIK._solver a) as [solver|]; [|apply Hrefl].
  pose proof (tick_loop_bindings solver (AvatarIK._vrMappings a) 0 st) as Hl.
  destruct (tick_loop solver 0 (AvatarIK._vrMappings a) st) as [ms st'].
  exact Hl.
Qed.

Lemma paired_bindings (bs : list ObjId) (iks : list IK.t)
    (ms ms' : list VRMapping.t) :
  Forall2 (paired bs) iks ms -> Forall2 same_bindings ms ms' ->
  Forall2 (paired bs) iks ms'.
Proof.
  intros Ha. revert ms'.
  induction Ha as [|ik m iks' ms Hp Ha IHa]; intros ms' Hb;
    inversion Hb as [|? m' ? ms'' Hm Hms]; subst; constructor; [|by apply IHa].
  unfold paired in *. destruct Hm as (_ & _ & Ht & _). by rewrite Ht.
Qed.

Lemma tick_seq_paired (bs : list ObjId) (iks : list IK.t)
    (frames : list (R * Scene)) (a : AvatarIK.t) :
  Forall2 (paired bs) iks (AvatarIK._vrMappings a) ->
  Forall2 (paired bs) iks (AvatarIK._vrMappings (tick_seq a frames)).
Proof.
  revert a. induction frames as [|[dt st] frames IH]; intros a Ha; simpl;
    [exact Ha|].
  apply IH. eapply paired_bindings; [exact Ha | apply tick_bindings].
Qed.

(** X7. After the constructor and any run of ticks the solver is there and
    its chains and the mappings go in pairs: there are as many of the one
    as of the other, so [iks[i]] is defined for every mapping the loop of
    [tick] reaches, and the target bone of chain [i] is the object mapping
    [i] places. *)
Theorem chains_and_mappings_in_pairs (target : ObjId)
    (person_skeleton : option Skeleton.t)
    (maybeRightArmBones maybeLeftArmBones : IKTargetBones)
    (rotationLimitSet : RotationLimitSet.t) (vrHandGetter : VRHandGetter.t)
    (wristRotationOffsetSet : WristRotationOffsetSet.t)
    (options : option Options.t) (st0 : Scene) (frames : list (R * Scene)) :
  let a := tick_seq (AvatarIK_new target person_skeleton maybeRightArmBones
                       maybeLeftArmBones rotationLimitSet vrHandGetter
                       wristRotationOffsetSet options st0).1.1 frames in
  exists solver : CCDIKSolver.t,
    AvatarIK._solver a = Some solver
    /\ Forall2 (paired (CCDIKSolver.bones solver)) (CCDIKSolver.iks solver)
               (AvatarIK._vrMappings a)
    /\ forall (i : nat) (m : VRMapping.t),
         AvatarIK._vrMappings a !! i = Some m ->
         exists ik : IK.t,
           CCDIKSolver.iks solver !! i = Some ik
           /\ target_bone (CCDIKSolver.bones solver) ik
              = Some (VRMapping.ikTarget m).
Proof.
  intros a.
  destruct (AvatarIK_new_paired target person_skeleton maybeRightArmBones
              maybeLeftArmBones rotationLimitSet vrHandGetter
              wristRotationOffsetSet options st0) as (solver & Hs & Hp).
  exists solver.
  assert (Hpa : Forall2 (paired (CCDIKSolver.bones solver))
                  (CCDIKSolver.iks solver) (AvatarIK._vrMappings a))
    by (apply tick_seq_paired; exact Hp).
  split; [unfold a; rewrite tick_seq_keeps_solver; exact Hs|].
  split; [exact Hpa|].
  intros i m Hm.
  destruct (Forall2_lookup_r _ _ _ _ _ Hpa Hm) as (ik & Hik & Hpair).
  exists ik. split; [exact Hik | exact Hpair].
Qed.

(** *** Looking the target bone up again *)

Lemma set_name_name (o b : ObjId) (n : string) (st : Scene) :
  Object3D.name (set_name o n st !!! b)
  = if decide (b = o) then n else Object3D.name (st !!! b).
Proof.
  unfold set_name. destruct (decide (b = o)) as [->|Hne].
  - by rewrite lookup_total_insert_eq.
  - by rewrite lookup_total_insert_ne.
Qed.

Lemma set_parent_name (o b : ObjId) (p : option ObjId) (st : Scene) :
  Object3D.name (set_parent o p st !!! b) = Object3D.name (st !!! b).
Proof.
  unfold set_parent. destruct (decide (b = o)) as [->|Hne].
  - by rewrite lookup_total_insert_eq.
  - by rewrite lookup_total_insert_ne.
Qed.

Lemma set_position_name (o b : ObjId) (v : Vector3.t) (st : Scene) :
  Object3D.name (set_position o v st !!! b) = Object3D.name (st !!! b).
Proof.
  unfold set_position. destruct (decide (b = o)) as [->|Hne].
  - by rewrite lookup_total_insert_eq.
  - by rewrite lookup_total_insert_ne.
Qed.

Lemma Object3D_add_name (this object b : ObjId) (st : Scene) :
  Object3D.name (Object3D_add this object st !!! b) = Object3D.name (st !!! b).
Proof.
  unfold Object3D_add. destruct (decide (object = this)); [reflexivity|].
  apply set_parent_name.
Qed.

Lemma find_first_named (names : ObjId -> string) (name : string)
    (bs : list ObjId) (t : ObjId) :
  names t = name ->
  (forall b : ObjId, b ∈ bs -> b <> t -> names b <> name) ->
  List.find (fun v => String.eqb (names v) name) (bs ++ [t]) = Some t.
Proof.
  intros Ht. induction bs as [|b bs IH]; intros Hbs; simpl.
  - by rewrite Ht, String.eqb_refl.
  - destruct (String.eqb (names b) name) eqn:Hb.
    + apply String.eqb_eq in Hb. destruct (decide (b = t)) as [->|Hne];
        [reflexivity|].
      exfalso. apply (Hbs b); [apply list_elem_of_here | exact Hne | exact Hb].
    + apply IH. intros b' Hin. apply Hbs. by apply list_elem_of_further.
Qed.

(** X8. [findOrAddTargetBone] adds a target bone once: where refreshing
    world matrices renames no object, a second call for the same name, on
    the skeleton and the scene the first call left, finds the bone of the
    first call and changes neither the skeleton nor the scene. *)
Theorem findOrAddTargetBone_twice (skeleton : Skeleton.t) (person : ObjId)
    (name : string) (effectorBone effectorBone' : ObjId) (st : Scene) :
  updateMatrixWorld_keeps_names three ->
  let first := findOrAddTargetBone skeleton person name effectorBone st in
  findOrAddTargetBone first.1.2 person name effectorBone' first.2 = first.
Proof.
  intros Hnames. cbv zeta.
  destruct (List.find (fun v => String.eqb (Object3D.name (st !!! v)) name)
              (Skeleton.bones skeleton)) as [b|] eqn:Hfind.
  - rewrite (findOrAddTargetBone_found _ _ _ _ _ _ Hfind). cbn [fst snd].
    apply findOrAddTargetBone_found. exact Hfind.
  - rewrite (findOrAddTargetBone_added _ _ _ _ _ Hfind). cbn [fst snd].
    apply findOrAddTargetBone_found. cbn [Skeleton.bones].
    set (t := fresh (dom st)).
    assert (Hname : forall b : ObjId,
              Object3D.name
                (set_position t
                   (worldToLocal (scene_with_target person name st) person
                      (getWorldPosition (scene_with_target person name st)
                         effectorBone))
                   (scene_with_target person name st) !!! b)
              = if decide (b = t) then name else Object3D.name (st !!! b)).
    { intros b. rewrite set_position_name. unfold scene_with_target. fold t.
      rewrite Hnames, Object3D_add_name, set_name_name.
      destruct (decide (b = t)) as [->|Hne]; [reflexivity|].
      by rewrite lookup_total_insert_ne. }
    apply (find_first_named
             (fun v => Object3D.name (set_position t _ _ !!! v))).
    + rewrite Hname. by rewrite decide_True.
    + intros b Hin Hne. rewrite Hname, decide_False by exact Hne.
      by apply (find_name_None _ _ _ Hfind).
Qed.

(** *** The rotation of the wrist *)














(** *** [createAvatarIK] and the default tables *)

Lemma Avatar_type_cases (a : Avatar.t) :
  Avatar_type a = AvatarTypeVrmV0
  \/ Avatar_type a = AvatarTypeVrmV1
  \/ Avatar_type a = AvatarTypeReadyPlayerMe.
Proof.
  unfold Avatar_type. destruct (Avatar._vrm a) as [vrm|]; [|tauto].
  destruct (metaVersion_is_not_0 vrm); tauto.
Qed.

Lemma default_sets_of_type (a : Avatar.t) :
  (getDefaultRotationLimitSet (Avatar_type a) = Normal RotationLimitSetVrmV0
   /\ getDefaultWristRotationOffsetSet (Avatar_type a)
      = Normal WristRotationOffsetSetVrmV0)
  \/ (getDefaultRotationLimitSet (Avatar_type a) = Normal RotationLimitSetVrmV1
      /\ getDefaultWristRotationOffsetSet (Avatar_type a)
         = Normal WristRotationOffsetSetVrmV1)
  \/ (getDefaultRotationLimitSet (Avatar_type a) = Normal RotationLimitSetRpm
      /\ getDefaultWristRotationOffsetSet (Avatar_type a)
         = Normal WristRotationOffsetSetRpm).
Proof.
  destruct (Avatar_type_cases a) as [-> | [-> | ->]];
    [left | right; left | right; right]; split; reflexivity.
Qed.

Lemma degToRad_le (a b : R) : a <= b -> degToRad a <= degToRad b.
Proof.
  intros Hle. unfold degToRad.
  apply Rmult_le_compat_r; [|exact Hle].
  pose proof PI_RGT_0. lra.
Qed.

Lemma limitToVec_ordered (limit : RotationLimit.t) (index : Z) :
  degrees_ordered limit ->
  limit_ordered (IKLink.mk index (limitToVec (RotationLimit.rotationMin limit))
                           (limitToVec (RotationLimit.rotationMax limit))).
Proof.
  unfold degrees_ordered, limit_ordered.
  destruct (RotationLimit.rotationMin limit) as [[[lo0 lo1] lo2]|]; [|tauto].
  destruct (RotationLimit.rotationMax limit) as [[[hi0 hi1] hi2]|]; [|tauto].
  simpl. intros (H0 & H1 & H2). repeat split; by apply degToRad_le.
Qed.

Lemma add_arm_ordered (person : ObjId) (name : string)
    (bones : option IKTargetBonesStrict)
    (rotationLimits : RotationLimit.t * RotationLimit.t)
    (vrHandGetter : option (Scene -> option ObjId))
    (rotationOffset : Vector3Tupple)
    (acc : list IK.t * list VRMapping.t * Skeleton.t * Scene) :
  degrees_ordered (fst rotationLimits) ->
  degrees_ordered (snd rotationLimits) ->
  Forall (fun ik => Forall limit_ordered (IK.links ik)) acc.1.1.1 ->
  Forall (fun ik => Forall limit_ordered (IK.links ik))
         (add_arm person name bones rotationLimits vrHandGetter
                  rotationOffset acc).1.1.1.
Proof.
  destruct acc as [[[iks ms] skeleton] st]. cbn [fst snd]. intros H0 H1 Hacc.
  destruct bones as [[[b0 b1] b2]|]; cbn [add_arm]; [|exact Hacc].
  rewrite createIKSettings_unfold. cbv zeta. cbn [fst snd].
  apply Forall_app. split; [exact Hacc|].
  constructor; [|constructor]. cbn [IK.links].
  constructor; [by apply limitToVec_ordered|].
  constructor; [by apply limitToVec_ordered | constructor].
Qed.

Lemma AvatarIK_new_ordered (target : ObjId)
    (person_skeleton : option Skeleton.t)
    (maybeRightArmBones maybeLeftArmBones : IKTargetBones)
    (rotationLimitSet : RotationLimitSet.t) (vrHandGetter : VRHandGetter.t)
    (wristRotationOffsetSet : WristRotationOffsetSet.t)
    (options : option Options.t) (st : Scene) :
  set_ordered rotationLimitSet ->
  exists solver : CCDIKSolver.t,
    AvatarIK._solver (AvatarIK_new target person_skeleton maybeRightArmBones
                        maybeLeftArmBones rotationLimitSet vrHandGetter
                        wristRotationOffsetSet options st).1.1
    = Some solver
    /\ Forall (fun ik => Forall limit_ordered (IK.links ik))
              (CCDIKSolver.iks solver).
Proof.
  intros (Hl0 & Hl1 & Hr0 & Hr1). unfold AvatarIK_new.
  set (skeleton := match person_skeleton with
                   | Some skeleton => skeleton
                   | None => Skeleton.new st _
                   end).
  pose proof (add_arm_ordered target "rightArmIK"
                (strict_bones maybeRightArmBones)
                (RotationLimitSet.rightArm rotationLimitSet)
                (VRHandGetter.right vrHandGetter)
                (WristRotationOffsetSet.right wristRotationOffsetSet) _
                Hr0 Hr1
                (add_arm_ordered target "leftArmIK"
                   (strict_bones maybeLeftArmBones)
                   (RotationLimitSet.leftArm rotationLimitSet)
                   (VRHandGetter.left vrHandGetter)
                   (WristRotationOffsetSet.left wristRotationOffsetSet)
                   ([], [], skeleton, st) Hl0 Hl1 ltac:(constructor))) as Hout.
  destruct (add_arm target "rightArmIK" _ _ _ _ _) as [[[iks ms] sk] st'].
  cbn [fst snd] in Hout.
  destruct (isDebug_of options); [destruct (add_helper target st')|];
    simpl; eexists; (split; [reflexivity|]); exact Hout.
Qed.

Lemma default_sets_ordered :
  set_ordered RotationLimitSetVrmV0
  /\ set_ordered RotationLimitSetVrmV1
  /\ set_ordered RotationLimitSetRpm.
Proof.
  unfold set_ordered, degrees_ordered. simpl. repeat split; lra.
Qed.

(** X12. With the default tables every link is limited consistently.  An
    instance that [createAvatarIK] makes without options, for an avatar of
    any type, has after any run of ticks a solver each of whose links has
    both rotation limits, in radians, the lower one not above the upper
    one on any axis. *)
Theorem default_limits_are_ordered (avatar : Avatar.t)
    (person_skeleton : option Skeleton.t) (handGetter : VRHandGetter.t)
    (st : Scene) (frames : list (R * Scene)) :
  match createAvatarIK avatar person_skeleton handGetter None st with
  | Normal out =>
      match AvatarIK._solver (tick_seq out.1.1 frames) with
      | Some solver =>
          Forall (fun ik => Forall limit_ordered (IK.links ik))
                 (CCDIKSolver.iks solver)
      | None => False
      end
  | Throw _ => False
  end.
Proof.
  destruct default_sets_ordered as (H0 & H1 & Hr).
  unfold createAvatarIK.
  destruct (default_sets_of_type avatar) as [[-> ->] | [[-> ->] | [-> ->]]];
    cbn [Completion_bind]; rewrite tick_seq_keeps_solver.
  - destruct (AvatarIK_new_ordered (Avatar._object3D avatar) person_skeleton
                (Avatar._rightArmBones avatar) (Avatar._leftArmBones avatar)
                RotationLimitSetVrmV0 handGetter WristRotationOffsetSetVrmV0
                (Some (Options.mk (Some false) None)) st H0) as (solver & -> & Ho).
    exact Ho.
  - destruct (AvatarIK_new_ordered (Avatar._object3D avatar) person_skeleton
                (Avatar._rightArmBones avatar) (Avatar._leftArmBones avatar)
                RotationLimitSetVrmV1 handGetter WristRotationOffsetSetVrmV1
                (Some (Options.mk (Some false) None)) st H1) as (solver & -> & Ho).
    exact Ho.
  - destruct (AvatarIK_new_ordered (Avatar._object3D avatar) person_skeleton
                (Avatar._rightArmBones avatar) (Avatar._leftArmBones avatar)
                RotationLimitSetRpm handGetter WristRotationOffsetSetRpm
                (Some (Options.mk (Some false) None)) st Hr) as (solver & -> & Ho).
    exact Ho.
Qed.

(** *** Bone data *)

Lemma JsArray_set_app (pre rest : JsArray) (v : R) :
  JsArray_set (pre ++ rest) (length pre) v = pre ++ Some v :: drop 1 rest.
Proof.
  unfold JsArray_set. rewrite length_app.
  destruct rest as [|r rest]; cbn [length drop].
  - rewrite decide_False by lia.
    replace (length pre - (length pre + 0))%nat with 0%nat by lia.
    cbn [replicate app]. by rewrite app_nil_r.
  - rewrite decide_True by lia.
    rewrite insert_app_r_alt by lia.
    replace (length pre - length pre)%nat with 0%nat by lia.
    reflexivity.
Qed.

Lemma Quaternion_toArray_app (q : Quaternion.t) (pre rest : JsArray) :
  Quaternion_toArray q (pre ++ rest) (length pre)
  = pre ++ (Some <$> components q) ++ drop 4 rest.
Proof.
  unfold Quaternion_toArray. cbv zeta.
  rewrite JsArray_set_app.
  replace (pre ++ Some (Quaternion.x q) :: drop 1 rest)
    with ((pre ++ [Some (Quaternion.x q)]) ++ drop 1 rest)
    by (by rewrite <- app_assoc).
  replace (length pre + 1)%nat with (length (pre ++ [Some (Quaternion.x q)]))
    by (rewrite length_app; simpl; lia).
  rewrite JsArray_set_app, drop_drop.
  replace ((pre ++ [Some (Quaternion.x q)]) ++ Some (Quaternion.y q)
             :: drop (1 + 1) rest)
    with ((pre ++ [Some (Quaternion.x q); Some (Quaternion.y q)])
            ++ drop 2 rest)
    by (by rewrite <- !app_assoc).
  replace (length pre + 2)%nat
    with (length (pre ++ [Some (Quaternion.x q); Some (Quaternion.y q)]))
    by (rewrite length_app; simpl; lia).
  rewrite JsArray_set_app, drop_drop.
  replace ((pre ++ [Some (Quaternion.x q); Some (Quaternion.y q)])
             ++ Some (Quaternion.z q) :: drop (2 + 1) rest)
    with ((pre ++ [Some (Quaternion.x q); Some (Quaternion.y q);
                   Some (Quaternion.z q)]) ++ drop 3 rest)
    by (by rewrite <- !app_assoc).
  replace (length pre + 3)%nat
    with (length (pre ++ [Some (Quaternion.x q); Some (Quaternion.y q);
                          Some (Quaternion.z q)]))
    by (rewrite length_app; simpl; lia).
  rewrite JsArray_set_app, drop_drop.
  rewrite <- !app_assoc. reflexivity.
Qed.

Lemma getSyncBonesData_loop_app (bones : list ObjId) (st : Scene) :
  forall pre rest : JsArray,
    getSyncBonesData_loop bones (length pre) (pre ++ rest) st
    = pre ++ bones_data bones st ++ drop (length bones * 4) rest.
Proof.
  induction bones as [|bone bones IH]; intros pre rest; simpl.
  - by rewrite drop_0.
  - rewrite Quaternion_toArray_app.
    set (q := Object3D.quaternion (st !!! bone)).
    replace (pre ++ (Some <$> components q) ++ drop 4 rest)
      with ((pre ++ (Some <$> components q)) ++ drop 4 rest)
      by (by rewrite <- app_assoc).
    replace (length pre + 4)%nat with (length (pre ++ (Some <$> components q)))
      by (rewrite length_app; simpl; lia).
    rewrite IH, drop_drop, <- app_assoc. reflexivity.
Qed.

Lemma getSyncBonesData_data (a : Avatar.t) (st : Scene) :
  snd (getSyncBonesData a st)
  = bones_data (Avatar._syncTargetBones a) st
    ++ drop (length (Avatar._syncTargetBones a) * 4)
            (default [] (Avatar._syncBonesBuffer a)).
Proof.
  unfold getSyncBonesData. cbv zeta. cbn [snd].
  set (bones := Avatar._syncTargetBones a).
  destruct (Avatar._syncBonesBuffer a) as [buffer|]; cbn [default].
  - apply (getSyncBonesData_loop_app bones st [] buffer).
  - pose proof (getSyncBonesData_loop_app bones st []
                  (JsArray_new (length bones * 4))) as Hloop.
    cbn [length app] in Hloop. rewrite Hloop.
    unfold JsArray_new. rewrite drop_replicate, drop_nil.
    replace (length bones * 4 - length bones * 4)%nat with 0%nat by lia.
    reflexivity.
Qed.

Lemma bones_data_length (bones : list ObjId) (st : Scene) :
  length (bones_data bones st) = (length bones * 4)%nat.
Proof.
  unfold bones_data. rewrite length_fmap.
  induction bones as [|bone bones IH]; simpl; [reflexivity | by rewrite IH].
Qed.

(** X13. [getSyncBonesData] returns four numbers a bone, in the order of
    the bones to synchronise: the buffer made on the first call, holes
    only, is filled to the last place, and a buffer of that length is
    kept so by every later call.  The array returned is the buffer the
    avatar keeps. *)
Theorem getSyncBonesData_fills_buffer (a : Avatar.t) (st : Scene) :
  let bones := Avatar._syncTargetBones a in
  (forall buffer : JsArray,
     Avatar._syncBonesBuffer a = Some buffer ->
     length buffer = (length bones * 4)%nat) ->
  snd (getSyncBonesData a st) = bones_data bones st
  /\ length (snd (getSyncBonesData a st)) = (length bones * 4)%nat
  /\ Avatar._syncBonesBuffer (fst (getSyncBonesData a st))
     = Some (snd (getSyncBonesData a st))
  /\ Avatar._syncTargetBones (fst (getSyncBonesData a st)) = bones.
Proof.
  intros bones Hfit.
  assert (Hdata : snd (getSyncBonesData a st) = bones_data bones st).
  { rewrite getSyncBonesData_data. fold bones.
    destruct (Avatar._syncBonesBuffer a) as [buffer|] eqn:Hb;
      unfold default, from_option, Datatypes.id.
    - pose proof (Hfit buffer eq_refl) as Hlen. fold bones in Hlen.
      rewrite drop_ge by lia. apply app_nil_r.
    - rewrite drop_nil. apply app_nil_r. }
  split; [exact Hdata|]. split; [rewrite Hdata; apply bones_data_length|].
  split; reflexivity.
Qed.

Lemma JsArray_get_skip (a0 a1 a2 a3 : option R) (array : JsArray) (i : nat) :
  JsArray_get (a0 :: a1 :: a2 :: a3 :: array) (i + 4) = JsArray_get array i.
Proof.
  unfold JsArray_get. replace (i + 4)%nat with (S (S (S (S i)))) by lia.
  reflexivity.
Qed.

Lemma Quaternion_fromArray_skip (a0 a1 a2 a3 : option R) (array : JsArray)
    (i : nat) :
  Quaternion_fromArray (a0 :: a1 :: a2 :: a3 :: array) (i + 4)
  = Quaternion_fromArray array i.
Proof.
  unfold Quaternion_fromArray.
  replace (i + 4 + 1)%nat with (i + 1 + 4)%nat by lia.
  replace (i + 4 + 2)%nat with (i + 2 + 4)%nat by lia.
  replace (i + 4 + 3)%nat with (i + 3 + 4)%nat by lia.
  by rewrite !JsArray_get_skip.
Qed.

Lemma setSyncBonesData_loop_skip (a0 a1 a2 a3 : option R) (array : JsArray)
    (bones : list ObjId) :
  forall (i : nat) (st : Scene),
    setSyncBonesData_loop bones (i + 4) (a0 :: a1 :: a2 :: a3 :: array) st
    = setSyncBonesData_loop bones i array st.
Proof.
  induction bones as [|bone bones IH]; intros i st; simpl; [reflexivity|].
  rewrite Quaternion_fromArray_skip.
  destruct (Quaternion_fromArray array i) as [q|]; [|reflexivity].
  apply IH.
Qed.

Lemma Quaternion_fromArray_components (q : Quaternion.t) (rest : JsArray) :
  Quaternion_fromArray ((Some <$> components q) ++ rest) 0 = Some q.
Proof. destruct q. reflexivity. Qed.

(** Writing the rotations [qs] to the bones [bones], one after the other. *)
Lemma setSyncBonesData_loop_data (sent : list ObjId) (st_s : Scene)
    (rest : JsArray) :
  forall (bones : list ObjId) (st : Scene),
    (length bones <= length sent)%nat ->
    exists st' : Scene,
      setSyncBonesData_loop bones 0 (bones_data sent st_s ++ rest) st = Some st'
      /\ (forall o : ObjId, o ∉ bones -> st' !!! o = st !!! o)
      /\ (forall o : ObjId,
            Object3D.name (st' !!! o) = Object3D.name (st !!! o)
            /\ Object3D.parent (st' !!! o) = Object3D.parent (st !!! o)
            /\ Object3D.position (st' !!! o) = Object3D.position (st !!! o)
            /\ Object3D.matrixWorld (st' !!! o)
               = Object3D.matrixWorld (st !!! o))
      /\ (NoDup bones ->
          forall (i : nat) (bone from : ObjId),
            bones !! i = Some bone -> sent !! i = Some from ->
            Object3D.quaternion (st' !!! bone)
            = Object3D.quaternion (st_s !!! from)).
Proof.
  induction sent as [|from sent IH]; intros bones st Hlen.
  - destruct bones as [|bone bones]; [|simpl in Hlen; lia].
    exists st. simpl. split; [reflexivity|]. split; [done|]. split; [done|].
    intros _ i bone from Hb. by rewrite lookup_nil in Hb.
  - destruct bones as [|bone bones].
    + exists st. simpl. split; [reflexivity|]. split; [done|]. split; [done|].
      intros _ i bone from' Hb. by rewrite lookup_nil in Hb.
    + simpl in Hlen. cbn [setSyncBonesData_loop].
      unfold bones_data. cbn [flat_map]. rewrite fmap_app, <- app_assoc.
      rewrite Quaternion_fromArray_components.
      set (q := Object3D.quaternion (st_s !!! from)).
      change (0 + 4)%nat with (0 + 4)%nat.
      destruct q as [qx qy qz qw] eqn:Hq. cbn [components fmap list_fmap app].
      rewrite setSyncBonesData_loop_skip.
      destruct (IH bones (set_quaternion bone (Quaternion.mk qx qy qz qw) st)
                  ltac:(lia))
        as (st' & Hrun & Hother & Hkeep & Hcopy).
      exists st'. split; [exact Hrun|]. split; [|split].
      * intros o Ho. rewrite Hother by (intros Hin; apply Ho; by right).
        apply set_quaternion_ne. intros ->. apply Ho. by left.
      * intros o. destruct (Hkeep o) as (Hn & Hp & Hpos & Hm).
        rewrite Hn, Hp, Hpos, Hm. unfold set_quaternion.
        destruct (decide (o = bone)) as [->|Hne].
        -- rewrite lookup_total_insert_eq. repeat split.
        -- rewrite lookup_total_insert_ne by congruence. repeat split.
      * intros Hnd i b f Hb Hf. apply NoDup_cons in Hnd as [Hnotin Hnd].
        destruct i as [|i]; simpl in Hb, Hf.
        -- injection Hb as <-. injection Hf as <-.
           rewrite (Hother bone Hnotin), set_quaternion_eq. by rewrite <- Hq.
        -- by apply (Hcopy Hnd i).
Qed.

(** X14. What one avatar sends, another takes over.  The data
    [getSyncBonesData] returns for the sender in its scene, handed to
    [setSyncBonesData] of a receiver that has no more bones to synchronise
    than the sender and none of them twice, gives bone [i] of the
    receiver the rotation of bone [i] of the sender.  Nothing but the
    rotation of these bones changes in the scene of the receiver. *)
Theorem sync_data_round_trip (sender receiver : Avatar.t)
    (st_s st_r : Scene) :
  let sent := Avatar._syncTargetBones sender in
  let bones := Avatar._syncTargetBones receiver in
  NoDup bones ->
  (length bones <= length sent)%nat ->
  exists st' : Scene,
    setSyncBonesData receiver (snd (getSyncBonesData sender st_s)) st_r
    = Some st'
    /\ (forall (i : nat) (bone from : ObjId),
          bones !! i = Some bone -> sent !! i = Some from ->
          Object3D.quaternion (st' !!! bone)
          = Object3D.quaternion (st_s !!! from))
    /\ (forall o : ObjId, o ∉ bones -> st' !!! o = st_r !!! o)
    /\ (forall o : ObjId,
          Object3D.position (st' !!! o) = Object3D.position (st_r !!! o)
          /\ Object3D.parent (st' !!! o) = Object3D.parent (st_r !!! o)).
Proof.
  intros sent bones Hnd Hlen.
  unfold setSyncBonesData. rewrite getSyncBonesData_data. fold sent bones.
  destruct (setSyncBonesData_loop_data sent st_s
              (drop (length sent * 4) (default [] (Avatar._syncBonesBuffer sender)))
              bones st_r Hlen)
    as (st' & Hrun & Hother & Hkeep & Hcopy).
  exists st'. split; [exact Hrun|]. split; [exact (Hcopy Hnd)|].
  split; [exact Hother|].
  intros o. destruct (Hkeep o) as (_ & Hp & Hpos & _). by split.
Qed.

(** *** The head *)

Lemma headEuler_bounds (a : Avatar.t) (rotation : Vector3.t) :
  -0.6 <= Vector3.x (headEuler a rotation) <= 0.6
  /\ -0.6 <= Vector3.y (headEuler a rotation) <= 0.6
  /\ Vector3.z (headEuler a rotation) = 0.
Proof.
  unfold headEuler, _eulerForAvatar, RotationLimitHeadSync.x_min,
    RotationLimitHeadSync.x_max, RotationLimitHeadSync.y_min,
    RotationLimitHeadSync.y_max, RotationLimitHeadSync.z_min,
    RotationLimitHeadSync.z_max.
  cbv zeta.
  assert (Hz : forall v : R, Rmin 0 (Rmax 0 v) = 0).
  { intros v. unfold Rmin, Rmax.
    destruct (Rle_dec 0 v); destruct (Rle_dec 0 _); lra. }
  assert (Hc : forall v : R, -0.6 <= Rmin 0.6 (Rmax (-0.6) v) <= 0.6).
  { intros v. unfold Rmin, Rmax.
    destruct (Rle_dec (-0.6) v); destruct (Rle_dec 0.6 _); lra. }
  destruct (Avatar._vrm a) as [vrm|]; [destruct (metaVersion_is_not_0 vrm)|];
    simpl; rewrite Hz;
    pose proof (Hc (Vector3.x rotation * -1));
    pose proof (Hc (Vector3.y rotation)); repeat split; lra.
Qed.

(** X15. [headSync] keeps the head within its limits.  The angles the
    head bone is given lie in [-0.6, 0.6] about x and y and are 0 about z,
    for every avatar type and every rotation of the headset; the roll of
    the headset does not enter the result at all, and nothing but the
    rotation of the head bone changes. *)
Theorem headSync_within_limits (a : Avatar.t) (rotation : Vector3.t)
    (st : Scene) :
  let e := headEuler a rotation in
  Object3D.quaternion (headSync a rotation st !!! Avatar._headBone a)
  = Quaternion.setFromEuler e
  /\ -0.6 <= Vector3.x e <= 0.6
  /\ -0.6 <= Vector3.y e <= 0.6
  /\ Vector3.z e = 0
  /\ (forall roll : R,
        headSync a (Vector3.mk (Vector3.x rotation) (Vector3.y rotation) roll) st
        = headSync a rotation st)
  /\ (forall o : ObjId,
        o <> Avatar._headBone a -> headSync a rotation st !!! o = st !!! o).
Proof.
  intros e. split; [apply set_quaternion_eq|].
  destruct (headEuler_bounds a rotation) as (Hx & Hy & Hz).
  split; [exact Hx|]. split; [exact Hy|]. split; [exact Hz|]. split.
  - intros roll. unfold headSync. f_equal. f_equal.
    destruct (headEuler_bounds a
                (Vector3.mk (Vector3.x rotation) (Vector3.y rotation) roll))
      as (_ & _ & Hz').
    revert Hz Hz'. unfold headEuler, _eulerForAvatar. cbv zeta.
    destruct (Avatar._vrm a) as [vrm|]; [destruct (metaVersion_is_not_0 vrm)|];
      simpl; intros -> ->; reflexivity.
  - intros o Hne. unfold headSync. by apply set_quaternion_ne.
Qed.

Lemma getHeadHeight_loop_climbs (st : Scene) (root : ObjId) (path : list ObjId) :
  forall (fuel : nat) (v : option ObjId) (y : R),
    climbs st root v path ->
    (length path < fuel)%nat ->
    getHeadHeight_loop fuel st root v y = Some (y + sum_y st path).
Proof.
  induction path as [|b path IH]; intros fuel v y Hclimb Hfuel;
    (destruct fuel as [|fuel]; [simpl in Hfuel; lia|]); simpl in *.
  - destruct Hclimb as [-> | ->].
    + f_equal. lra.
    + rewrite decide_True by reflexivity. f_equal. lra.
  - destruct Hclimb as (-> & Hne & Hclimb).
    rewrite decide_False by exact Hne.
    rewrite (IH fuel _ _ Hclimb) by lia. f_equal. lra.
Qed.

(** X16. [getHeadHeight] adds up the local heights from the head bone up
    to the root object of the avatar, the root left out: where [path]
    lists these objects, the loop ends after one test more than there are
    objects in it and returns the sum of their [position.y].  Where the
    head is not below the root, the sum runs to the top of the tree. *)
Theorem getHeadHeight_sums_to_root (a : Avatar.t) (st : Scene)
    (path : list ObjId) (fuel : nat) :
  climbs st (Avatar._object3D a) (Some (Avatar._headBone a)) path ->
  (length path < fuel)%nat ->
  getHeadHeight fuel a st = Some (sum_y st path).
Proof.
  intros Hclimb Hfuel. unfold getHeadHeight.
  rewrite (getHeadHeight_loop_climbs st _ path fuel _ 0 Hclimb Hfuel).
  f_equal. lra.
Qed.

(** *** Facial expressions *)

Lemma JsArray_set_get (array : JsArray) (i : nat) (v : R) :
  JsArray_get (JsArray_set array i v) i = Some v.
Proof.
  unfold JsArray_get, JsArray_set.
  destruct (decide (i < length array)%nat) as [Hlt|Hge].
  - by rewrite list_lookup_insert_eq.
  - rewrite app_assoc, lookup_app_r;
      rewrite length_app, length_replicate; [|lia].
    replace (i - (length array + (i - length array)))%nat with 0%nat by lia.
    reflexivity.
Qed.

Lemma JsArray_set_get_ne (array : JsArray) (i j : nat) (v : R) :
  i <> j -> JsArray_get (JsArray_set array i v) j = JsArray_get array j.
Proof.
  intros Hne. unfold JsArray_get, JsArray_set.
  destruct (decide (i < length array)%nat) as [Hlt|Hge].
  - by rewrite list_lookup_insert_ne.
  - destruct (decide (j < length array)%nat) as [Hj|Hj].
    + by rewrite lookup_app_l.
    + rewrite (lookup_ge_None_2 array j) by lia.
      rewrite lookup_app_r by lia.
      destruct (decide (j - length array < i - length array)%nat) as [Hin|Hout].
      * rewrite lookup_app_l by (rewrite length_replicate; lia).
        by rewrite lookup_replicate_2.
      * rewrite lookup_app_r by (rewrite length_replicate; lia).
        rewrite length_replicate.
        destruct (j - length array - (i - length array))%nat as [|n] eqn:Hn;
          [lia | reflexivity].
Qed.

Lemma set_if_truthy_zero (idx : option nat) (v : R) (influences : JsArray) :
  JsArray_get (set_if_truthy idx v influences) 0 = JsArray_get influences 0.
Proof.
  unfold set_if_truthy, truthy_index.
  destruct idx as [[|n]|]; [reflexivity | | reflexivity].
  apply JsArray_set_get_ne. lia.
Qed.

(** X19. [lipSync] never writes the influence at index 0, [setFaceExpression]
    does.  On a Ready Player Me avatar whose dictionary gives [viseme_U]
    the index 0, [lipSync] leaves the influence at 0 as it was whatever
    the value of [kiss], because it tests the index itself; and
    [setFaceExpression("viseme_U", kiss)], which compares the index with
    [undefined], puts there [kiss] brought into [0, 1]. *)
Theorem lipSync_skips_index_0 (a : Avatar.t) (head : FaceMesh.t)
    (mtd : gmap string nat) (mti : JsArray) (kiss lipsClosed jaw : R) :
  Avatar._vrm a = None ->
  Avatar._faceMesh a = Some head ->
  FaceMesh.morphTargetDictionary head = Some mtd ->
  FaceMesh.morphTargetInfluences head = Some mti ->
  mtd !! "viseme_U"%string = Some 0%nat ->
  (exists mti' : JsArray,
     (FaceMesh.morphTargetInfluences
        <$> Avatar._faceMesh (fst (lipSync a kiss lipsClosed jaw)))
     = Some (Some mti')
     /\ JsArray_get mti' 0 = JsArray_get mti 0)
  /\ (exists (mti' : JsArray) (v : R),
        (FaceMesh.morphTargetInfluences
           <$> Avatar._faceMesh
                 (fst (setFaceExpression a "viseme_U" (Some kiss))))
        = Some (Some mti')
        /\ JsArray_get mti' 0 = Some v
        /\ 0 <= v <= 1
        /\ (0 <= kiss <= 1 -> v = kiss)).
Proof.
  intros Hvrm Hmesh Hmtd Hmti Hidx. split.
  - unfold lipSync. rewrite Hvrm, Hmesh, Hmti. cbv zeta.
    eexists. split; [reflexivity|].
    by rewrite !set_if_truthy_zero.
  - unfold setFaceExpression. rewrite Hvrm, Hmesh, Hmtd, Hmti, Hidx.
    cbv zeta. cbn [default from_option Datatypes.id].
    eexists _, _. split; [reflexivity|].
    rewrite JsArray_set_get. split; [reflexivity|].
    destruct (Rlt_dec kiss 0); [|destruct (Rlt_dec 1 kiss)]; split; lra.
Qed.

(** *** The walker *)

Lemma AutoWalker_tick_alternates (w : AutoWalker.t) (dt : R) (visible : bool)
    (st : Scene) :
  match snd (AutoWalker_tick w dt visible st) with
  | Some c =>
      c = (if AutoWalker._isWalking w then "idle" else "walk")%string
      /\ AutoWalker._isWalking (fst (AutoWalker_tick w dt visible st))
         = negb (AutoWalker._isWalking w)
  | None =>
      AutoWalker._isWalking (fst (AutoWalker_tick w dt visible st))
      = AutoWalker._isWalking w
  end.
Proof.
  destruct w as [walking timer [o|] last]; unfold AutoWalker_tick; simpl;
    [|reflexivity].
  destruct (negb visible); [reflexivity|].
  destruct last as [last|]; [|reflexivity].
  destruct (has_moved last _); simpl.
  - destruct walking; simpl; [reflexivity | by split].
  - destruct walking; simpl; [|reflexivity].
    destruct (Rgt_dec _ _); simpl; [by split | reflexivity].
Qed.

Lemma AutoWalker_run_alternates (frames : list (R * bool * Scene)) :
  forall w : AutoWalker.t,
    alternates (AutoWalker._isWalking w) (snd (AutoWalker_run w frames)).
Proof.
  induction frames as [|[[dt visible] st] frames IH]; intros w; simpl;
    [exact I|].
  pose proof (AutoWalker_tick_alternates w dt visible st) as Htick.
  destruct (AutoWalker_tick w dt visible st) as [w1 clip].
  specialize (IH w1).
  destruct (AutoWalker_run w1 frames) as [w2 clips].
  simpl in *. destruct clip as [c|].
  - destruct Htick as [Hc Hw]. simpl. split; [exact Hc|].
    by rewrite <- Hw.
  - by rewrite <- Htick.
Qed.

(** X17. The clips an [AutoWalker] asks for alternate: over any run of
    ticks of a walker set up on an avatar the requests are "walk", "idle",
    "walk", ..., the first of them "walk"; no clip is asked for twice in a
    row. *)
Theorem AutoWalker_clips_alternate (avatar : Avatar.t)
    (frames : list (R * bool * Scene)) :
  alternates false
    (snd (AutoWalker_run (AutoWalker.setup avatar AutoWalker.new) frames)).
Proof.
  apply (AutoWalker_run_alternates frames
           (AutoWalker.setup avatar AutoWalker.new)).
Qed.

Lemma Rabs_le_bounds (a b : R) : Rabs a <= b -> - b <= a <= b.
Proof. unfold Rabs. destruct (Rcase_abs a); lra. Qed.

Lemma has_moved_close (last pos : Vector3.t) :
  Rabs (Vector3.x last - Vector3.x pos) <= 0.05 ->
  Rabs (Vector3.z last - Vector3.z pos) <= 0.05 ->
  has_moved last pos = false.
Proof.
  intros Hx Hz. unfold has_moved.
  destruct (Rgt_dec _ _); [lra|]. destruct (Rgt_dec _ _); [lra|]. reflexivity.
Qed.

Lemma AutoWalker_run_still (object3D : ObjId) (x z : R)
    (frames : list (R * bool * Scene)) :
  Forall (fun frame =>
            Rabs (Vector3.x (getWorldPosition frame.2 object3D) - x) <= 0.025
            /\ Rabs (Vector3.z (getWorldPosition frame.2 object3D) - z) <= 0.025)
         frames ->
  forall w : AutoWalker.t,
    AutoWalker._object3D w = Some object3D ->
    AutoWalker._isWalking w = false ->
    (forall last : Vector3.t,
       AutoWalker._lastPosition w = Some last ->
       Rabs (Vector3.x last - x) <= 0.025 /\ Rabs (Vector3.z last - z) <= 0.025) ->
    snd (AutoWalker_run w frames) = [].
Proof.
  induction 1 as [|[[dt visible] st] frames [Hx Hz] _ IH]; intros w Ho Hw Hlast;
    simpl; [reflexivity|].
  simpl in Hx, Hz.
  assert (Htick : snd (AutoWalker_tick w dt visible st) = None
                  /\ AutoWalker._object3D (fst (AutoWalker_tick w dt visible st))
                     = Some object3D
                  /\ AutoWalker._isWalking (fst (AutoWalker_tick w dt visible st))
                     = false
                  /\ forall last : Vector3.t,
                       AutoWalker._lastPosition
                         (fst (AutoWalker_tick w dt visible st)) = Some last ->
                       Rabs (Vector3.x last - x) <= 0.025
                       /\ Rabs (Vector3.z last - z) <= 0.025).
  { destruct w as [walking timer o last]. simpl in Ho, Hw, Hlast. subst o walking.
    unfold AutoWalker_tick. simpl.
    destruct (negb visible);
      [simpl; do 3 (split; [reflexivity|]); exact Hlast|].
    destruct last as [last|].
    - destruct (Hlast last eq_refl) as [Hlx Hlz].
      assert (Hclose : forall u v : R,
                Rabs (u - x) <= 0.025 -> Rabs (v - x) <= 0.025 ->
                Rabs (u - v) <= 0.05).
      { intros u v Hu Hv. apply Rabs_le. apply Rabs_le_bounds in Hu, Hv. lra. }
      assert (Hclosez : forall u v : R,
                Rabs (u - z) <= 0.025 -> Rabs (v - z) <= 0.025 ->
                Rabs (u - v) <= 0.05).
      { intros u v Hu Hv. apply Rabs_le. apply Rabs_le_bounds in Hu, Hv. lra. }
      rewrite has_moved_close by (first [by apply Hclose | by apply Hclosez]).
      simpl. do 3 (split; [reflexivity|]). exact Hlast.
    - simpl. do 3 (split; [reflexivity|]).
      intros last' Heq. injection Heq as <-. by split. }
  destruct (AutoWalker_tick w dt visible st) as [w1 clip].
  simpl in Htick. destruct Htick as (-> & Ho1 & Hw1 & Hlast1).
  specialize (IH w1 Ho1 Hw1 Hlast1).
  destruct (AutoWalker_run w1 frames) as [w2 clips]. exact IH.
Qed.

(** X18. An avatar that stays in place is never made to walk: where the
    world position of the object stays within 2.5 cm of some point along
    x and along z in every tick, whatever its height does, a walker set up
    on the avatar asks for no clip at all. *)
Theorem AutoWalker_still_asks_nothing (avatar : Avatar.t) (x z : R)
    (frames : list (R * bool * Scene)) :
  Forall (fun frame =>
            Rabs (Vector3.x (getWorldPosition frame.2 (Avatar._object3D avatar))
                  - x) <= 0.025
            /\ Rabs (Vector3.z (getWorldPosition frame.2 (Avatar._object3D avatar))
                     - z) <= 0.025)
         frames ->
  snd (AutoWalker_run (AutoWalker.setup avatar AutoWalker.new) frames) = [].
Proof.
  intros Hstill.
  apply (AutoWalker_run_still (Avatar._object3D avatar) x z frames Hstill);
    [reflexivity | reflexivity | discriminate].
Qed.

(** *** A firing tick, arm by arm *)











(** *** What a fresh mapping holds *)




(** *** The first update of a mapping *)

Lemma raise_Rmax (max v : R) : raise max v = Rmax max v.
Proof.
  unfold raise, Rmax. destruct (Rlt_dec max v), (Rle_dec max v); lra.
Qed.

(** C3, as the code has it.  A mapping fresh from its constructor is
    updated for the first time, with the controller ten rest distances
    from the shoulder and the wrist no farther from the shoulder than the
    controller.  The reach after the update is the larger of the rest
    distance and the present distance of the wrist, squared, and the
    controller is not inside it.  With the controller beyond the reach
    the world position chosen for the target is
    [lerp(shoulder, controller, alpha)] with
    [alpha = sqrt(reach / controller distance squared)] in [0, 1), a
    point of the segment from the shoulder to the controller; with the
    controller just at the reach it is the position of the controller
    itself.  That position, brought into the space of the target's
    parent, is what the update writes to the target. *)
Theorem first_update_clamps_towards_controller
    (vrPerson : ObjId) (getVrHand : Scene -> option ObjId)
    (ikTarget wristBone shoulderBone : ObjId)
    (wristRotationOffset : option Quaternion.t)
    (st0 st : Scene) (vrHand : ObjId) :
  let m0 := VRMapping_new vrPerson getVrHand ikTarget wristBone shoulderBone
                          wristRotationOffset st0 in
  let rest := Vector3.distanceToSquared (getWorldPosition st0 shoulderBone)
                                        (getWorldPosition st0 wristBone) in
  let shoulderPos := getWorldPosition st shoulderBone in
  let controllerPos := getWorldPosition st vrHand in
  let now := Vector3.distanceToSquared shoulderPos
                                       (getWorldPosition st wristBone) in
  let far := Vector3.distanceToSquared shoulderPos controllerPos in
  let m1 := fst (mapVRAvatar m0 st) in
  let world := ikTargetWorld m1 shoulderPos controllerPos in
  let alpha := sqrt (Rmax rest now / far) in
  getVrHand st = Some vrHand ->
  Vector3.distanceTo shoulderPos controllerPos
    = 10 * Vector3.distanceTo (getWorldPosition st0 shoulderBone)
                              (getWorldPosition st0 wristBone) ->
  now <= far ->
  VRMapping.maxDistanceSquared m1 = Rmax rest now
  /\ VRMapping.maxShoulderToControllderDistanceSquared m1 = far
  /\ Rmax rest now <= far
  /\ (Rmax rest now < far ->
      0 <= alpha < 1
      /\ world = Vector3.lerp shoulderPos controllerPos alpha)
  /\ (Rmax rest now = far -> world = controllerPos)
  /\ (forall targetParent : ObjId,
        Object3D.parent (st !!! ikTarget) = Some targetParent ->
        Object3D.position (snd (mapVRAvatar m0 st) !!! ikTarget)
        = Vector3.applyMatrix4 world
            (Matrix4.invert (Object3D.matrixWorld (st !!! targetParent)))).
Proof.
  intros m0 rest shoulderPos controllerPos now far m1 world alpha
         Hhand Hten Hnear.
  assert (Hm1 : m1 = raiseMaxima m0 vrHand st).
  { unfold m1. rewrite mapVRAvatar_fst. simpl. rewrite Hhand. reflexivity. }
  assert (Hrest : 0 <= rest) by apply distanceToSquared_nonneg.
  assert (Hnow : 0 <= now) by apply distanceToSquared_nonneg.
  assert (Hfar : far = 100 * rest).
  { unfold Vector3.distanceTo in Hten. fold far rest in Hten.
    rewrite <- (sqrt_sqrt far) by (unfold far; apply distanceToSquared_nonneg).
    rewrite Hten.
    replace (10 * sqrt rest * (10 * sqrt rest))
      with (100 * (sqrt rest * sqrt rest)) by ring.
    rewrite (sqrt_sqrt rest Hrest). reflexivity. }
  assert (Hreach : Rmax rest now <= far).
  { unfold Rmax. destruct (Rle_dec rest now); lra. }
  assert (HM : VRMapping.maxDistanceSquared m1 = Rmax rest now).
  { rewrite Hm1. unfold raiseMaxima. simpl. fold shoulderPos now rest.
    apply raise_Rmax. }
  assert (HD : VRMapping.maxShoulderToControllderDistanceSquared m1 = far).
  { rewrite Hm1. unfold raiseMaxima. simpl. fold shoulderPos controllerPos far.
    apply raise_zero. lra. }
  assert (Hmax : 0 <= Rmax rest now).
  { unfold Rmax. destruct (Rle_dec rest now); lra. }
  split; [exact HM|]. split; [exact HD|]. split; [exact Hreach|].
  split; [|split].
  - intros Hbeyond. split.
    + unfold alpha. split; [apply sqrt_pos|].
      rewrite <- sqrt_1. apply sqrt_lt_1_alt. split.
      * apply Rmult_le_pos; [exact Hmax|].
        apply Rlt_le, Rinv_0_lt_compat. lra.
      * apply Rmult_lt_reg_r with far; [lra|].
        unfold Rdiv. rewrite Rmult_assoc, Rinv_l by lra. lra.
    + unfold world, ikTargetWorld. fold far. rewrite HM.
      destruct (Rgt_dec far (Rmax rest now)) as [_|Hn]; [|lra].
      unfold reachRatio. rewrite HM, HD. reflexivity.
  - intros Hjust. unfold world, ikTargetWorld. fold far. rewrite HM.
    destruct (Rgt_dec far (Rmax rest now)) as [Hgt|_]; [lra | reflexivity].
  - intros targetParent Hp. unfold world. rewrite Hm1.
    apply (mapVRAvatar_target_position m0 st vrHand targetParent); assumption.
Qed.

(** *** The defaults of an avatar *)

(** X11. The [throw] of the two default getters is out of reach of
    [avatar.type].  Both getters throw on every string that is none of
    the three type names, and [avatar.type] is always one of the three:
    on it the getters return the tables of Ready Player Me for an avatar
    without VRM, those of VRM 0.x for a VRM whose [meta.metaVersion] is
    "0", and those of VRM 1.0 for every other VRM, also one without
    [meta]. *)
Theorem default_getters_return_for_avatar_type (a : Avatar.t) :
  (forall t : AvatarType,
     t <> AvatarTypeVrmV0 -> t <> AvatarTypeVrmV1 ->
     t <> AvatarTypeReadyPlayerMe ->
     getDefaultRotationLimitSet t = Throw ("unknown avatar type: " ++ t)
     /\ getDefaultWristRotationOffsetSet t
        = Throw ("unknown avatar type: " ++ t))
  /\ match Avatar._vrm a with
     | None =>
         getDefaultRotationLimitSet (Avatar_type a) = Normal RotationLimitSetRpm
         /\ getDefaultWristRotationOffsetSet (Avatar_type a)
            = Normal WristRotationOffsetSetRpm
     | Some vrm =>
         if bool_decide (VRM.meta_metaVersion vrm = Some "0"%string) then
           getDefaultRotationLimitSet (Avatar_type a)
           = Normal RotationLimitSetVrmV0
           /\ getDefaultWristRotationOffsetSet (Avatar_type a)
              = Normal WristRotationOffsetSetVrmV0
         else
           getDefaultRotationLimitSet (Avatar_type a)
           = Normal RotationLimitSetVrmV1
           /\ getDefaultWristRotationOffsetSet (Avatar_type a)
              = Normal WristRotationOffsetSetVrmV1
     end.
Proof.
  split.
  - intros t H0 H1 Hr.
    unfold getDefaultRotationLimitSet, getDefaultWristRotationOffsetSet.
    apply String.eqb_neq in H0, H1, Hr. rewrite H0, H1, Hr. by split.
  - unfold Avatar_type, metaVersion_is_not_0.
    destruct (Avatar._vrm a) as [vrm|]; [|by split].
    destruct (bool_decide (VRM.meta_metaVersion vrm = Some "0"%string));
      by split.
Qed.


End Properties.

(** ** The properties on the demonstration scene *)

Lemma demo_scene_lookup :
  demo_scene !!! 0%nat = at_position "LeftArm" (Some 10%nat) 0 0 0
  /\ demo_scene !!! 1%nat = at_position "LeftForeArm" (Some 0%nat) (1/2) 0 0
  /\ demo_scene !!! 2%nat = at_position "LeftHand" (Some 1%nat) 1 0 0
  /\ demo_scene !!! 3%nat = at_position "controller" None 10 0 0
  /\ demo_scene !!! 10%nat = at_position "avatar" None 0 0 0.
Proof. repeat split; reflexivity. Qed.

Lemma demo_distances :
  Vector3.distanceToSquared (Object3D.position (demo_scene !!! 0%nat))
                            (Object3D.position (demo_scene !!! 2%nat)) = 1
  /\ Vector3.distanceToSquared (Object3D.position (demo_scene !!! 0%nat))
                               (Object3D.position (demo_scene !!! 3%nat)) = 10 * 10.
Proof.
  destruct demo_scene_lookup as (H0 & _ & H2 & H3 & _).
  rewrite H0, H2, H3. unfold Vector3.distanceToSquared, at_position. simpl.
  split; ring.
Qed.

Lemma demo_skeleton_bones : Skeleton.bones demo_skeleton = [0%nat; 1%nat; 2%nat].
Proof. reflexivity. Qed.

Lemma demo_no_target_yet :
  forall b : ObjId,
    b ∈ Skeleton.bones demo_skeleton ->
    Object3D.name (demo_scene !!! b) <> "leftArmIK"%string.
Proof.
  intros b Hb. rewrite demo_skeleton_bones in Hb.
  destruct demo_scene_lookup as (H0 & H1 & H2 & _).
  repeat (apply elem_of_cons in Hb as [-> | Hb]);
    [rewrite H0 | rewrite H1 | rewrite H2 | by apply elem_of_nil in Hb];
    discriminate.
Qed.

(** C1, as stated, fails on the default limits of a VRM 1.0 left arm: link
    0 is the lower arm and link 1 the upper arm, but link 0 does not carry
    [rotationLimits[0]]. *)
Lemma limits_not_bound_as_claimed :
  let limits := RotationLimitSet.leftArm RotationLimitSetVrmV1 in
  let out := createIKSettings (three := flat_three) demo_skeleton 10%nat
               "leftArmIK" (0%nat, 1%nat, 2%nat) limits (Some demo_getter)
               (0, 0, 0) demo_scene in
  let ik := out.1.1.1 in
  let bs := Skeleton.bones out.1.2 in
  link_bone bs ik 0 = Some 1%nat
  /\ link_bone bs ik 1 = Some 0%nat
  /\ ~ limits_applied ik (fst limits) (snd limits).
Proof.
  intros limits out ik bs.
  destruct (createIKSettings_bones (three := flat_three) demo_skeleton 10%nat
              "leftArmIK" 0%nat 1%nat 2%nat limits (Some demo_getter) (0, 0, 0)
              demo_scene) as (Hlower & Hupper & _).
  split.
  { apply Hlower. rewrite demo_skeleton_bones.
    apply list_elem_of_further, list_elem_of_here. }
  split.
  { apply Hupper. rewrite demo_skeleton_bones. apply list_elem_of_here. }
  subst ik out. rewrite createIKSettings_unfold. simpl.
  intros (first & second & Hlinks & [Hmin _] & _).
  injection Hlinks as <- <-. simpl in Hmin.
  injection Hmin. intros Hz Hy. unfold degToRad in Hy.
  pose proof PI_RGT_0. lra.
Qed.

Lemma rotation_limits_follow_bones_witness :
  let limits := RotationLimitSet.leftArm RotationLimitSetVrmV1 in
  let out := createIKSettings (three := flat_three) demo_skeleton 10%nat
               "leftArmIK" (0%nat, 1%nat, 2%nat) limits (Some demo_getter)
               (0, 0, 0) demo_scene in
  let ik := out.1.1.1 in
  let bs := Skeleton.bones out.1.2 in
  1%nat ∈ Skeleton.bones demo_skeleton
  /\ 0%nat ∈ Skeleton.bones demo_skeleton
  /\ limits_applied ik (snd limits) (fst limits)
  /\ link_bone bs ik 0 = Some 1%nat
  /\ link_bone bs ik 1 = Some 0%nat.
Proof.
  intros limits out ik bs.
  assert (H1 : 1%nat ∈ Skeleton.bones demo_skeleton)
    by (rewrite demo_skeleton_bones; apply list_elem_of_further, list_elem_of_here).
  assert (H0 : 0%nat ∈ Skeleton.bones demo_skeleton)
    by (rewrite demo_skeleton_bones; apply list_elem_of_here).
  destruct (rotation_limits_follow_bones (three := flat_three) demo_skeleton
              10%nat "leftArmIK" 0%nat 1%nat 2%nat limits (Some demo_getter)
              (0, 0, 0) demo_scene) as (Hlimits & Hlower & Hupper & _).
  split; [exact H1|]. split; [exact H0|]. split; [exact Hlimits|].
  split; [exact (Hlower H1) | exact (Hupper H0)].
Defined.

Lemma chain_links_effector_first_witness :
  let out := createIKSettings (three := flat_three) demo_skeleton 10%nat
               "leftArmIK" (0%nat, 1%nat, 2%nat)
               (RotationLimitSet.leftArm RotationLimitSetVrmV1)
               (Some demo_getter) (0, 0, 0) demo_scene in
  let ik := out.1.1.1 in
  let bs := Skeleton.bones out.1.2 in
  (0%nat ∈ Skeleton.bones demo_skeleton
   /\ 1%nat ∈ Skeleton.bones demo_skeleton
   /\ 2%nat ∈ Skeleton.bones demo_skeleton)
  /\ length (IK.links ik) = 2%nat
  /\ link_bone bs ik 0 = Some 1%nat
  /\ link_bone bs ik 1 = Some 0%nat
  /\ effector_bone bs ik = Some 2%nat.
Proof.
  intros out ik bs.
  assert (H0 : 0%nat ∈ Skeleton.bones demo_skeleton)
    by (rewrite demo_skeleton_bones; apply list_elem_of_here).
  assert (H1 : 1%nat ∈ Skeleton.bones demo_skeleton)
    by (rewrite demo_skeleton_bones; apply list_elem_of_further, list_elem_of_here).
  assert (H2 : 2%nat ∈ Skeleton.bones demo_skeleton)
    by (rewrite demo_skeleton_bones;
        apply list_elem_of_further, list_elem_of_further, list_elem_of_here).
  destruct (chain_links_effector_first (three := flat_three) demo_skeleton
              10%nat "leftArmIK" 0%nat 1%nat 2%nat
              (RotationLimitSet.leftArm RotationLimitSetVrmV1)
              (Some demo_getter) (0, 0, 0) demo_scene)
    as (Hlen & _ & _ & Hlower & Hupper & Heff).
  split; [repeat split; assumption|]. split; [exact Hlen|].
  split; [exact (Hlower H1)|]. split; [exact (Hupper H0) | exact (Heff H2)].
Defined.

Lemma findOrAddTargetBone_keeps_alignment_witness :
  let out := findOrAddTargetBone (three := flat_three) demo_skeleton 10%nat
               "leftArmIK" 2%nat demo_scene in
  aligned demo_skeleton
  /\ (forall b : ObjId,
        b ∈ Skeleton.bones demo_skeleton ->
        Object3D.name (demo_scene !!! b) <> "leftArmIK"%string)
  /\ aligned out.1.2
  /\ Skeleton.bones out.1.2 = [0%nat; 1%nat; 2%nat; out.1.1]
  /\ Skeleton.boneInverses out.1.2
     = Skeleton.boneInverses demo_skeleton ++ [Matrix4.identity].
Proof.
  intros out.
  destruct (findOrAddTargetBone_keeps_alignment (three := flat_three)
              demo_skeleton 10%nat "leftArmIK" 2%nat demo_scene)
    as (Hlen & _ & Hadd).
  destruct (Hadd demo_no_target_yet) as (_ & Hbones & Hinv & Hid & _).
  split; [reflexivity|]. split; [exact demo_no_target_yet|].
  split; [exact (Hlen eq_refl)|].
  split; [exact Hbones|].
  fold out in Hinv. rewrite Hinv, Hid. reflexivity.
Defined.

Lemma clamp_divisor_positive_witness :
  let m := VRMapping_new (three := flat_three) 10%nat demo_getter 4%nat 2%nat
                         0%nat None demo_scene in
  let shoulderPos := Object3D.position (demo_scene !!! 0%nat) in
  let controllerPos := Object3D.position (demo_scene !!! 3%nat) in
  let m' := fst (mapVRAvatar (three := flat_three) m demo_scene) in
  (demo_getter demo_scene = Some 3%nat
   /\ Vector3.distanceToSquared shoulderPos controllerPos
      > VRMapping.maxDistanceSquared m')
  /\ 0 < VRMapping.maxShoulderToControllderDistanceSquared m'
  /\ 0 <= reachRatio m' < 1.
Proof.
  intros m shoulderPos controllerPos m'.
  assert (Hclamp : Vector3.distanceToSquared shoulderPos controllerPos
                   > VRMapping.maxDistanceSquared m').
  { unfold m'. rewrite (mapVRAvatar_fst (three := flat_three)). simpl.
    unfold shoulderPos, controllerPos.
    destruct demo_distances as [-> ->]. rewrite raise_same. lra. }
  split; [split; [reflexivity | exact Hclamp]|].
  destruct (clamp_divisor_positive (three := flat_three) 10%nat demo_getter
              4%nat 2%nat 0%nat None demo_scene [] demo_scene 3%nat
              eq_refl Hclamp) as (Hpos & Hratio & _).
  split; [exact Hpos | exact Hratio].
Defined.

(** The solver of [flat_three] rotates link bones only. *)
Lemma flat_three_rotates_links_only : solver_rotates_links_only flat_three.
Proof.
  intros bs ik st o. simpl.
  induction (link_bones bs ik) as [|b l IH]; simpl.
  - split; [reflexivity | intros _; reflexivity].
  - destruct IH as [IHpos IHquat]. split.
    + rewrite set_quaternion_position. exact IHpos.
    + intros Hout. apply not_elem_of_cons in Hout as [Hne Hout].
      rewrite set_quaternion_ne by exact Hne. exact (IHquat Hout).
Qed.

Lemma two_arm_scene_right_target :
  VRMapping.ikTarget
    (createIKSettings (three := flat_three)
       (Skeleton.new two_arm_scene [5%nat; 6%nat; 7%nat]) 10%nat "rightArmIK"
       (5%nat, 6%nat, 7%nat) (RotationLimitSet.rightArm RotationLimitSetVrmV1)
       None (0, 0, 0) two_arm_scene).1.1.2
  = fresh (dom two_arm_scene).
Proof.
  rewrite createIKSettings_unfold. simpl.
  rewrite findOrAddTargetBone_added; reflexivity.
Qed.

Lemma disabled_arm_is_inert_witness :
  let a := (AvatarIK_new (three := flat_three) 10%nat None
              (Some 5%nat, Some 6%nat, Some 7%nat) (Some 0%nat, None, Some 2%nat)
              RotationLimitSetVrmV1 no_getter no_offset None two_arm_scene).1.1 in
  includes_undefined (Some 0%nat, None, Some 2%nat) = true
  /\ length (AvatarIK._vrMappings a) = 1%nat
  /\ untouched_by_ticks (three := flat_three) a 0%nat
  /\ untouched_by_ticks (three := flat_three) a 2%nat.
Proof.
  intros a.
  destruct (disabled_arm_is_inert (three := flat_three) 10%nat None
              (Some 5%nat, Some 6%nat, Some 7%nat) (Some 0%nat, None, Some 2%nat)
              RotationLimitSetVrmV1 no_getter no_offset None two_arm_scene)
    as [Hleft _].
  destruct (Hleft eq_refl) as [Honly Hframe]. fold a in Honly, Hframe.
  change (strict_bones (Some 5%nat, Some 6%nat, Some 7%nat))
    with (Some (5%nat, 6%nat, 7%nat)) in Honly, Hframe.
  unfold arm_chain, chain_objects in Honly, Hframe.
  pose proof two_arm_scene_right_target as Htarget.
  simpl bones_list in *. simpl RotationLimitSet.rightArm in *.
  simpl VRHandGetter.right in *. simpl WristRotationOffsetSet.right in *.
  destruct (createIKSettings _ 10%nat "rightArmIK" (5%nat, 6%nat, 7%nat) _ _ _
              two_arm_scene).1.1 as [ik m].
  simpl in Htarget. destruct Honly as [_ Hms].
  assert (Hfresh : forall o : nat, o ∈ dom two_arm_scene -> o <> fresh (dom two_arm_scene)).
  { intros o Ho ->. exact (is_fresh _ Ho). }
  split; [reflexivity|]. split; [by rewrite Hms|].
  split; apply Hframe; try exact flat_three_rotates_links_only;
    rewrite Htarget; rewrite !not_elem_of_app, !not_elem_of_cons;
    (repeat split; try lia; try apply not_elem_of_nil);
    apply Hfresh; apply elem_of_dom; eexists; reflexivity.
Defined.

(** ** The further properties on the demonstration scene *)

Lemma idle_scene_distance :
  Vector3.distanceToSquared (Object3D.position (idle_scene !!! 0%nat))
                            (Object3D.position (idle_scene !!! 3%nat)) = 0.
Proof.
  change (idle_scene !!! 0%nat) with (at_position "LeftArm" (Some 10%nat) 0 0 0).
  change (idle_scene !!! 3%nat) with (at_position "controller" None 0 0 0).
  unfold Vector3.distanceToSquared, at_position. simpl. ring.
Qed.

Lemma controller_within_rest_length_is_followed_witness :
  let m := VRMapping_new (three := flat_three) 10%nat demo_getter 4%nat 2%nat
                         0%nat None demo_scene in
  let shoulderPos := Object3D.position (idle_scene !!! 0%nat) in
  let controllerPos := Object3D.position (idle_scene !!! 3%nat) in
  let m' := fst (mapVRAvatar (three := flat_three) m idle_scene) in
  (demo_getter idle_scene = Some 3%nat
   /\ Vector3.distanceToSquared shoulderPos controllerPos
      <= Vector3.distanceToSquared (Object3D.position (demo_scene !!! 0%nat))
                                   (Object3D.position (demo_scene !!! 2%nat)))
  /\ ikTargetWorld m' shoulderPos controllerPos = controllerPos.
Proof.
  intros m shoulderPos controllerPos m'.
  assert (Hnear : Vector3.distanceToSquared shoulderPos controllerPos
                  <= Vector3.distanceToSquared
                       (Object3D.position (demo_scene !!! 0%nat))
                       (Object3D.position (demo_scene !!! 2%nat))).
  { unfold shoulderPos, controllerPos. rewrite idle_scene_distance.
    destruct demo_distances as [-> _]. lra. }
  split; [split; [reflexivity | exact Hnear]|].
  apply (controller_within_rest_length_is_followed (three := flat_three)
           10%nat demo_getter 4%nat 2%nat 0%nat None demo_scene [] idle_scene
           3%nat eq_refl Hnear).
Defined.

Lemma accumulator_stays_below_interval_witness :
  let a := tick_seq (three := flat_three)
             (AvatarIK_new (three := flat_three) 10%nat None
                (Some 5%nat, Some 6%nat, Some 7%nat)
                (Some 0%nat, None, Some 2%nat)
                RotationLimitSetVrmV1 no_getter no_offset None
                two_arm_scene).1.1
             [(1 / 120, two_arm_scene); (1 / 50, two_arm_scene)] in
  (0 < intervalSec_of None
   /\ Forall (fun frame : R * Scene => 0 <= fst frame)
             [(1 / 120, two_arm_scene); (1 / 50, two_arm_scene)])
  /\ 0 <= AvatarIK._sec a < intervalSec_of None.
Proof.
  intros a.
  assert (Hint : 0 < intervalSec_of None)
    by (simpl; unfold DEFAULT_INTERVAL_SEC; lra).
  assert (Hdt : Forall (fun frame : R * Scene => 0 <= fst frame)
                  [(1 / 120, two_arm_scene); (1 / 50, two_arm_scene)])
    by (repeat constructor; simpl; lra).
  split; [split; assumption|].
  apply (accumulator_stays_below_interval (three := flat_three) 10%nat None
           (Some 5%nat, Some 6%nat, Some 7%nat) (Some 0%nat, None, Some 2%nat)
           RotationLimitSetVrmV1 no_getter no_offset None two_arm_scene
           [(1 / 120, two_arm_scene); (1 / 50, two_arm_scene)] Hint Hdt).
Defined.

Lemma zero_interval_fires_every_tick_witness :
  let a := (AvatarIK_new (three := flat_three) 10%nat None
              (Some 5%nat, Some 6%nat, Some 7%nat)
              (Some 0%nat, None, Some 2%nat)
              RotationLimitSetVrmV1 no_getter no_offset
              (Some (Options.mk None (Some 0))) two_arm_scene).1.1 in
  (Forall (fun frame : R * Scene => 0 <= fst frame) [] /\ 0 <= 1 / 1000)
  /\ exists solver : CCDIKSolver.t,
       AvatarIK._solver a = Some solver
       /\ tick (three := flat_three) a (1 / 1000) two_arm_scene
          = (AvatarIK.with_vrMappings
               (fst (tick_loop (three := flat_three) solver 0
                       (AvatarIK._vrMappings a) two_arm_scene))
               (AvatarIK.with_sec 0 a),
             snd (tick_loop (three := flat_three) solver 0
                    (AvatarIK._vrMappings a) two_arm_scene)).
Proof.
  intros a.
  assert (Hdt : 0 <= 1 / 1000) by lra.
  split; [split; [constructor | exact Hdt]|].
  apply (zero_interval_fires_every_tick (three := flat_three) 10%nat None
           (Some 5%nat, Some 6%nat, Some 7%nat) (Some 0%nat, None, Some 2%nat)
           RotationLimitSetVrmV1 no_getter no_offset None two_arm_scene []
           (1 / 1000) two_arm_scene (Forall_nil_2 _) Hdt).
Defined.

Lemma flat_three_keeps_names : updateMatrixWorld_keeps_names flat_three.
Proof. intros o b st. reflexivity. Qed.

Lemma findOrAddTargetBone_twice_witness :
  let first := findOrAddTargetBone (three := flat_three) demo_skeleton 10%nat
                 "leftArmIK" 2%nat demo_scene in
  updateMatrixWorld_keeps_names flat_three
  /\ first.1.1 = fresh (dom demo_scene)
  /\ findOrAddTargetBone (three := flat_three) first.1.2 10%nat "leftArmIK"
       2%nat first.2 = first.
Proof.
  intros first. split; [exact flat_three_keeps_names|]. split.
  - unfold first. rewrite findOrAddTargetBone_added; reflexivity.
  - apply (findOrAddTargetBone_twice (three := flat_three) demo_skeleton
             10%nat "leftArmIK" 2%nat 2%nat demo_scene flat_three_keeps_names).
Defined.





Lemma AvatarIK_new_aligned_witness :
  (forall skeleton : Skeleton.t, @None Skeleton.t = Some skeleton -> aligned skeleton)
  /\ aligned (AvatarIK_new (three := flat_three) 10%nat None
                (Some 5%nat, Some 6%nat, Some 7%nat)
                (Some 0%nat, Some 1%nat, Some 2%nat)
                RotationLimitSetVrmV1 no_getter no_offset None
                two_arm_scene).1.2.
Proof.
  assert (Hnone : forall skeleton : Skeleton.t,
            @None Skeleton.t = Some skeleton -> aligned skeleton)
    by (intros skeleton Heq; discriminate Heq).
  split; [exact Hnone|].
  apply (AvatarIK_new_aligned (three := flat_three) 10%nat None
           (Some 5%nat, Some 6%nat, Some 7%nat) (Some 0%nat, Some 1%nat, Some 2%nat)
           RotationLimitSetVrmV1 no_getter no_offset None two_arm_scene Hnone).
Defined.

Lemma demo_avatar_fresh :
  forall buffer : JsArray,
    Avatar._syncBonesBuffer demo_avatar = Some buffer ->
    length buffer = (length (Avatar._syncTargetBones demo_avatar) * 4)%nat.
Proof. intros buffer Heq. discriminate Heq. Qed.

Lemma getSyncBonesData_fills_buffer_witness :
  (forall buffer : JsArray,
     Avatar._syncBonesBuffer demo_avatar = Some buffer ->
     length buffer = (length (Avatar._syncTargetBones demo_avatar) * 4)%nat)
  /\ snd (getSyncBonesData demo_avatar body_scene)
     = bones_data [21%nat; 0%nat; 1%nat; 2%nat] body_scene
  /\ length (snd (getSyncBonesData demo_avatar body_scene)) = 16%nat.
Proof.
  split; [exact demo_avatar_fresh|].
  destruct (getSyncBonesData_fills_buffer demo_avatar body_scene
              demo_avatar_fresh) as (Hdata & Hlen & _).
  split; [exact Hdata | exact Hlen].
Defined.

Lemma demo_avatar_bones_NoDup : NoDup (Avatar._syncTargetBones demo_avatar).
Proof.
  simpl. repeat (apply NoDup_cons; split;
                 [rewrite ?elem_of_cons, elem_of_nil; lia|]).
  apply NoDup_nil. done.
Qed.

Lemma sync_data_round_trip_witness :
  (NoDup (Avatar._syncTargetBones demo_avatar)
   /\ (length (Avatar._syncTargetBones demo_avatar)
       <= length (Avatar._syncTargetBones demo_avatar))%nat)
  /\ exists st' : Scene,
       setSyncBonesData demo_avatar
         (snd (getSyncBonesData demo_avatar body_scene)) demo_scene = Some st'
       /\ Object3D.quaternion (st' !!! 21%nat)
          = Object3D.quaternion (body_scene !!! 21%nat).
Proof.
  split; [split; [exact demo_avatar_bones_NoDup | reflexivity]|].
  destruct (sync_data_round_trip demo_avatar demo_avatar body_scene demo_scene
              demo_avatar_bones_NoDup (le_n _))
    as (st' & Hrun & Hcopy & _).
  exists st'. split; [exact Hrun|].
  apply (Hcopy 0%nat 21%nat 21%nat); reflexivity.
Defined.

Lemma demo_avatar_spine :
  climbs body_scene (Avatar._object3D demo_avatar)
         (Some (Avatar._headBone demo_avatar)) [21%nat; 20%nat].
Proof.
  simpl. split; [reflexivity|]. split; [lia|].
  change (Object3D.parent (body_scene !!! 21%nat)) with (Some 20%nat).
  split; [reflexivity|]. split; [lia|].
  change (Object3D.parent (body_scene !!! 20%nat)) with (Some 10%nat).
  by right.
Qed.

Lemma getHeadHeight_sums_to_root_witness :
  (climbs body_scene (Avatar._object3D demo_avatar)
          (Some (Avatar._headBone demo_avatar)) [21%nat; 20%nat]
   /\ (length [21%nat; 20%nat] < 3)%nat)
  /\ getHeadHeight 3 demo_avatar body_scene
     = Some (sum_y body_scene [21%nat; 20%nat]).
Proof.
  assert (Hfuel : (length [21%nat; 20%nat] < 3)%nat) by (simpl; lia).
  split; [split; [exact demo_avatar_spine | exact Hfuel]|].
  apply (getHeadHeight_sums_to_root demo_avatar
           body_scene [21%nat; 20%nat] 3 demo_avatar_spine Hfuel).
Defined.

Lemma lipSync_skips_index_0_witness :
  (Avatar._vrm face_avatar = None
   /\ (<["viseme_U"%string := 0%nat]> (∅ : gmap string nat))
        !! "viseme_U"%string = Some 0%nat)
  /\ exists mti' : JsArray,
       (FaceMesh.morphTargetInfluences
          <$> Avatar._faceMesh (fst (lipSync face_avatar 1 0 0)))
       = Some (Some mti')
       /\ JsArray_get mti' 0 = JsArray_get [Some (1/4); Some 0] 0.
Proof.
  assert (Hidx : (<["viseme_U"%string := 0%nat]> (∅ : gmap string nat))
                   !! "viseme_U"%string = Some 0%nat)
    by apply lookup_insert_eq.
  split; [split; [reflexivity | exact Hidx]|].
  destruct (lipSync_skips_index_0 face_avatar
              (FaceMesh.mk (Some (<["viseme_U"%string := 0%nat]> ∅))
                           (Some [Some (1/4); Some 0]))
              (<["viseme_U"%string := 0%nat]> ∅) [Some (1/4); Some 0] 1 0 0
              eq_refl eq_refl eq_refl eq_refl Hidx) as [Hlip _].
  exact Hlip.
Defined.

Lemma demo_root_at_origin :
  Object3D.position (demo_scene !!! 10%nat) = Vector3.mk 0 0 0
  /\ Object3D.position (idle_scene !!! 10%nat) = Vector3.mk 0 0 0.
Proof. split; reflexivity. Qed.

Lemma AutoWalker_still_asks_nothing_witness :
  Forall (fun frame : R * bool * Scene =>
            Rabs (Vector3.x (Object3D.position (frame.2 !!! 10%nat)) - 0) <= 0.025
            /\ Rabs (Vector3.z (Object3D.position (frame.2 !!! 10%nat)) - 0)
               <= 0.025)
         [(1 / 60, true, demo_scene); (1 / 60, true, idle_scene)]
  /\ snd (AutoWalker_run (three := flat_three)
            (AutoWalker.setup demo_avatar AutoWalker.new)
            [(1 / 60, true, demo_scene); (1 / 60, true, idle_scene)]) = [].
Proof.
  assert (Hstill :
            Forall (fun frame : R * bool * Scene =>
                      Rabs (Vector3.x (Object3D.position (frame.2 !!! 10%nat)) - 0)
                        <= 0.025
                      /\ Rabs (Vector3.z (Object3D.position (frame.2 !!! 10%nat)) - 0)
                         <= 0.025)
                   [(1 / 60, true, demo_scene); (1 / 60, true, idle_scene)]).
  { destruct demo_root_at_origin as [Hdemo Hidle].
    repeat constructor; cbn [snd]; rewrite ?Hdemo, ?Hidle; simpl;
      rewrite Rminus_0_r, Rabs_R0; lra. }
  split; [exact Hstill|].
  apply (AutoWalker_still_asks_nothing (three := flat_three) demo_avatar 0 0
           [(1 / 60, true, demo_scene); (1 / 60, true, idle_scene)] Hstill).
Defined.

(** ** The first update, the reset and the scheduler on concrete scenes *)

Lemma sqrt_of_square (r : R) : 0 <= r -> sqrt (r * r) = r.
Proof. intros Hr. by apply sqrt_square. Qed.

Lemma stretched_scene_lookup :
  stretched_scene !!! 0%nat = at_position "LeftArm" (Some 10%nat) 0 0 0
  /\ stretched_scene !!! 2%nat = at_position "LeftHand" (Some 1%nat) (3/5) 0 0
  /\ stretched_scene !!! 3%nat = at_position "controller" None (1/2) 0 0
  /\ folded_scene !!! 0%nat = at_position "LeftArm" (Some 10%nat) 0 0 0
  /\ folded_scene !!! 2%nat = at_position "LeftHand" (Some 1%nat) (1/20) 0 0.
Proof. repeat split; reflexivity. Qed.

Lemma stretched_distances :
  Vector3.distanceToSquared (Object3D.position (folded_scene !!! 0%nat))
                            (Object3D.position (folded_scene !!! 2%nat))
  = 1/20 * (1/20)
  /\ Vector3.distanceToSquared (Object3D.position (stretched_scene !!! 0%nat))
                               (Object3D.position (stretched_scene !!! 2%nat))
     = 3/5 * (3/5)
  /\ Vector3.distanceToSquared (Object3D.position (stretched_scene !!! 0%nat))
                               (Object3D.position (stretched_scene !!! 3%nat))
     = 1/2 * (1/2).
Proof.
  destruct stretched_scene_lookup as (H0 & H2 & H3 & F0 & F2).
  rewrite H0, H2, H3, F0, F2. unfold Vector3.distanceToSquared, at_position.
  simpl. repeat split; field.
Qed.

(** C3, as stated, fails twice.  With the arm folded at rest and
    stretched past the controller at the update, the controller is ten
    rest distances away and yet within reach: the target is the
    controller position, nearer to the shoulder than the reach.  And on
    doubles, with the arm in its rest pose, the target chosen for a
    controller at ten rest distances lies beyond the reach by one unit in
    the last place (0.30000000000000004 against 0.3). *)
Lemma reach_is_not_exact :
  (let m0 := VRMapping_new (three := flat_three) 10%nat demo_getter 4%nat
                           2%nat 0%nat None folded_scene in
   let shoulderPos := Object3D.position (stretched_scene !!! 0%nat) in
   let controllerPos := Object3D.position (stretched_scene !!! 3%nat) in
   let m1 := fst (mapVRAvatar (three := flat_three) m0 stretched_scene) in
   let world := ikTargetWorld m1 shoulderPos controllerPos in
   demo_getter stretched_scene = Some 3%nat
   /\ Vector3.distanceTo shoulderPos controllerPos
      = 10 * Vector3.distanceTo (Object3D.position (folded_scene !!! 0%nat))
                                (Object3D.position (folded_scene !!! 2%nat))
   /\ world = controllerPos
   /\ Vector3.distanceTo shoulderPos world
      <> sqrt (VRMapping.maxDistanceSquared m1)
   /\ Vector3.distanceTo shoulderPos world
      <> sqrt (VRMapping.maxDistanceSquared m0))
  /\ (PrimFloat.eqb Float64.controller_distance Float64.ten_rest_distances = true
      /\ PrimFloat.ltb Float64.reach Float64.target_distance = true).
Proof.
  split; [|split; reflexivity].
  cbv zeta. destruct stretched_distances as (Hrest & Hnow & Hfar).
  assert (HM0 : VRMapping.maxDistanceSquared
                  (VRMapping_new (three := flat_three) 10%nat demo_getter 4%nat
                                 2%nat 0%nat None folded_scene)
                = 1/20 * (1/20)) by exact Hrest.
  assert (HM1 : VRMapping.maxDistanceSquared
                  (fst (mapVRAvatar (three := flat_three)
                          (VRMapping_new (three := flat_three) 10%nat demo_getter
                                         4%nat 2%nat 0%nat None folded_scene)
                          stretched_scene))
                = 3/5 * (3/5)).
  { rewrite (mapVRAvatar_fst (three := flat_three)). simpl.
    rewrite Hrest, Hnow. unfold raise. destruct (Rlt_dec _ _); lra. }
  assert (Hworld : ikTargetWorld
                     (fst (mapVRAvatar (three := flat_three)
                             (VRMapping_new (three := flat_three) 10%nat
                                demo_getter 4%nat 2%nat 0%nat None folded_scene)
                             stretched_scene))
                     (Object3D.position (stretched_scene !!! 0%nat))
                     (Object3D.position (stretched_scene !!! 3%nat))
                   = Object3D.position (stretched_scene !!! 3%nat)).
  { unfold ikTargetWorld. rewrite HM1, Hfar.
    destruct (Rgt_dec _ _); [lra | reflexivity]. }
  split; [reflexivity|]. unfold Vector3.distanceTo.
  rewrite Hworld, HM1, HM0, Hfar, Hrest, !sqrt_of_square by lra.
  split; [lra|]. split; [reflexivity|]. split; lra.
Qed.

Lemma first_update_clamps_towards_controller_witness :
  let m0 := VRMapping_new (three := flat_three) 10%nat demo_getter 4%nat 2%nat
                          0%nat None demo_scene in
  let shoulderPos := Object3D.position (demo_scene !!! 0%nat) in
  let controllerPos := Object3D.position (demo_scene !!! 3%nat) in
  let m1 := fst (mapVRAvatar (three := flat_three) m0 demo_scene) in
  (demo_getter demo_scene = Some 3%nat
   /\ Vector3.distanceTo shoulderPos controllerPos
      = 10 * Vector3.distanceTo shoulderPos
               (Object3D.position (demo_scene !!! 2%nat))
   /\ Vector3.distanceToSquared shoulderPos
        (Object3D.position (demo_scene !!! 2%nat))
      <= Vector3.distanceToSquared shoulderPos controllerPos)
  /\ VRMapping.maxDistanceSquared m1 = Rmax 1 1
  /\ ikTargetWorld m1 shoulderPos controllerPos
     = Vector3.lerp shoulderPos controllerPos (sqrt (Rmax 1 1 / (10 * 10))).
Proof.
  intros m0 shoulderPos controllerPos m1.
  assert (Hten : Vector3.distanceTo shoulderPos controllerPos
                 = 10 * Vector3.distanceTo shoulderPos
                          (Object3D.position (demo_scene !!! 2%nat))).
  { unfold Vector3.distanceTo, shoulderPos, controllerPos.
    destruct demo_distances as [-> ->].
    rewrite sqrt_square by lra. rewrite sqrt_1. ring. }
  assert (Hnear : Vector3.distanceToSquared shoulderPos
                    (Object3D.position (demo_scene !!! 2%nat))
                  <= Vector3.distanceToSquared shoulderPos controllerPos).
  { unfold shoulderPos, controllerPos. destruct demo_distances as [-> ->]. lra. }
  split; [split; [reflexivity | split; assumption]|].
  destruct (first_update_clamps_towards_controller (three := flat_three) 10%nat
              demo_getter 4%nat 2%nat 0%nat None demo_scene demo_scene 3%nat
              eq_refl Hten Hnear) as (HM & _ & _ & Hbeyond & _ & _).
  cbv zeta in HM, Hbeyond. cbn [getWorldPosition flat_three] in HM, Hbeyond.
  destruct demo_distances as [Hone Hfar].
  rewrite Hone in HM. rewrite Hone, Hfar in Hbeyond.
  split; [exact HM|].
  apply Hbeyond. unfold Rmax. destruct (Rle_dec 1 1); lra.
Defined.





